(** * Agents and environments (agents.py): a shallow embedding

    The module [agents.py] implements the agent/environment protocol of
    AIMA chapters 1-2: physical objects, agents with a [program] slot,
    the abstract [Environment] with its [step]/[run] loop, the grid
    environment [XYEnvironment], two vacuum worlds and the comparison
    harness [compare_agents].

    The embedding keeps the imperative structure of the Python code:
    - Python values are a small universal type [pyval];
    - objects live in a store and are designated by references, so that
      the two lists [objects] and [agents] of an environment alias the
      same objects, as they do in Python;
    - exceptions are the [Raise] branch of [result];
    - code that may consult the global random generator runs in the
      state-and-error monad [M];
    - the harness keeps environment instances in a store of its own,
      with the function objects of the agent programs in a table that
      an instance shares with its deep copies;
    - the one float of the module, the mean score, is a binary64 number
      of [SpecFloat]. *)

From Stdlib Require Import ZArith String List Bool Lia SpecFloat.
From stdpp Require Import base list.
Import ListNotations.

Local Open Scope Z_scope.
Set Warnings "-register-all".

(** ** Python values *)

Inductive pyval : Type :=
| VNone
| VBool (b : bool)
| VInt (z : Z)
| VStr (s : string)
| VTuple (l : list pyval)
| VList (l : list pyval)
| VRef (r : nat).

(** The exceptions the module can raise. *)
Inductive exn : Type :=
| TypeError | AttributeError | ValueError | KeyError | IndexError
| ZeroDivisionError | OverflowError.

Inductive result (A : Type) : Type :=
| Ok (a : A)
| Raise (e : exn).
Arguments Ok {A} a.
Arguments Raise {A} e.

Definition rbind {A B} (c : result A) (k : A -> result B) : result B :=
  match c with
  | Ok a => k a
  | Raise e => Raise e
  end.

Notation "'let?' x ':=' c 'in' k" := (rbind c (fun x => k))
  (at level 10, x pattern, c at level 100, k at level 200).

(** The global generator of module [random], abstracted as a tape of
    naturals: each draw consumes the head of the tape. *)
Definition RNG : Type := nat -> nat.

Definition M (A : Type) : Type := RNG -> result (A * RNG).

Definition ret {A} (a : A) : M A := fun g => Ok (a, g).

Definition bind {A B} (c : M A) (k : A -> M B) : M B :=
  fun g => match c g with
           | Ok (a, g') => k a g'
           | Raise e => Raise e
           end.

Definition lift {A} (c : result A) : M A :=
  fun g => match c with
           | Ok a => Ok (a, g)
           | Raise e => Raise e
           end.

Definition raise {A} (e : exn) : M A := fun _ => Raise e.

Notation "'let*' x ':=' c 'in' k" := (bind c (fun x => k))
  (at level 10, x pattern, c at level 100, k at level 200).

(** [random.random()]: one draw. *)
Definition random : M nat := fun g => Ok (g 0%nat, fun n => g (S n)).

(** Python's [==] on the values above.  Booleans are integers in Python
    ([True == 1]); tuples and lists are compared element-wise and are
    never equal to each other; references compare by identity. *)
Fixpoint py_eq (a b : pyval) {struct a} : bool :=
  let fix all2 (l1 l2 : list pyval) {struct l1} : bool :=
    match l1, l2 with
    | [], [] => true
    | x :: l1', y :: l2' => py_eq x y && all2 l1' l2'
    | _, _ => false
    end in
  match a, b with
  | VNone, VNone => true
  | VBool x, VBool y => Bool.eqb x y
  | VBool x, VInt y => Z.eqb (Z.b2z x) y
  | VInt x, VBool y => Z.eqb x (Z.b2z y)
  | VInt x, VInt y => Z.eqb x y
  | VStr x, VStr y => String.eqb x y
  | VTuple x, VTuple y => all2 x y
  | VList x, VList y => all2 x y
  | VRef x, VRef y => Nat.eqb x y
  | _, _ => false
  end.

(** Truth value of a Python value, as tested by [if], [or] and [and]. *)
Definition truthy (v : pyval) : bool :=
  match v with
  | VNone => false
  | VBool b => b
  | VInt z => negb (Z.eqb z 0)
  | VStr s => match s with EmptyString => false | _ => true end
  | VTuple l | VList l => match l with [] => false | _ => true end
  | VRef _ => true
  end.

(** [a or b]. *)
Definition py_or (a : pyval) (b : M pyval) : M pyval :=
  if truthy a then ret a else b.

(** [random.choice(seq)] is [seq[int(random() * len(seq))]]: a draw is
    made, then [len(seq)] fails on a value that is not a sequence, and
    indexing fails on an empty one. *)
Definition random_choice (seq : pyval) : M pyval :=
  let* d := random in
  match seq with
  | VTuple l | VList l =>
      match l !! (d mod length l)%nat with
      | Some v => ret v
      | None => raise IndexError
      end
  | _ => raise TypeError
  end.

(** ** Classes and objects *)

(** The classes of physical objects declared in the module. *)
Inductive pyclass : Type :=
| Object | Agent | TableDrivenAgent | RandomAgent | ReflexVacuumAgent
| ModelBasedVacuumAgent | SimpleReflexAgent | ReflexAgentWithState
| Obstacle | Wall | Dirt | Gold | Pit | Arrow | Wumpus | Explorer.

Definition pyclass_eqb (c d : pyclass) : bool :=
  match c, d with
  | Object, Object | Agent, Agent | TableDrivenAgent, TableDrivenAgent
  | RandomAgent, RandomAgent | ReflexVacuumAgent, ReflexVacuumAgent
  | ModelBasedVacuumAgent, ModelBasedVacuumAgent
  | SimpleReflexAgent, SimpleReflexAgent
  | ReflexAgentWithState, ReflexAgentWithState
  | Obstacle, Obstacle | Wall, Wall | Dirt, Dirt | Gold, Gold | Pit, Pit
  | Arrow, Arrow | Wumpus, Wumpus | Explorer, Explorer => true
  | _, _ => false
  end.

(** The base class written in each [class] statement. *)
Definition base_class (c : pyclass) : option pyclass :=
  match c with
  | Object => None
  | Agent | Obstacle | Dirt | Gold | Pit | Arrow => Some Object
  | TableDrivenAgent | RandomAgent | ReflexVacuumAgent
  | ModelBasedVacuumAgent | SimpleReflexAgent | ReflexAgentWithState
  | Wumpus | Explorer => Some Agent
  | Wall => Some Obstacle
  end.

(** [issubclass(c, d)]: walk up the hierarchy, which has depth three. *)
Fixpoint issubclass_fuel (n : nat) (c d : pyclass) : bool :=
  pyclass_eqb c d ||
  match n, base_class c with
  | S n', Some b => issubclass_fuel n' b d
  | _, _ => false
  end.

Definition issubclass (c d : pyclass) : bool := issubclass_fuel 3 c d.

(** [cls.__name__]. *)
Definition class_name (c : pyclass) : string :=
  match c with
  | Object => "Object" | Agent => "Agent"
  | TableDrivenAgent => "TableDrivenAgent" | RandomAgent => "RandomAgent"
  | ReflexVacuumAgent => "ReflexVacuumAgent"
  | ModelBasedVacuumAgent => "ModelBasedVacuumAgent"
  | SimpleReflexAgent => "SimpleReflexAgent"
  | ReflexAgentWithState => "ReflexAgentWithState"
  | Obstacle => "Obstacle" | Wall => "Wall" | Dirt => "Dirt"
  | Gold => "Gold" | Pit => "Pit" | Arrow => "Arrow"
  | Wumpus => "Wumpus" | Explorer => "Explorer"
  end.

(** References into the object store. *)
Abbreviation ref := nat (only parsing).

(** An agent program is a closure: the values it has captured ([pstate])
    and its code, which maps the captured state and a percept to an
    action and the new captured state.  The code may consult the random
    generator and may raise. *)
Record Program : Type := mkProgram {
  pstate : pyval;
  pcode : pyval -> pyval -> M (pyval * pyval)
}.

(** An object with its attribute slots; [None] is an attribute that has
    not been set. *)
Record obj : Type := mkObj {
  cls : pyclass;
  program : option Program;
  alive : option bool;
  bump : option bool;
  location : option pyval;
  performance : option Z;
  heading : option pyval;
  holding : option (list ref);
  held : option pyval
}.

(** [Object()]: an instance with no attribute set. *)
Definition bare (c : pyclass) : obj :=
  mkObj c None None None None None None None None.

(** [Agent.__init__] followed by the assignment of [self.program] made by
    the subclass constructor (the default program of [Agent] reads the
    action from the console and is not modelled). *)
Definition Agent__init__ (c : pyclass) (p : Program) : obj :=
  mkObj c (Some p) (Some true) (Some false) None None None None None.

Definition isinstance (o : obj) (c : pyclass) : bool := issubclass (cls o) c.

(** [Object.is_alive]: [hasattr(self, 'alive') and self.alive]. *)
Definition is_alive (o : obj) : bool :=
  match alive o with
  | Some b => b
  | None => false
  end.

(** Reading an attribute slot. *)
Definition attr {A} (slot : option A) : result A :=
  match slot with
  | Some v => Ok v
  | None => Raise AttributeError
  end.

Definition set_program (p : option Program) (o : obj) : obj :=
  mkObj (cls o) p (alive o) (bump o) (location o) (performance o)
        (heading o) (holding o) (held o).
Definition set_alive (b : option bool) (o : obj) : obj :=
  mkObj (cls o) (program o) b (bump o) (location o) (performance o)
        (heading o) (holding o) (held o).
Definition set_bump (b : option bool) (o : obj) : obj :=
  mkObj (cls o) (program o) (alive o) b (location o) (performance o)
        (heading o) (holding o) (held o).
Definition set_location (l : option pyval) (o : obj) : obj :=
  mkObj (cls o) (program o) (alive o) (bump o) l (performance o)
        (heading o) (holding o) (held o).
Definition set_performance (p : option Z) (o : obj) : obj :=
  mkObj (cls o) (program o) (alive o) (bump o) (location o) p
        (heading o) (holding o) (held o).
Definition set_heading (h : option pyval) (o : obj) : obj :=
  mkObj (cls o) (program o) (alive o) (bump o) (location o) (performance o)
        h (holding o) (held o).
Definition set_holding (h : option (list ref)) (o : obj) : obj :=
  mkObj (cls o) (program o) (alive o) (bump o) (location o) (performance o)
        (heading o) h (held o).
Definition set_held (h : option pyval) (o : obj) : obj :=
  mkObj (cls o) (program o) (alive o) (bump o) (location o) (performance o)
        (heading o) (holding o) h.

(** ** Environments *)

(** The state of one environment instance together with the objects it
    can reach.  [width] and [height] are the slots of [XYEnvironment],
    [status] the dictionary of [TrivialVacuumEnvironment] (as an
    association list). *)
Record env : Type := mkEnv {
  heap : list obj;
  objects : list ref;
  agents : list ref;
  width : Z;
  height : Z;
  status : list (pyval * pyval)
}.

Definition set_heap (h : list obj) (e : env) : env :=
  mkEnv h (objects e) (agents e) (width e) (height e) (status e).
Definition set_objects (l : list ref) (e : env) : env :=
  mkEnv (heap e) l (agents e) (width e) (height e) (status e).
Definition set_agents (l : list ref) (e : env) : env :=
  mkEnv (heap e) (objects e) l (width e) (height e) (status e).
Definition set_status (d : list (pyval * pyval)) (e : env) : env :=
  mkEnv (heap e) (objects e) (agents e) (width e) (height e) d.

(** Dereferencing.  A reference that designates nothing reads as an
    object without attributes, so every attribute read through it raises
    [AttributeError]. *)
Definition get (e : env) (r : ref) : obj :=
  match heap e !! r with
  | Some o => o
  | None => bare Object
  end.

(** In-place update of the object designated by [r]. *)
Definition upd (r : ref) (f : obj -> obj) (e : env) : env :=
  set_heap (alter f r (heap e)) e.

(** A constructor call: the new object is placed in the store and its
    reference returned. *)
Definition alloc (o : obj) (e : env) : ref * env :=
  (length (heap e), set_heap (heap e ++ [o]) e).

(** Dictionaries with tuple keys: lookup raises [KeyError] on a missing
    key, and [TypeError] on an unhashable one (a list, or a tuple that
    contains one). *)
Fixpoint hashable (v : pyval) : bool :=
  match v with
  | VList _ => false
  | VTuple l => forallb hashable l
  | _ => true
  end.

Fixpoint dict_find (d : list (pyval * pyval)) (k : pyval) : option pyval :=
  match d with
  | [] => None
  | (k', v) :: d' => if py_eq k' k then Some v else dict_find d' k
  end.

Definition dict_get (d : list (pyval * pyval)) (k : pyval) : result pyval :=
  if hashable k then
    match dict_find d k with
    | Some v => Ok v
    | None => Raise KeyError
    end
  else Raise TypeError.

Fixpoint dict_store (d : list (pyval * pyval)) (k v : pyval)
  : list (pyval * pyval) :=
  match d with
  | [] => [(k, v)]
  | (k', v') :: d' =>
      if py_eq k' k then (k', v) :: d' else (k', v') :: dict_store d' k v
  end.

Definition dict_set (d : list (pyval * pyval)) (k v : pyval)
  : result (list (pyval * pyval)) :=
  if hashable k then Ok (dict_store d k v) else Raise TypeError.

(** ** Helpers imported from [utils] *)

Module utils.

(** Modelled from the spec: [utils.some] is not part of this module; the
    spec of [find_at] reads "true iff any entity at location exhibits the
    given capability". *)
Fixpoint some {A} (predicate : A -> bool) (seq : list A) : bool :=
  match seq with
  | [] => false
  | x :: seq' => if predicate x then true else some predicate seq'
  end.

(** Modelled from the spec: [utils.vector_add] is not part of this
    module; the spec of [Forward] reads "attempt to move to location +
    heading", the component-wise sum of two tuples of integers. *)
Fixpoint vector_add_loop (a b : list pyval) : result (list pyval) :=
  match a, b with
  | [], [] => Ok []
  | VInt x :: a', VInt y :: b' =>
      let? r := vector_add_loop a' b' in Ok (VInt (x + y) :: r)
  | _, _ => Raise TypeError
  end.

Definition vector_add (a b : pyval) : result pyval :=
  match a, b with
  | VTuple la, VTuple lb =>
      let? r := vector_add_loop la lb in Ok (VTuple r)
  | _, _ => Raise TypeError
  end.

(** Modelled from the spec: [utils.distance2] is not part of this module;
    the spec of [objects_near] reads "squared Euclidean distance". *)
Definition distance2 (a b : pyval) : result Z :=
  match a, b with
  | VTuple [VInt ax; VInt ay], VTuple [VInt bx; VInt by_] =>
      Ok ((ax - bx) * (ax - bx) + (ay - by_) * (ay - by_))
  | _, _ => Raise TypeError
  end.

(** Modelled from the spec: [utils.if_] is not part of this module; the
    spec of the grid vacuum percept reads "DirtStatus reflects whether
    Dirt is present, BumpStatus reflects the agent's bump flag". *)
Definition if_ {A} (test : bool) (result_ alternative : A) : A :=
  if test then result_ else alternative.

End utils.

(** ** The abstract [Environment] *)

(** The methods a subclass of [Environment] provides, as reached through
    [self].  [percept] only reads the environment; the other methods
    change it. *)
Record EnvClass : Type := mkEnvClass {
  self_percept : env -> ref -> result pyval;
  self_execute_action : env -> ref -> pyval -> M env;
  self_default_location : env -> ref -> M pyval;
  self_exogenous_change : env -> M env;
  self_add_object : env -> ref -> option pyval -> M env
}.

Module Environment.

(** [Environment.__init__]. *)
Definition __init__ : env := mkEnv [] [] [] 0 0 [].

(** [Environment.default_location]: [return None]. *)
Definition default_location (e : env) (object : ref) : M pyval := ret VNone.

(** [Environment.exogenous_change]: [pass]. *)
Definition exogenous_change (e : env) : M env := ret e.

(** [Environment.is_done]: the loop over [self.agents]. *)
Fixpoint is_done_loop (e : env) (l : list ref) : bool :=
  match l with
  | [] => true
  | agent :: l' => if is_alive (get e agent) then false else is_done_loop e l'
  end.

Definition is_done (e : env) : bool := is_done_loop e (agents e).

(** [Environment.add_object(self, object, location=None)].  The call
    [self.default_location] is dispatched on the class of [self], hence
    the parameter. *)
Definition add_object (self_default_location : env -> ref -> M pyval)
    (e : env) (object : ref) (location : option pyval) : M env :=
  let* l := py_or (default VNone location) (self_default_location e object) in
  let e := upd object (set_location (Some l)) e in
  let e := set_objects (objects e ++ [object]) e in
  if isinstance (get e object) Agent then
    let e := upd object (set_performance (Some 0)) e in
    ret (set_agents (agents e ++ [object]) e)
  else ret e.

Section Protocol.

Variable C : EnvClass.

(** One evaluation of [agent.program(self.percept(agent))]: the slot is
    read, the percept computed, the closure called; its captured state is
    updated in place. *)
Definition call_program (e : env) (agent : ref) : M (pyval * env) :=
  let* p := lift (attr (program (get e agent))) in
  let* pc := lift (self_percept C e agent) in
  let* (action, st) := pcode p (pstate p) pc in
  ret (action, upd agent (set_program (Some (mkProgram st (pcode p)))) e).

(** The list comprehension of [step]. *)
Fixpoint collect_actions (e : env) (l : list ref) : M (list pyval * env) :=
  match l with
  | [] => ret ([], e)
  | agent :: l' =>
      let* (action, e1) := call_program e agent in
      let* (actions, e2) := collect_actions e1 l' in
      ret (action :: actions, e2)
  end.

(** The [for] loop of [step] over [zip(self.agents, actions)]. *)
Fixpoint apply_actions (e : env) (l : list (ref * pyval)) : M env :=
  match l with
  | [] => ret e
  | (agent, action) :: l' =>
      let* e1 := self_execute_action C e agent action in
      apply_actions e1 l'
  end.

(** [Environment.step]. *)
Definition step (e : env) : M env :=
  if negb (is_done e) then
    let* (actions, e1) := collect_actions e (agents e) in
    let* e2 := apply_actions e1 (combine (agents e1) actions) in
    self_exogenous_change C e2
  else ret e.

(** [Environment.run]: the loop over [range(steps)]. *)
Fixpoint run_loop (n : nat) (e : env) : M env :=
  match n with
  | O => ret e
  | S n' =>
      if is_done e then ret e
      else let* e1 := step e in run_loop n' e1
  end.

Definition run (steps : Z) (e : env) : M env := run_loop (Z.to_nat steps) e.

(** [run] with a ghost trace: the states on which [step] was called, in
    order. *)
Fixpoint run_trace (n : nat) (e : env) : M (list env * env) :=
  match n with
  | O => ret ([], e)
  | S n' =>
      if is_done e then ret ([], e)
      else
        let* e1 := step e in
        let* (tr, e2) := run_trace n' e1 in
        ret (e :: tr, e2)
  end.

End Protocol.

End Environment.

(** ** The grid environment [XYEnvironment] *)

(** Integers as Python sees them in arithmetic ([bool] is a subtype). *)
Definition as_int (v : pyval) : result Z :=
  match v with
  | VInt z => Ok z
  | VBool b => Ok (Z.b2z b)
  | _ => Raise TypeError
  end.

(** [list.index]. *)
Fixpoint list_index (l : list pyval) (x : pyval) : result nat :=
  match l with
  | [] => Raise ValueError
  | y :: l' =>
      if py_eq y x then Ok O
      else let? i := list_index l' x in Ok (S i)
  end.

Definition headings_default : list pyval :=
  [VTuple [VInt 1; VInt 0]; VTuple [VInt 0; VInt 1];
   VTuple [VInt (-1); VInt 0]; VTuple [VInt 0; VInt (-1)]].

(** The body of [turn_heading]:
    [headings[(headings.index(heading) + inc) % len(headings)]]. *)
Definition turn_heading_body (heading inc : pyval) (headings : list pyval)
  : result pyval :=
  let? i := list_index headings heading in
  let? k := as_int inc in
  match headings !! Z.to_nat ((Z.of_nat i + k) mod Z.of_nat (length headings)) with
  | Some h => Ok h
  | None => Raise IndexError
  end.

(** The same body when [headings] is a [str]: [str.index] looks for a
    substring and wants a [str], and indexing yields the string of one
    character. *)
Definition turn_heading_str (heading inc : pyval) (headings : string)
  : result pyval :=
  match heading with
  | VStr sub =>
      match String.index 0 sub headings with
      | Some i =>
          let? k := as_int inc in
          match String.length headings with
          | O => Raise ZeroDivisionError
          | S _ =>
              match String.get
                      (Z.to_nat ((Z.of_nat i + k)
                                 mod Z.of_nat (String.length headings)))
                      headings with
              | Some c => Ok (VStr (String c EmptyString))
              | None => Raise IndexError
              end
          end
      | None => Raise ValueError
      end
  | _ => Raise TypeError
  end.

(** [def turn_heading(self, heading, inc, headings=[...])] is declared at
    module level with the four parameters [self], [heading], [inc] and
    the optional [headings]; the argument list of a call is bound to them
    positionally, and a call with fewer than three or more than four
    arguments raises [TypeError].  A fourth argument that is neither a
    list, a tuple nor a string has no [index] attribute. *)
Definition turn_heading (args : list pyval) : result pyval :=
  match args with
  | [_self; heading; inc] => turn_heading_body heading inc headings_default
  | [_self; heading; inc; VList headings]
  | [_self; heading; inc; VTuple headings] =>
      turn_heading_body heading inc headings
  | [_self; heading; inc; VStr headings] =>
      turn_heading_str heading inc headings
  | [_self; _; _; _] => Raise AttributeError
  | _ => Raise TypeError
  end.

Module XYEnvironment.

(** [XYEnvironment.__init__(self, width=10, height=10)]: the call
    [update(self, objects=[], agents=[], width=width, height=height)]
    sets the four attributes. *)
Definition __init__ (width height : Z) : env := mkEnv [] [] [] width height [].

(** [objects_at]: the comprehension over [self.objects]. *)
Fixpoint objects_at_loop (e : env) (location_ : pyval) (l : list ref)
  : result (list ref) :=
  match l with
  | [] => Ok []
  | o :: l' =>
      let? loc := attr (location (get e o)) in
      let? rest := objects_at_loop e location_ l' in
      Ok (if py_eq loc location_ then o :: rest else rest)
  end.

Definition objects_at (e : env) (location_ : pyval) : result (list ref) :=
  objects_at_loop e location_ (objects e).

(** [find_at(oclass, location)]. *)
Definition find_at (e : env) (oclass : pyclass) (location_ : pyval)
  : result bool :=
  let? l := objects_at e location_ in
  Ok (utils.some (fun o => isinstance (get e o) oclass) l).

(** [objects_near(self, location, radius)]: besides [self] the method
    takes exactly two arguments. *)
Fixpoint objects_near_loop (e : env) (location_ : pyval) (radius2 : Z)
    (l : list ref) : result (list ref) :=
  match l with
  | [] => Ok []
  | o :: l' =>
      let? loc := attr (location (get e o)) in
      let? d := utils.distance2 location_ loc in
      let? rest := objects_near_loop e location_ radius2 l' in
      Ok (if d <=? radius2 then o :: rest else rest)
  end.

Definition objects_near (e : env) (args : list pyval) : result (list ref) :=
  match args with
  | [location_; radius] =>
      let? r := as_int radius in
      objects_near_loop e location_ (r * r) (objects e)
  | _ => Raise TypeError
  end.

(** [object_percept]: [obj.__class__.__name__]. *)
Definition object_percept (e : env) (o : ref) (agent : ref) : pyval :=
  VStr (class_name (cls (get e o))).

(** [XYEnvironment.percept]: the call is [self.objects_near(agent)]. *)
Definition percept (e : env) (agent : ref) : result pyval :=
  let? l := objects_near e [VRef agent] in
  Ok (VList (map (fun o => object_percept e o agent) l)).

(** [move_to] (the messages it prints are left out). *)
Definition move_to (e : env) (object : ref) (destination : pyval)
  : result env :=
  let? blocked := find_at e Obstacle destination in
  if blocked then Ok (upd object (set_bump (Some true)) e)
  else
    Ok (upd object (set_location (Some destination))
          (upd object (set_bump (Some false)) e)).

(** [obj.is_grabable(agent)]: no class of the module defines the
    method. *)
Definition is_grabable (o : obj) (agent : ref) : result bool :=
  Raise AttributeError.

Fixpoint grabable_loop (e : env) (agent : ref) (l : list ref)
  : result (list ref) :=
  match l with
  | [] => Ok []
  | o :: l' =>
      let? b := is_grabable (get e o) agent in
      let? rest := grabable_loop e agent l' in
      Ok (if b then o :: rest else rest)
  end.

(** [XYEnvironment.execute_action]. *)
Definition execute_action (e : env) (agent : ref) (action : pyval)
  : result env :=
  let? e1 :=
    if py_eq action (VStr "TurnRight") then
      let? h := attr (heading (get e agent)) in
      let? h' := turn_heading [h; VInt (-1)] in
      Ok (upd agent (set_heading (Some h')) e)
    else if py_eq action (VStr "TurnLeft") then
      let? h := attr (heading (get e agent)) in
      let? h' := turn_heading [h; VInt 1] in
      Ok (upd agent (set_heading (Some h')) e)
    else if py_eq action (VStr "Forward") then
      let? h := attr (heading (get e agent)) in
      let? loc := attr (location (get e agent)) in
      let? dest := utils.vector_add h loc in
      move_to e agent dest
    else if py_eq action (VStr "Grab") then
      let? loc := attr (location (get e agent)) in
      let? here := objects_at e loc in
      let? objs := grabable_loop e agent here in
      match objs with
      | o :: _ =>
          let? hold := attr (holding (get e agent)) in
          Ok (upd agent (set_holding (Some (hold ++ [o]))) e)
      | [] => Ok e
      end
    else if py_eq action (VStr "Release") then
      let? hold := attr (holding (get e agent)) in
      match hold with
      | _ :: _ => Ok (upd agent (set_holding (Some (removelast hold))) e)
      | [] => Ok e
      end
    else Ok e in
  Ok (upd agent (set_bump (Some false)) e1).

(** [XYEnvironment.default_location]:
    [(random.choice(self.width), random.choice(self.height))]. *)
Definition default_location (e : env) (object : ref) : M pyval :=
  let* x := random_choice (VInt (width e)) in
  let* y := random_choice (VInt (height e)) in
  ret (VTuple [x; y]).

(** [XYEnvironment.add_object(self, object, location=(1, 1))]. *)
Definition add_object (e : env) (object : ref) (location_ : option pyval)
  : M env :=
  let loc := default (VTuple [VInt 1; VInt 1]) location_ in
  let* e1 := Environment.add_object default_location e object (Some loc) in
  let e2 := upd object (set_holding (Some [])) e1 in
  let e3 := upd object (set_held (Some VNone)) e2 in
  ret (set_objects (objects e3 ++ [object]) e3).

(** [self.add_object(Wall(), loc)]. *)
Definition add_wall (e : env) (loc : pyval) : M env :=
  let (w, e1) := alloc (bare Wall) e in
  add_object e1 w (Some loc).

Fixpoint add_walls_x (e : env) (xs : list nat) : M env :=
  match xs with
  | [] => ret e
  | x :: xs' =>
      let* e1 := add_wall e (VTuple [VInt (Z.of_nat x); VInt 0]) in
      let* e2 := add_wall e1 (VTuple [VInt (Z.of_nat x); VInt (height e1 - 1)]) in
      add_walls_x e2 xs'
  end.

Fixpoint add_walls_y (e : env) (ys : list nat) : M env :=
  match ys with
  | [] => ret e
  | y :: ys' =>
      let* e1 := add_wall e (VTuple [VInt 0; VInt (Z.of_nat y)]) in
      let* e2 := add_wall e1 (VTuple [VInt (width e1 - 1); VInt (Z.of_nat y)]) in
      add_walls_y e2 ys'
  end.

(** [add_walls]: the two loops over [range(self.width)] and
    [range(self.height)]. *)
Definition add_walls (e : env) : M env :=
  let* e1 := add_walls_x e (seq 0 (Z.to_nat (width e))) in
  add_walls_y e1 (seq 0 (Z.to_nat (height e1))).

(** The methods of the class as seen through [self]. *)
Definition class : EnvClass :=
  mkEnvClass percept
             (fun e a act => lift (execute_action e a act))
             default_location
             Environment.exogenous_change
             add_object.

End XYEnvironment.

(** ** The grid vacuum world [VacuumEnvironment] *)

(** [agent.performance += k]. *)
Definition add_performance (e : env) (agent : ref) (k : Z) : result env :=
  let? p := attr (performance (get e agent)) in
  Ok (upd agent (set_performance (Some (p + k))) e).

Module VacuumEnvironment.

(** [VacuumEnvironment.__init__]. *)
Definition __init__ (width height : Z) : M env :=
  XYEnvironment.add_walls (XYEnvironment.__init__ width height).

(** [VacuumEnvironment.percept]. *)
Definition percept (e : env) (agent : ref) : result pyval :=
  let? loc := attr (location (get e agent)) in
  let? dirty := XYEnvironment.find_at e Dirt loc in
  let status_ := utils.if_ dirty (VStr "Dirty") (VStr "Clean") in
  let? b := attr (bump (get e agent)) in
  let bump_ := utils.if_ b (VStr "Bump") (VStr "None") in
  Ok (VTuple [status_; bump_]).

(** [VacuumEnvironment.execute_action]. *)
Definition execute_action (e : env) (agent : ref) (action : pyval)
  : result env :=
  let? e1 :=
    if py_eq action (VStr "Suck") then
      let? loc := attr (location (get e agent)) in
      let? dirty := XYEnvironment.find_at e Dirt loc in
      if dirty then add_performance e agent 100 else Ok e
    else Ok e in
  let? e2 := add_performance e1 agent (-1) in
  XYEnvironment.execute_action e2 agent action.

Definition class : EnvClass :=
  mkEnvClass percept
             (fun e a act => lift (execute_action e a act))
             XYEnvironment.default_location
             Environment.exogenous_change
             XYEnvironment.add_object.

End VacuumEnvironment.

(** ** The two-location vacuum world [TrivialVacuumEnvironment] *)

Definition loc_A : pyval := VTuple [VInt 0; VInt 0].
Definition loc_B : pyval := VTuple [VInt 1; VInt 0].

Module TrivialVacuumEnvironment.

(** [TrivialVacuumEnvironment.__init__]: both statuses are drawn. *)
Definition __init__ : M env :=
  let* sa := random_choice (VList [VStr "Clean"; VStr "Dirty"]) in
  let* sb := random_choice (VList [VStr "Clean"; VStr "Dirty"]) in
  ret (set_status [(loc_A, sa); (loc_B, sb)] Environment.__init__).

(** [TrivialVacuumEnvironment.percept]. *)
Definition percept (e : env) (agent : ref) : result pyval :=
  let? loc := attr (location (get e agent)) in
  let? st := dict_get (status e) loc in
  Ok (VTuple [loc; st]).

(** [TrivialVacuumEnvironment.execute_action]. *)
Definition execute_action (e : env) (agent : ref) (action : pyval)
  : result env :=
  if py_eq action (VStr "Right") then
    add_performance (upd agent (set_location (Some loc_B)) e) agent (-1)
  else if py_eq action (VStr "Left") then
    add_performance (upd agent (set_location (Some loc_A)) e) agent (-1)
  else if py_eq action (VStr "Suck") then
    let? loc := attr (location (get e agent)) in
    let? st := dict_get (status e) loc in
    let? e1 := if py_eq st (VStr "Dirty")
               then add_performance e agent 10 else Ok e in
    let? loc1 := attr (location (get e1 agent)) in
    let? d := dict_set (status e1) loc1 (VStr "Clean") in
    Ok (set_status d e1)
  else Ok e.

(** [TrivialVacuumEnvironment.default_location]. *)
Definition default_location (e : env) (object : ref) : M pyval :=
  random_choice (VList [loc_A; loc_B]).

Definition class : EnvClass :=
  mkEnvClass percept
             (fun e a act => lift (execute_action e a act))
             default_location
             Environment.exogenous_change
             (Environment.add_object default_location).

End TrivialVacuumEnvironment.

(** ** [WumpusEnvironment]: a walled grid with the inherited methods *)

Module WumpusEnvironment.

Definition __init__ (width height : Z) : M env :=
  XYEnvironment.add_walls (XYEnvironment.__init__ width height).

Definition class : EnvClass := XYEnvironment.class.

End WumpusEnvironment.

(** ** Agent programs *)

(** Unpacking an argument into the parameter pattern
    [(location, status)]. *)
Definition unpack2 (v : pyval) : result (pyval * pyval) :=
  match v with
  | VTuple l | VList l =>
      match l with
      | [a; b] => Ok (a, b)
      | _ => Raise ValueError
      end
  | VStr s =>
      match s with
      | String a (String b EmptyString) =>
          Ok (VStr (String a EmptyString), VStr (String b EmptyString))
      | _ => Raise ValueError
      end
  | _ => Raise TypeError
  end.

(** The program of [ReflexVacuumAgent]; it captures nothing. *)
Definition reflex_vacuum_program (st percept_ : pyval) : M (pyval * pyval) :=
  let* (location_, status_) := lift (unpack2 percept_) in
  if py_eq status_ (VStr "Dirty") then ret (VStr "Suck", st)
  else if py_eq location_ loc_A then ret (VStr "Right", st)
  else if py_eq location_ loc_B then ret (VStr "Left", st)
  else ret (VNone, st).

(** [ReflexVacuumAgent()]. *)
Definition new_ReflexVacuumAgent : obj :=
  Agent__init__ ReflexVacuumAgent (mkProgram VNone reflex_vacuum_program).

(** [RandomAgent(actions)]: [lambda percept: random.choice(actions)]. *)
Definition new_RandomAgent (actions : pyval) : obj :=
  Agent__init__ RandomAgent
    (mkProgram VNone
       (fun st _ => let* a := random_choice actions in ret (a, st))).

(** [RandomVacuumAgent()]. *)
Definition new_RandomVacuumAgent : obj :=
  new_RandomAgent (VList [VStr "Right"; VStr "Left"; VStr "Suck"; VStr "NoOp"]).

(** [TableDrivenAgent(table)]: the closure captures the list [percepts];
    each call appends the percept and looks the whole sequence up with
    [table.get], which answers [None] for a missing key. *)
Definition table_driven_program (table : list (pyval * pyval))
    (st percept_ : pyval) : M (pyval * pyval) :=
  match st with
  | VList percepts =>
      let percepts' := percepts ++ [percept_] in
      let key := VTuple percepts' in
      if hashable key then
        ret (default VNone (dict_find table key), VList percepts')
      else raise TypeError
  | _ => raise AttributeError
  end.

Definition new_TableDrivenAgent (table : list (pyval * pyval)) : obj :=
  Agent__init__ TableDrivenAgent
    (mkProgram (VList []) (table_driven_program table)).

(** ** The comparison harness *)

(** [float(x)] for an integer [x]: the nearest double, a tie going to the
    even one; a Python [long] beyond the range of the doubles raises
    [OverflowError].  Doubles are the binary64 numbers of [SpecFloat]. *)
Definition double_of_Z (z : Z) : spec_float :=
  binary_normalize 53 1024 z 0 false.

Definition py_float (z : Z) : result spec_float :=
  match double_of_Z z with
  | S754_infinity _ => Raise OverflowError
  | x => Ok x
  end.

(** [x / n] for a float [x] and the length [n] of a list: [n] is
    converted and the quotient rounded to the nearest double; a zero
    divisor raises. *)
Definition float_div_int (x : spec_float) (n : Z) : result spec_float :=
  if n =? 0 then Raise ZeroDivisionError
  else Ok (SFdiv 53 1024 x (double_of_Z n)).

Module Harness.

(** *** Instances and function objects

    The harness handles several environment instances, copies them and
    mutates the copies, so the instances live in a store and the lists
    [envs] hold their addresses.  [copy.deepcopy] copies instances, lists
    and dictionaries, and returns a function as it is: the [program] slot
    of an agent of a copy designates the very function of the agent it
    was copied from, and what a call appends to [percepts] or writes into
    [model] is seen through both.  The store therefore keeps the function
    objects in a table of their own.  An instance is an environment with
    the objects it reaches and, for each object in the order of its heap,
    the function that its [program] slot designates, if any. *)
Record instance : Type := mkInstance {
  world : env;
  funs : list (option nat)
}.

Record store : Type := mkStore {
  instances : list instance;
  functions : list Program
}.

Definition set_instances (l : list instance) (s : store) : store :=
  mkStore l (functions s).

(** The objects [h] with the functions [fm] designates in their
    [program] slots. *)
Fixpoint link (fs : list Program) (fm : list (option nat)) (h : list obj)
  : list obj :=
  match h with
  | [] => []
  | o :: h' =>
      match fm with
      | Some f :: fm' => set_program (fs !! f) o :: link fs fm' h'
      | None :: fm' => o :: link fs fm' h'
      | [] => h
      end
  end.

Definition instance_at (s : store) (a : nat) : instance :=
  match instances s !! a with
  | Some i => i
  | None => mkInstance Environment.__init__ []
  end.

(** Dereferencing: the instance at [a] as the code sees it, every
    function with the state it has captured by now. *)
Definition view (s : store) (a : nat) : env :=
  let i := instance_at s a in
  set_heap (link (functions s) (funs i) (heap (world i))) (world i).

(** The objects [h] are put back.  A [program] slot that designated the
    function [f] holds its state as the calls have left it, which is
    what [f] now captures; a function in any other slot is one the table
    has not seen. *)
Fixpoint intern (fm : list (option nat)) (h : list obj) (fs : list Program)
  : list (option nat) * list Program :=
  match h with
  | [] => ([], fs)
  | o :: h' =>
      match program o with
      | Some p =>
          match fm with
          | Some f :: _ =>
              let (r, fs') := intern (tail fm) h' (<[f := p]> fs) in
              (Some f :: r, fs')
          | _ =>
              let (r, fs') := intern (tail fm) h' (fs ++ [p]) in
              (Some (length fs) :: r, fs')
          end
      | None =>
          let (r, fs') := intern (tail fm) h' fs in
          (None :: r, fs')
      end
  end.

(** The instance at [a] becomes [e]. *)
Definition put (a : nat) (e : env) (s : store) : store :=
  let (fm, fs) := intern (funs (instance_at s a)) (heap e) (functions s) in
  mkStore (<[a := mkInstance e fm]> (instances s)) fs.

(** A new instance [e], as a constructor returns it: none of its
    functions is in the table yet. *)
Definition new_instance (e : env) (s : store) : nat * store :=
  let (fm, fs) := intern [] (heap e) (functions s) in
  (length (instances s), mkStore (instances s ++ [mkInstance e fm]) fs).

(** [[EnvFactory() for i in range(n)]]: [EnvFactory] is a constructor
    (the word of the docstring), each call yields a new instance with
    objects of its own. *)
Fixpoint make_envs (EnvFactory : M env) (n : nat) (s : store)
  : M (list nat * store) :=
  match n with
  | O => ret ([], s)
  | S n' =>
      let* e := EnvFactory in
      let (a, s1) := new_instance e s in
      let* (l, s2) := make_envs EnvFactory n' s1 in
      ret (a :: l, s2)
  end.

Fixpoint memo_find (memo : list (nat * nat)) (a : nat) : option nat :=
  match memo with
  | [] => None
  | (k, v) :: memo' => if Nat.eqb k a then Some v else memo_find memo' a
  end.

(** [copy.deepcopy(envs)]: the elements are copied in order; an instance
    that occurs twice in the list is copied once (the memo).  The copy
    of an instance has objects of its own; the functions they designate
    are those of the original. *)
Fixpoint deepcopy_loop (memo : list (nat * nat)) (l : list nat) (s : store)
  : list nat * store :=
  match l with
  | [] => ([], s)
  | a :: l' =>
      match memo_find memo a with
      | Some a' =>
          let (r, s') := deepcopy_loop memo l' s in (a' :: r, s')
      | None =>
          let a' := length (instances s) in
          let (r, s') :=
            deepcopy_loop ((a, a') :: memo) l'
              (set_instances (instances s ++ [instance_at s a]) s) in
          (a' :: r, s')
      end
  end.

Definition deepcopy (envs : list nat) (s : store) : list nat * store :=
  deepcopy_loop [] envs s.

Section WithClass.

(** The class of the instances that [EnvFactory] constructs. *)
Variable C : EnvClass.

(** The body of the loop of [test_agent] on the instance at [a], which
    is mutated in place: [AgentFactory()] constructs a new agent, which
    is registered and run. *)
Definition test_one (AgentFactory : M obj) (steps : Z) (a : nat) (s : store)
  : M (Z * store) :=
  let* o := AgentFactory in
  let (agent, e1) := alloc o (view s a) in
  let* e2 := self_add_object C e1 agent None in
  let* e3 := Environment.run C steps e2 in
  let* p := lift (attr (performance (get e3 agent))) in
  ret (p, put a e3 s).

(** The loop of [test_agent]. *)
Fixpoint test_agent_loop (AgentFactory : M obj) (steps : Z)
    (envs : list nat) (total : Z) (s : store) : M (Z * store) :=
  match envs with
  | [] => ret (total, s)
  | a :: envs' =>
      let* (p, s1) := test_one AgentFactory steps a s in
      test_agent_loop AgentFactory steps envs' (total + p) s1
  end.

(** [float(total)/len(envs)]. *)
Definition mean (total : Z) (len : nat) : result spec_float :=
  let? x := py_float total in
  float_div_int x (Z.of_nat len).

(** [test_agent(AgentFactory, steps, envs)]. *)
Definition test_agent (AgentFactory : M obj) (steps : Z) (envs : list nat)
    (s : store) : M (spec_float * store) :=
  let* (total, s') := test_agent_loop AgentFactory steps envs 0 s in
  let* m := lift (mean total (length envs)) in
  ret (m, s').

(** The comprehension over [AgentFactories] in [compare_agents]. *)
Fixpoint compare_loop (steps : Z) (envs : list nat)
    (AgentFactories : list (M obj)) (s : store)
  : M (list (M obj * spec_float) * store) :=
  match AgentFactories with
  | [] => ret ([], s)
  | A :: rest =>
      let (copies, s1) := deepcopy envs s in
      let* (score, s2) := test_agent A steps copies s1 in
      let* (res, s3) := compare_loop steps envs rest s2 in
      ret ((A, score) :: res, s3)
  end.

(** [compare_agents(EnvFactory, AgentFactories, n=10, steps=1000)]. *)
Definition compare_agents (EnvFactory : M env)
    (AgentFactories : list (M obj)) (n : Z) (steps : Z) (s : store)
  : M (list (M obj * spec_float) * store) :=
  let* (envs, s1) := make_envs EnvFactory (Z.to_nat n) s in
  compare_loop steps envs AgentFactories s1.

End WithClass.

End Harness.

(** *** The harness as the specification describes it

    The [n] instances are values.  For each agent factory, in input
    order, and for each instance, one new agent of the factory is
    registered in the instance as it was constructed and run for [steps]
    ticks, and its final performance is recorded; the score of the
    factory is the average of its [n] final performances.  Nothing is
    shared between two evaluations but the random generator. *)
Module Fair.

Section WithClass.

Variable C : EnvClass.

Fixpoint build_envs (EnvFactory : M env) (n : nat) : M (list env) :=
  match n with
  | O => ret []
  | S n' =>
      let* e := EnvFactory in
      let* l := build_envs EnvFactory n' in
      ret (e :: l)
  end.

(** One new agent of the factory, registered in [e] and run for [steps]
    ticks: its final performance. *)
Definition final_performance (AgentFactory : M obj) (steps : Z) (e : env)
  : M Z :=
  let* o := AgentFactory in
  let (agent, e1) := alloc o e in
  let* e2 := self_add_object C e1 agent None in
  let* e3 := Environment.run C steps e2 in
  lift (attr (performance (get e3 agent))).

Fixpoint performances (AgentFactory : M obj) (steps : Z) (es : list env)
  : M (list Z) :=
  match es with
  | [] => ret []
  | e :: es' =>
      let* p := final_performance AgentFactory steps e in
      let* ps := performances AgentFactory steps es' in
      ret (p :: ps)
  end.

(** The average of the integers [ps], as a double. *)
Definition average (ps : list Z) : result spec_float :=
  let? x := py_float (fold_right Z.add 0 ps) in
  float_div_int x (Z.of_nat (length ps)).

Definition score_on (AgentFactory : M obj) (steps : Z) (es : list env)
  : M spec_float :=
  let* ps := performances AgentFactory steps es in
  lift (average ps).

Fixpoint scores_on (steps : Z) (es : list env)
    (AgentFactories : list (M obj)) : M (list (M obj * spec_float)) :=
  match AgentFactories with
  | [] => ret []
  | A :: rest =>
      let* s := score_on A steps es in
      let* res := scores_on steps es rest in
      ret ((A, s) :: res)
  end.

End WithClass.

(** The conditions of the statements, and the invariants of the store
    that their proofs maintain. *)

(** A program that keeps no state between calls: a call from the state
    it has captured leaves that state as it is. *)
Definition stateless (p : Program) : Prop :=
  forall percept_ g action st g',
    pcode p (pstate p) percept_ g = Ok ((action, st), g') -> st = pstate p.

(** No program of an object of [e] keeps state. *)
Definition quiet (e : env) : Prop :=
  Forall (fun o => forall p, program o = Some p -> stateless p) (heap e).

(** The first [L] objects of [e] have the programs they have in [e0]. *)
Definition kept (L : nat) (e0 e : env) : Prop :=
  forall i, (i < L)%nat -> program (get e i) = program (get e0 i).

(** The methods of the class [C] assign no [program] slot. *)
Definition keeps_programs (C : EnvClass) : Prop :=
  (forall e a loc g e' g',
     self_add_object C e a loc g = Ok (e', g') ->
     forall o, program (get e' o) = program (get e o)) /\
  (forall e a action g e' g',
     self_execute_action C e a action g = Ok (e', g') ->
     forall o, program (get e' o) = program (get e o)) /\
  (forall e g e' g',
     self_exogenous_change C e g = Ok (e', g') ->
     forall o, program (get e' o) = program (get e o)).

(** In the store [fs] of functions, the slot of [o] designates [f]. *)
Definition bound (fs : list Program) (o : obj) (f : option nat) : Prop :=
  match f with
  | Some c => exists p, fs !! c = Some p /\ program o = Some p
  | None => program o = None
  end.

(** The instance [i] is in step with the table [fs]: each [program] slot
    of its objects holds what its function has captured. *)
Definition coherent (fs : list Program) (i : Harness.instance) : Prop :=
  Forall2 (bound fs) (heap (Harness.world i)) (Harness.funs i).

End Fair.

(** ** Reference behaviours used in the statements *)

Module Reference.

Section Tick.

Variable C : EnvClass.

(** A program call whose percept is taken from the snapshot [snap]
    while the closure is read and updated in the current store [e]. *)
Definition call_program_on (snap e : env) (agent : ref) : M (pyval * env) :=
  let* p := lift (attr (program (get e agent))) in
  let* pc := lift (self_percept C snap agent) in
  let* (action, st) := pcode p (pstate p) pc in
  ret (action, upd agent (set_program (Some (mkProgram st (pcode p)))) e).

(** The first phase of a tick as the specification words it: every
    percept is taken from one snapshot [snap] of the environment, while
    the programs run one after the other. *)
Fixpoint collect_from_snapshot (snap e : env) (l : list ref)
  : M (list pyval * env) :=
  match l with
  | [] => ret ([], e)
  | agent :: l' =>
      let* (action, e1) := call_program_on snap e agent in
      let* (actions, e2) := collect_from_snapshot snap e1 l' in
      ret (action :: actions, e2)
  end.

(** A tick that perceives the pre-tick world only. *)
Definition step_snapshot (e : env) : M env :=
  if negb (Environment.is_done e) then
    let* (actions, e1) := collect_from_snapshot e e (agents e) in
    let* e2 := Environment.apply_actions C e1 (combine (agents e1) actions) in
    self_exogenous_change C e2
  else ret e.

(** For contrast, a tick in which each agent perceives, decides and acts
    before the next agent perceives. *)
Fixpoint interleave (e : env) (l : list ref) : M env :=
  match l with
  | [] => ret e
  | agent :: l' =>
      let* (action, e1) := Environment.call_program C e agent in
      let* e2 := self_execute_action C e1 agent action in
      interleave e2 l'
  end.

Definition step_interleaved (e : env) : M env :=
  if negb (Environment.is_done e) then
    let* e1 := interleave e (agents e) in
    self_exogenous_change C e1
  else ret e.

End Tick.

(** One agent performing the successive actions [l]. *)
Fixpoint perform (exec : env -> ref -> pyval -> result env) (e : env)
    (agent : ref) (l : list pyval) : result env :=
  match l with
  | [] => Ok e
  | action :: l' =>
      let? e1 := exec e agent action in
      perform exec e1 agent l'
  end.

(** The sublist of [objects] made of the instances of [Agent], in the
    same order: what [agents] is meant to be. *)
Definition agents_of_objects (e : env) : list ref :=
  List.filter (fun r => isinstance (get e r) Agent) (objects e).

(** What one [Suck] is worth in the grid vacuum world: [100 - 1] on a
    cell that holds Dirt, [-1] elsewhere. *)
Definition suck_gain (dirty : bool) : Z := if dirty then 99 else -1.

(** What the body of [turn_heading] computes once its parameters are
    bound as its docstring intends: a rotation in the cycle of the four
    headings, to the left for [inc = +1], to the right for [inc = -1]. *)
Definition turned (inc : Z) (h : pyval) : result pyval :=
  turn_heading_body h (VInt inc) headings_default.

End Reference.

(** ** Sample worlds *)

Module Sample.

(** A generator that always draws zero, and one that counts. *)
Definition zeros : RNG := fun _ => O.
Definition counting : RNG := fun n => n.

Definition forward_program : Program :=
  mkProgram VNone (fun st _ => ret (VStr "Forward", st)).

Definition west : pyval := VTuple [VInt (-1); VInt 0].

(** [e = XYEnvironment(); e.add_object(Wall(), (0, 1));
    a = Agent(); e.add_object(a); a.heading = (-1, 0)]: the agent stands
    at (1, 1) and faces the wall. *)
Definition facing_wall : result (env * ref) :=
  let e := XYEnvironment.__init__ 10 10 in
  let (w, e) := alloc (bare Wall) e in
  match XYEnvironment.add_object e w (Some (VTuple [VInt 0; VInt 1])) zeros with
  | Ok (e, _) =>
      let (a, e) := alloc (Agent__init__ Agent forward_program) e in
      match XYEnvironment.add_object e a None zeros with
      | Ok (e, _) => Ok (upd a (set_heading (Some west)) e, a)
      | Raise x => Raise x
      end
  | Raise x => Raise x
  end.

(** The world so built. *)
Definition facing_wall_env : env :=
  match facing_wall with
  | Ok (e, _) => e
  | Raise _ => Environment.__init__
  end.

Definition facing_wall_agent : ref := 1%nat.

(** A two-location world with both locations Dirty. *)
Definition both_dirty : env :=
  set_status [(loc_A, VStr "Dirty"); (loc_B, VStr "Dirty")]
             Environment.__init__.

(** [a = ReflexVacuumAgent(); e.add_object(a, loc)] on [both_dirty]. *)
Definition with_agent_at (e : env) (loc : pyval) : env * ref :=
  let (a, e1) := alloc new_ReflexVacuumAgent e in
  match self_add_object TrivialVacuumEnvironment.class e1 a (Some loc) zeros with
  | Ok (e2, _) => (e2, a)
  | Raise _ => (e1, a)
  end.

Definition dirty_agent_at_A : env := fst (with_agent_at both_dirty loc_A).
Definition dirty_agent_at_B : env := fst (with_agent_at both_dirty loc_B).

(** Two reflex agents registered at location A of [both_dirty]. *)
Definition two_agents_at_A : env :=
  fst (with_agent_at dirty_agent_at_A loc_A).

(** The table of an agent that answers Suck, Right, Suck to the percepts
    it meets when it starts at [loc] in [both_dirty]. *)
Definition script_table (loc : pyval) : list (pyval * pyval) :=
  let p1 := VTuple [loc; VStr "Dirty"] in
  let p2 := VTuple [loc; VStr "Clean"] in
  let p3 := VTuple [loc_B; if py_eq loc loc_B then VStr "Clean"
                           else VStr "Dirty"] in
  [(VTuple [p1], VStr "Suck");
   (VTuple [p1; p2], VStr "Right");
   (VTuple [p1; p2; p3], VStr "Suck")].

(** [a = TableDrivenAgent(table); e.add_object(a, loc)] on
    [both_dirty]. *)
Definition scripted_at (loc : pyval) : env :=
  let (a, e1) := alloc (new_TableDrivenAgent (script_table loc)) both_dirty in
  match self_add_object TrivialVacuumEnvironment.class e1 a (Some loc) zeros with
  | Ok (e2, _) => e2
  | Raise _ => e1
  end.

(** The same world after [a.alive = False] on its only agent. *)
Definition dead_agent_at_A : env :=
  upd 0%nat (set_alive (Some false)) dirty_agent_at_A.

Definition suck_program : Program :=
  mkProgram VNone (fun st _ => ret (VStr "Suck", st)).

(** [e = VacuumEnvironment(3, 3); e.add_object(Dirt(), (1, 1));
    a = Agent(); e.add_object(a)]: the agent stands on the Dirt. *)
Definition on_dirt : result (env * ref) :=
  match VacuumEnvironment.__init__ 3 3 zeros with
  | Ok (e, _) =>
      let (d, e) := alloc (bare Dirt) e in
      match XYEnvironment.add_object e d (Some (VTuple [VInt 1; VInt 1])) zeros with
      | Ok (e, _) =>
          let (a, e) := alloc (Agent__init__ Agent suck_program) e in
          match XYEnvironment.add_object e a None zeros with
          | Ok (e, _) => Ok (e, a)
          | Raise x => Raise x
          end
      | Raise x => Raise x
      end
  | Raise x => Raise x
  end.

Definition on_dirt_env : env :=
  match on_dirt with
  | Ok (e, _) => e
  | Raise _ => Environment.__init__
  end.

Definition on_dirt_agent : ref := 13%nat.

(** [... e.move_to(a, (0, 1))]: a wall stands at (0, 1), the agent stays
    on the Dirt at (1, 1) with its flag raised. *)
Definition bumped_on_dirt_env : env :=
  match XYEnvironment.move_to on_dirt_env on_dirt_agent
          (VTuple [VInt 0; VInt 1]) with
  | Ok e => e
  | Raise _ => on_dirt_env
  end.

End Sample.

(** ** Further parts of the module *)

(** *** The canvas arithmetic of [EnvGUI]

    Pixel coordinates ([event.x], [event.y]), cell indices and the cell
    width ([cellwidth=50]) are integers. *)

Module EnvGUI.

(** [a / b] on integers, as Python 2 computes it: the floor of the
    quotient, [ZeroDivisionError] for a zero divisor. *)
Definition int_div (a b : Z) : result Z :=
  if b =? 0 then Raise ZeroDivisionError else Ok (a / b).

(** [xy_cell(self, (x, y))]: [w = self.cellwidth; return x / w, y / w]. *)
Definition xy_cell (cellwidth : Z) (xy : Z * Z) : result (Z * Z) :=
  let w := cellwidth in
  let? row := int_div (fst xy) w in
  let? column := int_div (snd xy) w in
  Ok (row, column).

(** [cell_topleft_xy(self, (row, column))]:
    [w = self.cellwidth; return w * row, w * column]. *)
Definition cell_topleft_xy (cellwidth : Z) (cell : Z * Z) : Z * Z :=
  let w := cellwidth in
  (w * fst cell, w * snd cell).

End EnvGUI.

(** *** Generator states *)

(** The state of the generator whose next draw is [i] and which then
    continues as [g]. *)
Definition next_draw (i : nat) (g : RNG) : RNG :=
  fun n => match n with O => i | S n' => g n' end.

(** *** Two-location worlds *)

Module TwoLocations.

(** The world in which A has status [sa] and B has status [sb], before
    any registration. *)
Definition world (sa sb : pyval) : env :=
  set_status [(loc_A, sa); (loc_B, sb)] Environment.__init__.

(** A status value the constructor can draw. *)
Definition is_status (s : pyval) : Prop := s = VStr "Clean" \/ s = VStr "Dirty".

(** One of the two locations. *)
Definition is_location (l : pyval) : Prop := l = loc_A \/ l = loc_B.

(** What the constructor and [add_object(agent)] establish: the
    dictionary has the two keys, and every agent stands at A or B and has
    a performance. *)
Definition well_formed (e : env) : Prop :=
  (exists sa sb, status e = [(loc_A, sa); (loc_B, sb)]) /\
  forall a, In a (agents e) ->
    (exists l, location (get e a) = Some l /\ is_location l) /\
    (exists p, performance (get e a) = Some p).

End TwoLocations.

(** An object in the state required of the agents of a well-formed
    two-location world. *)
Definition agent_ok (o : obj) : Prop :=
  (exists l, location o = Some l /\ TwoLocations.is_location l) /\
  (exists p, performance o = Some p).

(** *** Locations on the grid *)

Module Grid.

(** The object [o] has a location. *)
Definition located (e : env) (o : ref) : Prop :=
  exists l, location (get e o) = Some l.

(** The object [o] stands at [loc], as [objects_at] tests it. *)
Definition stands_at (e : env) (loc : pyval) (o : ref) : bool :=
  match location (get e o) with
  | Some l => py_eq l loc
  | None => false
  end.

(** The cell (x, y). *)
Definition cell (x y : Z) : pyval := VTuple [VInt x; VInt y].

(** The cells on which [add_walls] puts a wall, for a grid of width [w]
    and height [h]. *)
Definition on_border (w h x y : Z) : bool :=
  ((0 <=? x) && (x <? w) && ((y =? 0) || (y =? h - 1))) ||
  ((0 <=? y) && (y <? h) && ((x =? 0) || (x =? w - 1))).

End Grid.

(** A grid that holds walls only, standing exactly on the cells of the
    list [L]: no agent, every registered object exists, is a [Wall] and
    stands on a cell of [L], and every cell of [L] carries one. *)
Definition walled (e : env) (L : list pyval) : Prop :=
  agents e = [] /\
  Forall (fun o => (o < length (heap e))%nat) (objects e) /\
  (forall o, In o (objects e) ->
     cls (get e o) = Wall /\ exists l, In l L /\ location (get e o) = Some l) /\
  (forall l, In l L -> exists o, In o (objects e) /\ location (get e o) = Some l).

(** *** Agents of the two-location world *)

(** [TableDrivenVacuumAgent()]: the eight entries of its table. *)
Definition vacuum_table : list (pyval * pyval) :=
  let ac := VTuple [loc_A; VStr "Clean"] in
  let ad := VTuple [loc_A; VStr "Dirty"] in
  let bc := VTuple [loc_B; VStr "Clean"] in
  let bd := VTuple [loc_B; VStr "Dirty"] in
  [(VTuple [ac], VStr "Right");
   (VTuple [ad], VStr "Suck");
   (VTuple [bc], VStr "Left");
   (VTuple [bd], VStr "Suck");
   (VTuple [ac; ac], VStr "Right");
   (VTuple [ac; ad], VStr "Suck");
   (VTuple [ac; ac; ac], VStr "Right");
   (VTuple [ac; ac; ad], VStr "Suck")].

Definition new_TableDrivenVacuumAgent : obj :=
  new_TableDrivenAgent vacuum_table.

(** One for a Dirty status, zero for any other. *)
Definition dirt (s : pyval) : Z :=
  if py_eq s (VStr "Dirty") then 1 else 0.

(** The two-location world with the statuses [sa] and [sb] that holds
    one [ReflexVacuumAgent], standing at [l] with performance [p]. *)
Definition reflex_at (l : pyval) (p : Z) (sa sb : pyval) : env :=
  mkEnv [set_performance (Some p)
           (set_location (Some l) new_ReflexVacuumAgent)]
        [0%nat] [0%nat] 0 0 [(loc_A, sa); (loc_B, sb)].

(** * Properties *)

(** ** The object store *)

Lemma get_lookup (e : env) (r : ref) (o : obj) :
  heap e !! r = Some o -> get e r = o.
Proof. intros H. unfold get. now rewrite H. Qed.

Lemma attr_get_valid {A} (slot : obj -> option A) (e : env) (r : ref) (v : A) :
  slot (bare Object) = None ->
  slot (get e r) = Some v -> heap e !! r = Some (get e r).
Proof.
  intros Hb H. unfold get in *. destruct (heap e !! r) as [o|]; [reflexivity|].
  rewrite Hb in H. discriminate.
Qed.

Lemma get_upd_eq (e : env) (r : ref) (f : obj -> obj) :
  heap e !! r = Some (get e r) -> get (upd r f e) r = f (get e r).
Proof.
  intros H. unfold get at 1. unfold upd, set_heap. cbn [heap].
  rewrite list_lookup_alter_eq. now rewrite H.
Qed.

Lemma upd_valid (e : env) (r r' : ref) (f : obj -> obj) :
  is_Some (heap e !! r') -> is_Some (heap (upd r f e) !! r').
Proof.
  intros [o Ho]. unfold upd, set_heap. cbn [heap].
  destruct (decide (r = r')) as [->|Hne].
  - rewrite list_lookup_alter_eq, Ho. eauto.
  - rewrite list_lookup_alter_ne by assumption. eauto.
Qed.

Lemma heading_valid (e : env) (r : ref) (h : pyval) :
  heading (get e r) = Some h -> heap e !! r = Some (get e r).
Proof. now apply (attr_get_valid heading). Qed.

Lemma performance_valid (e : env) (r : ref) (p : Z) :
  performance (get e r) = Some p -> heap e !! r = Some (get e r).
Proof. now apply (attr_get_valid performance). Qed.

Lemma upd_keeps (e : env) (r r' : ref) (f : obj -> obj) :
  heap e !! r' = Some (get e r') ->
  heap (upd r f e) !! r' = Some (get (upd r f e) r').
Proof.
  intros H. destruct (upd_valid e r r' f) as [o Ho]; [eauto|].
  unfold get. now rewrite Ho.
Qed.

Lemma get_upd (e : env) (r o : ref) (f : obj -> obj) :
  get (upd r f e) o
  = if decide (r = o)
    then match heap e !! o with Some x => f x | None => bare Object end
    else get e o.
Proof.
  unfold get, upd, set_heap. cbn [heap].
  destruct (decide (r = o)) as [->|Hne].
  - rewrite list_lookup_alter_eq. now destruct (heap e !! o).
  - now rewrite list_lookup_alter_ne.
Qed.

(** An update that leaves a slot alone is invisible through that slot. *)
Lemma get_upd_slot {A} (slot : obj -> A) (e : env) (r o : ref)
    (f : obj -> obj) :
  (forall x, slot (f x) = slot x) ->
  slot (get (upd r f e) o) = slot (get e o).
Proof.
  intros Hf. rewrite get_upd. destruct (decide (r = o)); [|reflexivity].
  unfold get. destruct (heap e !! o); [apply Hf|reflexivity].
Qed.

Lemma upd_upd (e : env) (r : ref) (f g : obj -> obj) :
  upd r f (upd r g e) = upd r (fun o => f (g o)) e.
Proof.
  unfold upd, set_heap. cbn [heap objects agents width height status].
  f_equal. apply (list_alter_alter_eq f g).
Qed.

Lemma upd_ext (e : env) (r : ref) (f g : obj -> obj) :
  (forall o, f o = g o) -> upd r f e = upd r g e.
Proof.
  intros H. unfold upd, set_heap. f_equal.
  apply list_alter_ext; [|reflexivity]. intros; apply H.
Qed.

Lemma upd_id (e : env) (r : ref) (f : obj -> obj) :
  f (get e r) = get e r -> heap e !! r = Some (get e r) -> upd r f e = e.
Proof.
  intros Hf Hv. unfold upd, set_heap. destruct e as [hp ob ag w ht st].
  cbn [heap objects agents width height status] in *. f_equal.
  apply list_eq. intros i. destruct (decide (r = i)) as [->|Hne].
  - rewrite list_lookup_alter_eq, Hv. cbn. now rewrite Hf.
  - now rewrite list_lookup_alter_ne.
Qed.

Lemma objects_at_loop_upd (e : env) (r : ref) (f : obj -> obj)
    (loc : pyval) (l : list ref) :
  (forall x, location (f x) = location x) ->
  XYEnvironment.objects_at_loop (upd r f e) loc l
  = XYEnvironment.objects_at_loop e loc l.
Proof.
  intros Hf. induction l as [|o l IH]; [reflexivity|].
  cbn [XYEnvironment.objects_at_loop].
  rewrite (get_upd_slot location) by assumption. now rewrite IH.
Qed.

(** [find_at] reads the class and the location of the objects only. *)
Lemma find_at_upd (e : env) (r : ref) (f : obj -> obj) (c : pyclass)
    (loc : pyval) :
  (forall x, location (f x) = location x) ->
  (forall x, cls (f x) = cls x) ->
  XYEnvironment.find_at (upd r f e) c loc = XYEnvironment.find_at e c loc.
Proof.
  intros Hl Hc. unfold XYEnvironment.find_at, XYEnvironment.objects_at.
  change (objects (upd r f e)) with (objects e).
  rewrite objects_at_loop_upd by assumption.
  destruct (XYEnvironment.objects_at_loop e loc (objects e)) as [l|x];
    [|reflexivity].
  cbn [rbind]. f_equal. induction l as [|o l IH]; [reflexivity|].
  cbn [utils.some]. unfold isinstance at 1 3.
  rewrite (get_upd_slot cls) by assumption. now rewrite IH.
Qed.

(** ** The monad *)

Lemma bind_ok {A B} (c : M A) (k : A -> M B) (g g' : RNG) (a : A) :
  c g = Ok (a, g') -> bind c k g = k a g'.
Proof. intros H. unfold bind. now rewrite H. Qed.

Lemma bind_raise {A B} (c : M A) (k : A -> M B) (g : RNG) (x : exn) :
  c g = Raise x -> bind c k g = Raise x.
Proof. intros H. unfold bind. now rewrite H. Qed.

(** Case analysis on the outcome of the computation [c] run from [g]. *)
Ltac bind_cases c g H :=
  destruct (c g) as [[? ?]|?] eqn:H;
  [ rewrite ?(bind_ok c _ g _ _ H) | rewrite ?(bind_raise c _ g _ H) ].

(** ** The percept snapshot (C1) *)

(** The percepts of the concrete classes read locations, classes, flags
    and the status dictionary; none reads the state captured by a
    program. *)
Lemma XY_percept_frame (e : env) (r : ref) (p : option Program) (a : ref) :
  self_percept XYEnvironment.class (upd r (set_program p) e) a
  = self_percept XYEnvironment.class e a.
Proof. reflexivity. Qed.

Lemma Trivial_percept_frame (e : env) (r : ref) (p : option Program)
    (a : ref) :
  self_percept TrivialVacuumEnvironment.class (upd r (set_program p) e) a
  = self_percept TrivialVacuumEnvironment.class e a.
Proof.
  cbn [self_percept TrivialVacuumEnvironment.class].
  unfold TrivialVacuumEnvironment.percept.
  now rewrite (get_upd_slot location).
Qed.

Lemma Vacuum_percept_frame (e : env) (r : ref) (p : option Program)
    (a : ref) :
  self_percept VacuumEnvironment.class (upd r (set_program p) e) a
  = self_percept VacuumEnvironment.class e a.
Proof.
  cbn [self_percept VacuumEnvironment.class].
  unfold VacuumEnvironment.percept.
  rewrite (get_upd_slot location), (get_upd_slot bump) by reflexivity.
  destruct (attr (location (get e a))) as [loc|x]; [|reflexivity].
  cbn [rbind]. now rewrite find_at_upd.
Qed.

Section Snapshot.

Variable C : EnvClass.

(** Running a program changes nothing that [percept] reads. *)
Hypothesis percept_frame :
  forall e r p a,
    self_percept C (upd r (set_program p) e) a = self_percept C e a.

Lemma call_program_store (e e1 : env) (agent : ref) (action : pyval)
    (g g1 : RNG) :
  Environment.call_program C e agent g = Ok ((action, e1), g1) ->
  exists p, e1 = upd agent (set_program p) e.
Proof.
  unfold Environment.call_program.
  bind_cases (lift (attr (program (get e agent)))) g H1; [|discriminate].
  bind_cases (lift (self_percept C e agent)) r H2; [|discriminate].
  bind_cases (pcode p (pstate p) p0) r0 H3; [|discriminate].
  destruct p1 as [act st]. intros [= _ <- _]. eauto.
Qed.

Lemma call_program_snapshot (snap e : env) (agent : ref) (g : RNG) :
  self_percept C e agent = self_percept C snap agent ->
  Environment.call_program C e agent g
  = Reference.call_program_on C snap e agent g.
Proof.
  intros H. unfold Environment.call_program, Reference.call_program_on.
  now rewrite H.
Qed.

Lemma collect_actions_snapshot (snap e : env) (l : list ref) (g : RNG) :
  (forall a, self_percept C e a = self_percept C snap a) ->
  Environment.collect_actions C e l g
  = Reference.collect_from_snapshot C snap e l g.
Proof.
  revert e g. induction l as [|agent l IH]; intros e g Hsame;
    [reflexivity|].
  cbn [Environment.collect_actions Reference.collect_from_snapshot].
  pose proof (call_program_snapshot snap e agent g (Hsame agent)) as Hc.
  bind_cases (Environment.call_program C e agent) g H1.
  - symmetry in Hc. rewrite (bind_ok _ _ _ _ _ Hc).
    destruct p as [action e1].
    destruct (call_program_store _ _ _ _ _ _ H1) as [p ->].
    unfold bind. rewrite IH; [reflexivity|].
    intros a. now rewrite percept_frame.
  - symmetry in Hc. now rewrite (bind_raise _ _ _ _ Hc).
Qed.

Lemma step_snapshot_eq (e : env) (g : RNG) :
  Environment.step C e g = Reference.step_snapshot C e g.
Proof.
  unfold Environment.step, Reference.step_snapshot.
  destruct (negb (Environment.is_done e)); [|reflexivity].
  pose proof (collect_actions_snapshot e e (agents e) g (fun a => eq_refl))
    as Hc.
  bind_cases (Environment.collect_actions C e (agents e)) g H1.
  - symmetry in Hc. now rewrite (bind_ok _ _ _ _ _ Hc).
  - symmetry in Hc. now rewrite (bind_raise _ _ _ _ Hc).
Qed.

End Snapshot.

(** C1.  In any environment whose percept does not read what the
    programs have captured, a call of [step] is the tick that computes
    every percept from one snapshot, the environment as it was before the
    tick: all percepts and actions are collected, and only then is the
    first action executed.  No percept of the tick sees the action of an
    agent registered earlier. *)
Theorem step_percept_snapshot (C : EnvClass) :
  (forall e r p a,
     self_percept C (upd r (set_program p) e) a = self_percept C e a) ->
  forall e g, Environment.step C e g = Reference.step_snapshot C e g.
Proof. intros H e g. now apply step_snapshot_eq. Qed.

Lemma step_percept_snapshot_witness :
  Environment.step TrivialVacuumEnvironment.class Sample.two_agents_at_A
    Sample.zeros
  = Reference.step_snapshot TrivialVacuumEnvironment.class
      Sample.two_agents_at_A Sample.zeros.
Proof.
  apply (step_percept_snapshot TrivialVacuumEnvironment.class
           Trivial_percept_frame).
Defined.

(** Two reflex agents stand at A, which is Dirty.  In one [step] both
    perceive Dirty and both answer Suck: the first earns the ten points,
    the second sucks a location that is already Clean.  Had the second
    agent perceived after the action of the first, it would have moved
    Right and paid one point. *)
Example snapshot_against_interleaving :
  match Environment.step TrivialVacuumEnvironment.class
          Sample.two_agents_at_A Sample.zeros,
        Reference.step_interleaved TrivialVacuumEnvironment.class
          Sample.two_agents_at_A Sample.zeros with
  | Ok (e1, _), Ok (e2, _) =>
      performance (get e1 0%nat) = Some 10 /\
      performance (get e1 1%nat) = Some 0 /\
      location (get e1 1%nat) = Some loc_A /\
      performance (get e2 1%nat) = Some (-1) /\
      location (get e2 1%nat) = Some loc_B
  | _, _ => False
  end.
Proof. vm_compute. repeat split. Qed.

(** ** Moving and bumping (C2) *)

(** [move_to] on a blocked cell: the flag is raised, nothing moves. *)
Lemma move_to_blocked (e : env) (object : ref) (dest : pyval) :
  XYEnvironment.find_at e Obstacle dest = Ok true ->
  XYEnvironment.move_to e object dest
  = Ok (upd object (set_bump (Some true)) e).
Proof. intros H. unfold XYEnvironment.move_to. now rewrite H. Qed.

Lemma move_to_free (e : env) (object : ref) (dest : pyval) :
  XYEnvironment.find_at e Obstacle dest = Ok false ->
  XYEnvironment.move_to e object dest
  = Ok (upd object (set_location (Some dest))
          (upd object (set_bump (Some false)) e)).
Proof. intros H. unfold XYEnvironment.move_to. now rewrite H. Qed.

Lemma forward_blocked (e : env) (agent : ref) (h loc dest : pyval) :
  heading (get e agent) = Some h ->
  location (get e agent) = Some loc ->
  utils.vector_add h loc = Ok dest ->
  XYEnvironment.find_at e Obstacle dest = Ok true ->
  XYEnvironment.execute_action e agent (VStr "Forward")
  = Ok (upd agent (set_bump (Some false)) e).
Proof.
  intros Hh Hl Hd Hf. unfold XYEnvironment.execute_action.
  change (py_eq (VStr "Forward") (VStr "TurnRight")) with false.
  change (py_eq (VStr "Forward") (VStr "TurnLeft")) with false.
  change (py_eq (VStr "Forward") (VStr "Forward")) with true.
  cbv iota. rewrite Hh, Hl. cbn [attr rbind]. rewrite Hd. cbn [rbind].
  rewrite move_to_blocked by assumption. cbn [rbind].
  rewrite upd_upd. reflexivity.
Qed.

(** The part of the contract the code does meet: a [Forward] into a cell
    without obstacle moves the agent there and leaves the flag [False]. *)
Lemma forward_into_free_cell (e : env) (agent : ref) (h loc dest : pyval) :
  heading (get e agent) = Some h ->
  location (get e agent) = Some loc ->
  utils.vector_add h loc = Ok dest ->
  XYEnvironment.find_at e Obstacle dest = Ok false ->
  exists e', XYEnvironment.execute_action e agent (VStr "Forward") = Ok e' /\
             location (get e' agent) = Some dest /\
             bump (get e' agent) = Some false.
Proof.
  intros Hh Hl Hd Hf. unfold XYEnvironment.execute_action.
  change (py_eq (VStr "Forward") (VStr "TurnRight")) with false.
  change (py_eq (VStr "Forward") (VStr "TurnLeft")) with false.
  change (py_eq (VStr "Forward") (VStr "Forward")) with true.
  cbv iota. rewrite Hh, Hl. cbn [attr rbind]. rewrite Hd. cbn [rbind].
  rewrite move_to_free by assumption. cbn [rbind].
  eexists. split; [reflexivity|].
  pose proof (heading_valid _ _ _ Hh) as Hv.
  rewrite !upd_upd, get_upd_eq by assumption. split; reflexivity.
Qed.

(** C2 (observed behaviour).  An agent faces an obstacle: the cell at
    [location + heading] holds an [Obstacle].  [Forward] completes, the
    location is unchanged, and the bump flag is [False]: [move_to] sets
    it, and the last statement of [execute_action] clears it again.  The
    same holds for every further attempt. *)
Theorem forward_into_obstacle_clears_bump
    (e : env) (agent : ref) (h loc dest : pyval) :
  heading (get e agent) = Some h ->
  location (get e agent) = Some loc ->
  utils.vector_add h loc = Ok dest ->
  XYEnvironment.find_at e Obstacle dest = Ok true ->
  let e' := upd agent (set_bump (Some false)) e in
  XYEnvironment.execute_action e agent (VStr "Forward") = Ok e' /\
  bump (get e' agent) = Some false /\
  location (get e' agent) = Some loc /\
  XYEnvironment.execute_action e' agent (VStr "Forward") = Ok e'.
Proof.
  intros Hh Hl Hd Hf e'.
  pose proof (heading_valid _ _ _ Hh) as Hv.
  split; [now apply (forward_blocked e agent h loc dest)|].
  assert (Hg : get e' agent = set_bump (Some false) (get e agent))
    by now apply get_upd_eq.
  split; [now rewrite Hg|]. split; [now rewrite Hg|].
  rewrite (forward_blocked e' agent h loc dest).
  - unfold e'. now rewrite upd_upd.
  - now rewrite Hg.
  - now rewrite Hg.
  - assumption.
  - unfold e'. now rewrite find_at_upd.
Qed.

Lemma forward_into_obstacle_clears_bump_witness :
  let e := Sample.facing_wall_env in
  let a := Sample.facing_wall_agent in
  let e' := upd a (set_bump (Some false)) e in
  XYEnvironment.execute_action e a (VStr "Forward") = Ok e' /\
  bump (get e' a) = Some false /\
  location (get e' a) = Some (VTuple [VInt 1; VInt 1]) /\
  XYEnvironment.execute_action e' a (VStr "Forward") = Ok e'.
Proof.
  apply (forward_into_obstacle_clears_bump Sample.facing_wall_env
           Sample.facing_wall_agent Sample.west (VTuple [VInt 1; VInt 1])
           (VTuple [VInt 0; VInt 1])); reflexivity.
Defined.

(** Whatever the action, a call of [execute_action] that completes
    leaves the flag [False]. *)
Lemma execute_action_bump_false (e e' : env) (agent : ref) (action : pyval) :
  is_Some (heap e !! agent) ->
  XYEnvironment.execute_action e agent action = Ok e' ->
  bump (get e' agent) = Some false.
Proof.
  intros Hv. unfold XYEnvironment.execute_action.
  match goal with
  | |- rbind ?c _ = _ -> _ => destruct c as [e1|x] eqn:He1
  end; [|discriminate].
  cbn [rbind]. intros [= <-].
  assert (Hv1 : is_Some (heap e1 !! agent)).
  { revert He1.
    repeat match goal with
    | |- (if ?b then _ else _) = _ -> _ => destruct b
    | |- rbind ?c _ = _ -> _ => destruct c; cbn [rbind]; [|discriminate]
    | |- match ?l with [] => _ | _ :: _ => _ end = _ -> _ => destruct l
    | |- Raise _ = Ok _ -> _ => discriminate
    | |- Ok _ = Ok _ -> _ => intros [= <-]
    | |- XYEnvironment.move_to _ _ _ = _ -> _ => unfold XYEnvironment.move_to
    end; repeat apply upd_valid; assumption. }
  destruct Hv1 as [o Ho]. rewrite get_upd, decide_True by reflexivity.
  now rewrite Ho.
Qed.

(** ** Turning (C3) *)

Import Reference.

(** Bound as its docstring intends, [turn_heading] is a rotation of
    order four: to the right East, South, West, North and East again, to
    the left the other way round. *)
Lemma turn_heading_body_directions :
  let east := VTuple [VInt 1; VInt 0] in
  let north := VTuple [VInt 0; VInt 1] in
  let west := VTuple [VInt (-1); VInt 0] in
  let south := VTuple [VInt 0; VInt (-1)] in
  turned (-1) east = Ok south /\ turned (-1) south = Ok west /\
  turned (-1) west = Ok north /\ turned (-1) north = Ok east /\
  turned 1 east = Ok north /\ turned 1 north = Ok west /\
  turned 1 west = Ok south /\ turned 1 south = Ok east.
Proof. repeat split. Qed.

Lemma turn_heading_body_cycle (h : pyval) :
  In h headings_default ->
  (let? a := turned 1 h in let? b := turned 1 a in
   let? c := turned 1 b in turned 1 c) = Ok h /\
  (let? a := turned (-1) h in let? b := turned (-1) a in
   let? c := turned (-1) b in turned (-1) c) = Ok h /\
  (let? a := turned 1 h in let? b := turned 1 a in
   let? c := turned (-1) b in turned (-1) c) = Ok h.
Proof.
  intros Hin. simpl in Hin.
  destruct Hin as [<-|[<-|[<-|[<-|[]]]]]; repeat split; reflexivity.
Qed.

Lemma turn_heading_two_arguments (a b : pyval) :
  turn_heading [a; b] = Raise TypeError.
Proof. reflexivity. Qed.

(** With four arguments the last one is searched and indexed as it is: a
    string is, character by character, and an integer has no [index]. *)
Example turn_heading_in_a_string :
  turn_heading [VNone; VStr "a"; VInt 2; VStr "abc"] = Ok (VStr "c") /\
  turn_heading [VNone; VStr "c"; VInt 1; VStr "abc"] = Ok (VStr "a") /\
  turn_heading [VNone; VStr "d"; VInt 1; VStr "abc"] = Raise ValueError /\
  turn_heading [VNone; Sample.west; VInt 1; VStr "abc"] = Raise TypeError /\
  turn_heading [VNone; Sample.west; VInt 1; VInt 4] = Raise AttributeError.
Proof. repeat split. Qed.

(** C3 (observed behaviour).  [execute_action] calls
    [turn_heading(agent.heading, -1)] and [turn_heading(agent.heading, +1)]:
    two arguments for a function whose parameters are [self], [heading]
    and [inc].  For every agent that has a heading, a [TurnLeft] or a
    [TurnRight] raises [TypeError], so no heading is ever rotated. *)
Theorem turn_actions_raise (e : env) (agent : ref) (h : pyval) :
  heading (get e agent) = Some h ->
  XYEnvironment.execute_action e agent (VStr "TurnLeft") = Raise TypeError /\
  XYEnvironment.execute_action e agent (VStr "TurnRight") = Raise TypeError.
Proof.
  intros H. unfold XYEnvironment.execute_action. rewrite H. split; reflexivity.
Qed.

Lemma turn_actions_raise_witness :
  heading (get Sample.facing_wall_env Sample.facing_wall_agent)
    = Some Sample.west /\
  XYEnvironment.execute_action Sample.facing_wall_env
    Sample.facing_wall_agent (VStr "TurnLeft") = Raise TypeError /\
  XYEnvironment.execute_action Sample.facing_wall_env
    Sample.facing_wall_agent (VStr "TurnRight") = Raise TypeError.
Proof.
  split; [reflexivity|].
  apply (turn_actions_raise Sample.facing_wall_env Sample.facing_wall_agent
           Sample.west).
  reflexivity.
Defined.

(** ** Registration (C4) *)

Ltac case_isinstance :=
  match goal with
  | |- context [isinstance ?o ?c] => destruct (isinstance o c)
  end.

(** The base class appends the object once. *)
Lemma Environment_add_object_objects
    (dl : env -> ref -> M pyval) (e e' : env) (object : ref)
    (location_ : option pyval) (g g' : RNG) :
  Environment.add_object dl e object location_ g = Ok (e', g') ->
  objects e' = objects e ++ [object] /\
  agents e' = agents e ++
              (if isinstance (get e object) Agent then [object] else []).
Proof.
  unfold Environment.add_object, bind.
  destruct (py_or _ _ g) as [[l g1]|x]; [|discriminate].
  set (e1 := set_objects _ _).
  assert (Hcls : isinstance (get e1 object) Agent
                 = isinstance (get e object) Agent).
  { unfold e1, get, upd, set_objects, set_heap. cbn [heap].
    destruct (decide (object < length (heap e))%nat) as [Hlt|Hge].
    - destruct (lookup_lt_is_Some_2 _ _ Hlt) as [o Ho].
      rewrite list_lookup_alter_eq, Ho. reflexivity.
    - rewrite list_lookup_alter_eq.
      rewrite (lookup_ge_None_2 (heap e) object) by lia. reflexivity. }
  rewrite Hcls. destruct (isinstance (get e object) Agent);
    unfold ret; intros [= <- <-]; split; try reflexivity.
  cbn. now rewrite app_nil_r.
Qed.

(** With a location that counts as true, registration consults neither
    [default_location] nor the generator, and completes. *)
Lemma Environment_add_object_located
    (dl : env -> ref -> M pyval) (e : env) (object : ref) (loc : pyval)
    (g : RNG) :
  truthy loc = true ->
  exists e', Environment.add_object dl e object (Some loc) g = Ok (e', g).
Proof.
  intros Ht. unfold Environment.add_object, bind, py_or, ret.
  cbn [default from_option id]. rewrite Ht.
  case_isinstance; eauto.
Qed.

(** The base class keeps [agents] equal to the sublist of [objects] made
    of the instances of [Agent]. *)
Lemma Environment_add_object_invariant
    (dl : env -> ref -> M pyval) (e e' : env) (object : ref)
    (location_ : option pyval) (g g' : RNG) :
  agents e = Reference.agents_of_objects e ->
  Environment.add_object dl e object location_ g = Ok (e', g') ->
  agents e' = Reference.agents_of_objects e'.
Proof.
  intros Hinv H.
  destruct (Environment_add_object_objects _ _ _ _ _ _ _ H) as [Ho Ha].
  assert (Hcls : forall r, cls (get e' r) = cls (get e r)).
  { revert H. unfold Environment.add_object.
    bind_cases (py_or (default VNone location_) (dl e object)) g Hl;
      [|discriminate].
    case_isinstance; unfold ret; intros [= <- _]; intros o.
    - change (get (set_agents ?l ?x) o) with (get x o).
      rewrite (get_upd_slot cls) by reflexivity.
      change (get (set_objects ?l ?x) o) with (get x o).
      now rewrite (get_upd_slot cls).
    - change (get (set_objects ?l ?x) o) with (get x o).
      now rewrite (get_upd_slot cls). }
  unfold Reference.agents_of_objects. rewrite Ha, Ho, Hinv, List.filter_app.
  unfold isinstance.
  f_equal.
  - apply List.filter_ext. intros r. now rewrite Hcls.
  - cbn [List.filter]. now rewrite Hcls.
Qed.

(** C4 (observed behaviour).  [XYEnvironment.add_object] calls
    [Environment.add_object], which appends the object to [objects], and
    then appends it again: one registration in a grid environment leaves
    two entries for the entity in [objects]. *)
Theorem XY_add_object_appends_twice (e : env) (object : ref) (g : RNG) :
  exists e', XYEnvironment.add_object e object None g = Ok (e', g) /\
             objects e' = objects e ++ [object; object].
Proof.
  unfold XYEnvironment.add_object, bind.
  destruct (Environment_add_object_located XYEnvironment.default_location
              e object (default (VTuple [VInt 1; VInt 1]) None) g eq_refl)
    as [e1 H].
  rewrite H.
  pose proof (Environment_add_object_objects _ _ _ _ _ _ _ H) as [Ho _].
  eexists. split; [reflexivity|].
  cbn. rewrite Ho. now rewrite <- app_assoc.
Qed.

(** In the grid world of [Sample.facing_wall], one wall and one agent
    have been registered: [objects] holds four entries, and the agent
    occurs once in [agents] but twice among the agents of [objects]. *)
Example XY_registration_sample :
  objects Sample.facing_wall_env = [0; 0; 1; 1]%nat /\
  agents Sample.facing_wall_env = [1%nat] /\
  Reference.agents_of_objects Sample.facing_wall_env = [1; 1]%nat.
Proof. repeat split. Qed.

(** ** The harness (C5) *)

(** *** Function objects *)

Lemma set_heap_same (e : env) : set_heap (heap e) e = e.
Proof. now destruct e. Qed.

Lemma set_program_same (o : obj) : set_program (program o) o = o.
Proof. now destruct o. Qed.

Lemma bound_app (fs new : list Program) (o : obj) (f : option nat) :
  Fair.bound fs o f -> Fair.bound (fs ++ new) o f.
Proof.
  destruct f as [c|]; [|trivial]. intros (p & Hc & Hp). exists p.
  split; [now apply lookup_app_l_Some|exact Hp].
Qed.

Lemma coherent_app (fs new : list Program) (i : Harness.instance) :
  Fair.coherent fs i -> Fair.coherent (fs ++ new) i.
Proof.
  unfold Fair.coherent. intros H.
  eapply Forall2_impl; [exact H|]. intros o f. apply bound_app.
Qed.

(** In an instance that is in step with the table, the slots hold
    already what their functions have captured. *)
Lemma link_bound (fs : list Program) (h : list obj) (fm : list (option nat)) :
  Forall2 (Fair.bound fs) h fm -> Harness.link fs fm h = h.
Proof.
  induction 1 as [|o f h fm Hb _ IH]; [reflexivity|].
  cbn [Harness.link]. destruct f as [c|]; rewrite IH; [|reflexivity].
  destruct Hb as (p & -> & Hp). rewrite <- Hp. now rewrite set_program_same.
Qed.

Lemma view_coherent (s : Harness.store) (a : nat) (i : Harness.instance) :
  Harness.instances s !! a = Some i ->
  Fair.coherent (Harness.functions s) i ->
  Harness.view s a = Harness.world i.
Proof.
  intros Ha Hc. unfold Harness.view, Harness.instance_at. rewrite Ha.
  rewrite (link_bound _ _ _ Hc). apply set_heap_same.
Qed.

(** Putting objects back whose old functions have the state the table
    records: nothing is written, new functions are appended. *)
Lemma intern_appends (h : list obj) :
  forall (fm : list (option nat)) (fs : list Program),
    (forall j o c p,
       h !! j = Some o -> fm !! j = Some (Some c) -> program o = Some p ->
       fs !! c = Some p) ->
    exists fm' new,
      Harness.intern fm h fs = (fm', fs ++ new) /\
      Forall2 (Fair.bound (fs ++ new)) h fm'.
Proof.
  induction h as [|o h IH]; intros fm fs H.
  - exists [], []. rewrite app_nil_r. split; [reflexivity|constructor].
  - cbn [Harness.intern].
    assert (Htail : forall fs' : list Program,
              (forall c p, fs !! c = Some p -> fs' !! c = Some p) ->
              forall j o' c p,
                h !! j = Some o' -> tail fm !! j = Some (Some c) ->
                program o' = Some p -> fs' !! c = Some p).
    { intros fs' Hfs j o' c p Hj Hf Hp. apply Hfs.
      rewrite lookup_tail in Hf. exact (H (S j) o' c p Hj Hf Hp). }
    assert (Hnew : forall p, program o = Some p ->
              exists fm' new,
                Harness.intern (tail fm) h (fs ++ [p]) = (fm', fs ++ new) /\
                Forall2 (Fair.bound (fs ++ new)) (o :: h)
                  (Some (length fs) :: fm')).
    { intros p Hp.
      destruct (IH (tail fm) (fs ++ [p])) as (fm' & new & Hi & Hb).
      { apply Htail. intros c q. apply lookup_app_l_Some. }
      exists fm', (p :: new).
      rewrite <- app_assoc in Hi, Hb. cbn [app] in Hi, Hb.
      split; [exact Hi|]. constructor; [|exact Hb].
      exists p. split; [now apply list_lookup_middle|exact Hp]. }
    destruct (program o) as [p|] eqn:Hp.
    + destruct fm as [|[c|] fm0].
      * destruct (Hnew p eq_refl) as (fm' & new & Hi & Hb).
        rewrite Hi. now exists (Some (length fs) :: fm'), new.
      * pose proof (H 0%nat o c p eq_refl eq_refl Hp) as Hc.
        rewrite (list_insert_id _ _ _ Hc).
        destruct (IH (tail (Some c :: fm0)) fs) as (fm' & new & Hi & Hb).
        { apply Htail. auto. }
        cbn [tail] in Hi |- *. rewrite Hi. exists (Some c :: fm'), new.
        split; [reflexivity|]. constructor; [|exact Hb].
        exists p. split; [now apply lookup_app_l_Some|exact Hp].
      * destruct (Hnew p eq_refl) as (fm' & new & Hi & Hb).
        cbn [tail] in Hi |- *. rewrite Hi.
        now exists (Some (length fs) :: fm'), new.
    + destruct (IH (tail fm) fs) as (fm' & new & Hi & Hb).
      { apply Htail. auto. }
      rewrite Hi. exists (None :: fm'), new.
      split; [reflexivity|]. constructor; [exact Hp|exact Hb].
Qed.

(** *** Programs that keep no state *)

Lemma stateless_call (p : Program) (percept_ action st : pyval)
    (g g' : RNG) :
  Fair.stateless p ->
  pcode p (pstate p) percept_ g = Ok ((action, st), g') ->
  mkProgram st (pcode p) = p.
Proof.
  intros Hs H. rewrite (Hs _ _ _ _ _ H). now destruct p.
Qed.

Lemma kept_refl (L : nat) (e : env) : Fair.kept L e e.
Proof. now intros i _. Qed.

Lemma kept_step (L : nat) (e0 e e' : env) :
  Fair.kept L e0 e ->
  (forall o, program (get e' o) = program (get e o)) ->
  Fair.kept L e0 e'.
Proof. intros Hk H i Hi. rewrite H. now apply Hk. Qed.

Lemma get_alloc_old (e : env) (o : obj) (x : ref) :
  (x < length (heap e))%nat -> get (snd (alloc o e)) x = get e x.
Proof.
  intros Hx. unfold get, alloc, set_heap. cbn [snd heap].
  now rewrite lookup_app_l.
Qed.

Section Kept.

Variable C : EnvClass.
Hypothesis class_keeps : Fair.keeps_programs C.

Variable L : nat.
Variable e0 : env.
Hypothesis quiet0 :
  forall i p, (i < L)%nat -> program (get e0 i) = Some p -> Fair.stateless p.

(** A call of a program that keeps no state leaves the slot as it is. *)
Lemma call_program_kept (e e' : env) (agent : ref) (action : pyval)
    (g g' : RNG) :
  Fair.kept L e0 e ->
  Environment.call_program C e agent g = Ok ((action, e'), g') ->
  Fair.kept L e0 e'.
Proof.
  intros Hk. unfold Environment.call_program.
  bind_cases (lift (attr (program (get e agent)))) g H1; [|discriminate].
  bind_cases (lift (self_percept C e agent)) r H2; [|discriminate].
  bind_cases (pcode p (pstate p) p0) r0 H3; [|discriminate].
  destruct p1 as [act st]. intros [= _ <- _].
  assert (Hp : program (get e agent) = Some p).
  { revert H1. unfold lift, attr.
    destruct (program (get e agent)); [now intros [= -> _]|discriminate]. }
  assert (r = g) as -> by (revert H1; unfold lift;
    destruct (attr (program (get e agent))); [now intros [= _ <-]|discriminate]).
  assert (r0 = g) as -> by (revert H2; unfold lift;
    destruct (self_percept C e agent); [now intros [= _ <-]|discriminate]).
  intros i Hi. rewrite get_upd. destruct (decide (agent = i)) as [->|Hne].
  - rewrite (attr_get_valid program e i p eq_refl Hp).
    cbn [program set_program]. rewrite <- (Hk i Hi), Hp. f_equal.
    apply (stateless_call p p0 act st g r1); [|exact H3].
    apply (quiet0 i p Hi). now rewrite <- (Hk i Hi).
  - now apply Hk.
Qed.

Lemma collect_actions_kept (l : list ref) :
  forall (e e' : env) (actions : list pyval) (g g' : RNG),
    Fair.kept L e0 e ->
    Environment.collect_actions C e l g = Ok ((actions, e'), g') ->
    Fair.kept L e0 e'.
Proof.
  induction l as [|agent l IH]; intros e e' actions g g' Hk.
  - now intros [= _ <- _].
  - cbn [Environment.collect_actions].
    bind_cases (Environment.call_program C e agent) g H1; [|discriminate].
    destruct p as [action e1].
    bind_cases (Environment.collect_actions C e1 l) r H2; [|discriminate].
    destruct p as [acts e2]. intros [= _ <- _].
    eapply IH; [|exact H2]. eapply call_program_kept; eassumption.
Qed.

Lemma apply_actions_kept (l : list (ref * pyval)) :
  forall (e e' : env) (g g' : RNG),
    Fair.kept L e0 e ->
    Environment.apply_actions C e l g = Ok (e', g') ->
    Fair.kept L e0 e'.
Proof.
  induction l as [|[agent action] l IH]; intros e e' g g' Hk.
  - now intros [= <- _].
  - cbn [Environment.apply_actions].
    bind_cases (self_execute_action C e agent action) g H1; [|discriminate].
    intros H2. eapply IH; [|exact H2].
    eapply kept_step; [exact Hk|].
    exact (proj1 (proj2 class_keeps) _ _ _ _ _ _ H1).
Qed.

Lemma step_kept (e e' : env) (g g' : RNG) :
  Fair.kept L e0 e ->
  Environment.step C e g = Ok (e', g') ->
  Fair.kept L e0 e'.
Proof.
  intros Hk. unfold Environment.step.
  destruct (negb (Environment.is_done e)); [|now intros [= <- _]].
  bind_cases (Environment.collect_actions C e (agents e)) g H1;
    [|discriminate].
  destruct p as [actions e1].
  bind_cases (Environment.apply_actions C e1 (combine (agents e1) actions))
    r H2; [|discriminate].
  intros H3.
  eapply kept_step; [|exact (proj2 (proj2 class_keeps) _ _ _ _ H3)].
  eapply apply_actions_kept; [|exact H2].
  eapply collect_actions_kept; eassumption.
Qed.

Lemma run_kept (steps : Z) (e e' : env) (g g' : RNG) :
  Fair.kept L e0 e ->
  Environment.run C steps e g = Ok (e', g') ->
  Fair.kept L e0 e'.
Proof.
  unfold Environment.run. generalize (Z.to_nat steps) as n.
  intros n. revert e g. induction n as [|n IH]; intros e g Hk.
  - now intros [= <- _].
  - cbn [Environment.run_loop].
    destruct (Environment.is_done e); [now intros [= <- _]|].
    bind_cases (Environment.step C e) g H1; [|discriminate].
    apply IH. eapply step_kept; eassumption.
Qed.

End Kept.

(** *** One evaluation *)

Lemma quiet_get (e : env) :
  Fair.quiet e ->
  forall i p, (i < length (heap e))%nat -> program (get e i) = Some p ->
              Fair.stateless p.
Proof.
  intros Hq i p Hi Hp.
  destruct (lookup_lt_is_Some_2 _ _ Hi) as [o Ho].
  rewrite (get_lookup _ _ _ Ho) in Hp.
  exact (Forall_lookup_1 _ _ _ _ Hq Ho p Hp).
Qed.

Section OneClass.

Variable C : EnvClass.
Hypothesis class_keeps : Fair.keeps_programs C.

(** The new agent is registered and run: what the objects of the
    instance had as programs, they still have. *)
Lemma evaluation_kept (e e2 e3 : env) (o : obj) (steps : Z)
    (g g2 g3 : RNG) :
  Fair.quiet e ->
  self_add_object C (snd (alloc o e)) (fst (alloc o e)) None g = Ok (e2, g2) ->
  Environment.run C steps e2 g2 = Ok (e3, g3) ->
  Fair.kept (length (heap e)) e e3.
Proof.
  intros Hq H2 H3.
  eapply (run_kept C class_keeps); [apply quiet_get; exact Hq| |exact H3].
  intros i Hi. rewrite (proj1 class_keeps _ _ _ _ _ _ H2).
  now rewrite get_alloc_old.
Qed.

(** The body of the loop of [test_agent] on an instance that is in step
    with the table and whose programs keep no state: the performance is
    the one the specification records, the instance at [a] is replaced
    and the table has only grown. *)
Lemma test_one_fair (A : M obj) (steps : Z) (a : nat) (s : Harness.store)
    (i : Harness.instance) (g : RNG) :
  Harness.instances s !! a = Some i ->
  Fair.coherent (Harness.functions s) i ->
  Fair.quiet (Harness.world i) ->
  match Fair.final_performance C A steps (Harness.world i) g with
  | Ok (p, g') =>
      exists i' new,
        Harness.test_one C A steps a s g
        = Ok ((p, Harness.mkStore (<[a := i']> (Harness.instances s))
                    (Harness.functions s ++ new)), g')
  | Raise x => Harness.test_one C A steps a s g = Raise x
  end.
Proof.
  intros Ha Hc Hq. unfold Fair.final_performance, Harness.test_one.
  rewrite (view_coherent s a i Ha Hc). set (e := Harness.world i) in *.
  bind_cases A g HA; [|reflexivity].
  rename o into ob.
  change (alloc ob e) with (fst (alloc ob e), snd (alloc ob e)).
  bind_cases (self_add_object C (snd (alloc ob e)) (fst (alloc ob e)) None)
    r H2; [|reflexivity].
  bind_cases (Environment.run C steps e0) r0 H3; [|reflexivity].
  unfold lift at 1 2. unfold bind at 1.
  destruct (attr (performance (get e1 (fst (alloc ob e))))) as [p|x];
    [|reflexivity].
  unfold ret, Harness.put, Harness.instance_at. rewrite Ha.
  pose proof (evaluation_kept e e0 e1 ob steps r r0 r1 Hq H2 H3) as Hk.
  destruct (intern_appends (heap e1) (Harness.funs i) (Harness.functions s))
    as (fm' & new & Hi & _).
  { intros j o' c q Hj Hf Hq'.
    destruct (Forall2_lookup_r _ _ _ _ _ Hc Hf) as (o0 & Ho0 & Hb).
    destruct Hb as (q0 & Hc0 & Hq0). rewrite Hc0. rewrite <- Hq', <- Hq0.
    rewrite <- (get_lookup _ _ _ Hj), <- (get_lookup _ _ _ Ho0).
    symmetry. apply Hk. now apply (lookup_lt_Some _ _ o0). }
  rewrite Hi. now exists (Harness.mkInstance e1 fm'), new.
Qed.

End OneClass.

(** *** The loops *)

Lemma instance_at_app_l (l t : list Harness.instance) (fs : list Program)
    (a : nat) :
  (a < length l)%nat ->
  Harness.instance_at (Harness.mkStore (l ++ t) fs) a
  = Harness.instance_at (Harness.mkStore l fs) a.
Proof.
  intros H. unfold Harness.instance_at. cbn [Harness.instances].
  now rewrite lookup_app_l.
Qed.

Lemma instance_at_middle (l t : list Harness.instance) (i : Harness.instance)
    (fs : list Program) :
  Harness.instance_at (Harness.mkStore (l ++ i :: t) fs) (length l) = i.
Proof.
  unfold Harness.instance_at. cbn [Harness.instances].
  now rewrite list_lookup_middle.
Qed.

(** The cells [length l, length l + length os) of [l ++ os ++ t], read in
    order. *)
Lemma map_instance_at_seq (l os t : list Harness.instance)
    (fs : list Program) :
  map (Harness.instance_at (Harness.mkStore (l ++ os ++ t) fs))
      (seq (length l) (length os)) = os.
Proof.
  revert l. induction os as [|i os IH]; intros l; [reflexivity|].
  cbn [length seq map]. cbn [app]. rewrite instance_at_middle. f_equal.
  specialize (IH (l ++ [i])). rewrite length_app in IH. cbn [length] in IH.
  rewrite Nat.add_1_r in IH. rewrite <- app_assoc in IH. exact IH.
Qed.

Lemma memo_find_fresh (memo : list (nat * nat)) (b : nat) :
  Forall (fun kv => (fst kv < b)%nat) memo -> Harness.memo_find memo b = None.
Proof.
  induction 1 as [|[k v] memo Hk _ IH]; [reflexivity|].
  cbn in *. destruct (Nat.eqb_spec k b); [lia|assumption].
Qed.

(** Copying distinct instances: one new cell per instance, in order; the
    table of functions is not touched. *)
Lemma deepcopy_loop_seq (memo : list (nat * nat)) (b n : nat)
    (l : list Harness.instance) (fs : list Program) :
  Forall (fun kv => (fst kv < b)%nat) memo ->
  (b + n <= length l)%nat ->
  Harness.deepcopy_loop memo (seq b n) (Harness.mkStore l fs)
  = (seq (length l) n,
     Harness.mkStore
       (l ++ map (Harness.instance_at (Harness.mkStore l fs)) (seq b n)) fs).
Proof.
  revert memo b l. induction n as [|n IH]; intros memo b l Hm Hb.
  - cbn. now rewrite app_nil_r.
  - cbn [seq Harness.deepcopy_loop]. rewrite memo_find_fresh by assumption.
    unfold Harness.set_instances. cbn [Harness.instances Harness.functions].
    rewrite IH.
    + rewrite length_app, Nat.add_1_r. cbn [length seq map].
      rewrite <- app_assoc. cbn [app]. do 4 f_equal.
      apply map_ext_in. intros a Ha. apply in_seq in Ha.
      apply instance_at_app_l. lia.
    + constructor; [cbn; lia|].
      eapply Forall_impl; [exact Hm|]. cbn. intros; lia.
    + rewrite length_app. cbn. lia.
Qed.

Lemma deepcopy_originals (l os t : list Harness.instance)
    (fs : list Program) :
  Harness.deepcopy (seq (length l) (length os))
    (Harness.mkStore (l ++ os ++ t) fs)
  = (seq (length (l ++ os ++ t)) (length os),
     Harness.mkStore ((l ++ os ++ t) ++ os) fs).
Proof.
  unfold Harness.deepcopy. rewrite deepcopy_loop_seq.
  - now rewrite map_instance_at_seq.
  - constructor.
  - rewrite !length_app. lia.
Qed.

Section HarnessFacts.

Variable C : EnvClass.
Hypothesis class_keeps : Fair.keeps_programs C.

Lemma performances_length (A : M obj) (steps : Z) (es : list env)
    (g g' : RNG) (ps : list Z) :
  Fair.performances C A steps es g = Ok (ps, g') -> length ps = length es.
Proof.
  revert g g' ps. induction es as [|e es IH]; intros g g' ps.
  - now intros [= <- _].
  - cbn [Fair.performances].
    bind_cases (Fair.final_performance C A steps e) g H1; [|discriminate].
    bind_cases (Fair.performances C A steps es) r H2; [|discriminate].
    intros [= <- _]. cbn. f_equal. now apply (IH _ _ _ H2).
Qed.

(** Running the agents in the copies: the copies are replaced, the table
    of functions grows, and the total is the sum of the performances the
    specification records. *)
Lemma test_agent_loop_fair (A : M obj) (steps : Z)
    (os : list Harness.instance) :
  forall (l : list Harness.instance) (fs : list Program) (total : Z)
         (g : RNG),
    Forall (Fair.coherent fs) os ->
    Forall (fun i => Fair.quiet (Harness.world i)) os ->
    match Fair.performances C A steps (map Harness.world os) g with
    | Ok (ps, g') =>
        exists os' new,
          Harness.test_agent_loop C A steps (seq (length l) (length os))
            total (Harness.mkStore (l ++ os) fs) g
          = Ok ((total + fold_right Z.add 0 ps,
                 Harness.mkStore (l ++ os') (fs ++ new)), g')
    | Raise x =>
        Harness.test_agent_loop C A steps (seq (length l) (length os))
          total (Harness.mkStore (l ++ os) fs) g = Raise x
    end.
Proof.
  induction os as [|i os IH]; intros l fs total g Hc Hq.
  - cbn. exists [], []. now rewrite Z.add_0_r, !app_nil_r.
  - cbn [map Fair.performances length seq Harness.test_agent_loop].
    apply Forall_cons in Hc. destruct Hc as [Hci Hc].
    apply Forall_cons in Hq. destruct Hq as [Hqi Hq].
    pose proof (test_one_fair C class_keeps A steps (length l)
                  (Harness.mkStore (l ++ i :: os) fs) i g) as H1.
    cbn [Harness.instances Harness.functions] in H1.
    specialize (H1 (list_lookup_middle _ _ _ _ eq_refl) Hci Hqi).
    bind_cases (Fair.final_performance C A steps (Harness.world i)) g Hf.
    + destruct H1 as (i' & new1 & H1). rewrite (bind_ok _ _ _ _ _ H1).
      replace (<[length l := i']> (l ++ i :: os)) with ((l ++ [i']) ++ os).
      2:{ rewrite insert_app_r_alt, Nat.sub_diag by lia.
          now rewrite <- app_assoc. }
      specialize (IH (l ++ [i']) (fs ++ new1) (total + z) r).
      rewrite length_app in IH. cbn [length] in IH.
      rewrite Nat.add_1_r in IH.
      assert (Hc' : Forall (Fair.coherent (fs ++ new1)) os).
      { eapply Forall_impl; [exact Hc|]. intros x. apply coherent_app. }
      specialize (IH Hc' Hq).
      bind_cases (Fair.performances C A steps (map Harness.world os)) r Hp.
      * destruct IH as (os' & new2 & IH). unfold ret.
        exists (i' :: os'), (new1 ++ new2).
        rewrite IH. cbn [fold_right].
        rewrite <- !app_assoc, Z.add_assoc. reflexivity.
      * exact IH.
    + now rewrite (bind_raise _ _ _ _ H1).
Qed.

Lemma test_agent_fair (A : M obj) (steps : Z) (os l : list Harness.instance)
    (fs : list Program) (g : RNG) :
  Forall (Fair.coherent fs) os ->
  Forall (fun i => Fair.quiet (Harness.world i)) os ->
  match Fair.score_on C A steps (map Harness.world os) g with
  | Ok (q, g') =>
      exists os' new,
        Harness.test_agent C A steps (seq (length l) (length os))
          (Harness.mkStore (l ++ os) fs) g
        = Ok ((q, Harness.mkStore (l ++ os') (fs ++ new)), g')
  | Raise x =>
      Harness.test_agent C A steps (seq (length l) (length os))
        (Harness.mkStore (l ++ os) fs) g = Raise x
  end.
Proof.
  intros Hc Hq. unfold Fair.score_on, Harness.test_agent.
  pose proof (test_agent_loop_fair A steps os l fs 0 g Hc Hq) as H.
  bind_cases (Fair.performances C A steps (map Harness.world os)) g Hp.
  - destruct H as (os' & new & H). rewrite (bind_ok _ _ _ _ _ H).
    rewrite length_seq, Z.add_0_l.
    rewrite <- (length_map Harness.world os).
    rewrite <- (performances_length _ _ _ _ _ _ Hp).
    unfold Harness.mean, Fair.average, lift, bind, ret.
    destruct (let? x := py_float (fold_right Z.add 0 l0)
              in float_div_int x (Z.of_nat (length l0))) as [q|x];
      [|reflexivity].
    now exists os', new.
  - now rewrite (bind_raise _ _ _ _ H).
Qed.

(** The loop over the factories: every factory is scored on the values
    of the original instances, which are never written and stay in step
    with the table. *)
Lemma compare_loop_fair (steps : Z) (AFs : list (M obj))
    (l os : list Harness.instance) :
  forall (t : list Harness.instance) (fs : list Program) (g : RNG),
    Forall (Fair.coherent fs) os ->
    Forall (fun i => Fair.quiet (Harness.world i)) os ->
    match Fair.scores_on C steps (map Harness.world os) AFs g with
    | Ok (res, g') =>
        exists t' new,
          Harness.compare_loop C steps (seq (length l) (length os)) AFs
            (Harness.mkStore (l ++ os ++ t) fs) g
          = Ok ((res, Harness.mkStore (l ++ os ++ t') (fs ++ new)), g')
    | Raise x =>
        Harness.compare_loop C steps (seq (length l) (length os)) AFs
          (Harness.mkStore (l ++ os ++ t) fs) g = Raise x
    end.
Proof.
  induction AFs as [|A AFs IH]; intros t fs g Hc Hq.
  - cbn. exists t, []. now rewrite app_nil_r.
  - cbn [Fair.scores_on Harness.compare_loop].
    rewrite deepcopy_originals.
    pose proof (test_agent_fair A steps os (l ++ os ++ t) fs g Hc Hq) as H.
    bind_cases (Fair.score_on C A steps (map Harness.world os)) g Hs.
    + destruct H as (os' & new1 & H). rewrite (bind_ok _ _ _ _ _ H).
      replace ((l ++ os ++ t) ++ os') with (l ++ os ++ (t ++ os'))
        by now rewrite <- !app_assoc.
      assert (Hc' : Forall (Fair.coherent (fs ++ new1)) os).
      { eapply Forall_impl; [exact Hc|]. intros x. apply coherent_app. }
      specialize (IH (t ++ os') (fs ++ new1) r Hc' Hq).
      bind_cases (Fair.scores_on C steps (map Harness.world os) AFs) r Hr.
      * destruct IH as (t' & new2 & IH). rewrite (bind_ok _ _ _ _ _ IH).
        unfold ret. exists t', (new1 ++ new2). now rewrite <- app_assoc.
      * now rewrite (bind_raise _ _ _ _ IH).
    + now rewrite (bind_raise _ _ _ _ H).
Qed.

End HarnessFacts.

Lemma scores_on_factories (C : EnvClass) (steps : Z) (es : list env)
    (AFs : list (M obj)) (g g' : RNG) (res : list (M obj * spec_float)) :
  Fair.scores_on C steps es AFs g = Ok (res, g') -> map fst res = AFs.
Proof.
  revert g g' res. induction AFs as [|A AFs IH]; intros g g' res.
  - now intros [= <- _].
  - cbn [Fair.scores_on].
    bind_cases (Fair.score_on C A steps es) g Hs; [|discriminate].
    bind_cases (Fair.scores_on C steps es AFs) r Hr; [|discriminate].
    intros [= <- _]. cbn. f_equal. now apply (IH _ _ _ Hr).
Qed.

(** The constructor calls allocate consecutive cells; the functions of
    the new instances enter the table. *)
Lemma make_envs_fair (F : M env) (n : nat) :
  forall (s : Harness.store) (g : RNG),
    match Fair.build_envs F n g with
    | Ok (es, g') =>
        exists os new,
          map Harness.world os = es /\
          Forall (Fair.coherent (Harness.functions s ++ new)) os /\
          Harness.make_envs F n s g
          = Ok ((seq (length (Harness.instances s)) n,
                 Harness.mkStore (Harness.instances s ++ os)
                   (Harness.functions s ++ new)), g')
    | Raise x => Harness.make_envs F n s g = Raise x
    end.
Proof.
  induction n as [|n IH]; intros s g.
  - cbn. exists [], []. rewrite !app_nil_r. destruct s.
    repeat split. constructor.
  - cbn [Fair.build_envs Harness.make_envs].
    bind_cases F g HF; [|reflexivity].
    unfold Harness.new_instance.
    destruct (intern_appends (heap e) [] (Harness.functions s))
      as (fm & new1 & Hi & Hb).
    { intros j o c p _ Hf. now rewrite lookup_nil in Hf. }
    rewrite Hi.
    specialize (IH (Harness.mkStore
                      (Harness.instances s ++ [Harness.mkInstance e fm])
                      (Harness.functions s ++ new1)) r).
    cbn [Harness.instances Harness.functions] in IH.
    bind_cases (Fair.build_envs F n) r Hb'.
    + destruct IH as (os & new2 & Hw & Hc & IH).
      rewrite (bind_ok _ _ _ _ _ IH). unfold ret.
      exists (Harness.mkInstance e fm :: os), (new1 ++ new2).
      split; [cbn; now rewrite Hw|]. split.
      * rewrite app_assoc. constructor; [|exact Hc].
        apply coherent_app. exact Hb.
      * rewrite length_app, Nat.add_1_r, <- !app_assoc. reflexivity.
    + now rewrite (bind_raise _ _ _ _ IH).
Qed.

Lemma build_envs_length (F : M env) (n : nat) (g g' : RNG) (es : list env) :
  Fair.build_envs F n g = Ok (es, g') -> length es = n.
Proof.
  revert g g' es. induction n as [|n IH]; intros g g' es.
  - now intros [= <- _].
  - cbn [Fair.build_envs]. bind_cases F g HF; [|discriminate].
    bind_cases (Fair.build_envs F n) r Hb; [|discriminate].
    intros [= <- _]. cbn. f_equal. now apply (IH _ _ _ Hb).
Qed.

Lemma build_envs_all (P : env -> Prop) (F : M env) (n : nat) (g g' : RNG)
    (es : list env) :
  (forall g0 e g1, F g0 = Ok (e, g1) -> P e) ->
  Fair.build_envs F n g = Ok (es, g') -> Forall P es.
Proof.
  intros HP. revert g g' es. induction n as [|n IH]; intros g g' es.
  - intros [= <- _]. constructor.
  - cbn [Fair.build_envs]. bind_cases F g HF; [|discriminate].
    bind_cases (Fair.build_envs F n) r Hb; [|discriminate].
    intros [= <- _]. constructor; [exact (HP _ _ _ HF)|].
    now apply (IH _ _ _ Hb).
Qed.

(** The original instances as the code sees them in the end. *)
Lemma map_view_seq (l os t : list Harness.instance) (fs : list Program) :
  Forall (Fair.coherent fs) os ->
  map (Harness.view (Harness.mkStore (l ++ os ++ t) fs))
      (seq (length l) (length os)) = map Harness.world os.
Proof.
  revert l. induction os as [|i os IH]; intros l Hc; [reflexivity|].
  apply Forall_cons in Hc. destruct Hc as [Hci Hc].
  cbn [length seq map]. f_equal.
  - apply view_coherent; [|exact Hci]. cbn [Harness.instances app].
    now apply list_lookup_middle.
  - specialize (IH (l ++ [i]) Hc). rewrite length_app in IH.
    cbn [length] in IH. rewrite Nat.add_1_r in IH.
    rewrite <- app_assoc in IH. exact IH.
Qed.

(** The copies that [copy.deepcopy(envs)] returns show the states of the
    originals, which it leaves as they are. *)
Lemma deepcopy_views (l os t : list Harness.instance) (fs : list Program) :
  Forall (Fair.coherent fs) os ->
  match Harness.deepcopy (seq (length l) (length os))
          (Harness.mkStore (l ++ os ++ t) fs) with
  | (copies, s1) =>
      map (Harness.view s1) copies = map Harness.world os /\
      map (Harness.view s1) (seq (length l) (length os))
      = map Harness.world os
  end.
Proof.
  intros Hc. rewrite deepcopy_originals. split.
  - pose proof (map_view_seq (l ++ os ++ t) os [] fs Hc) as H.
    now rewrite app_nil_r in H.
  - pose proof (map_view_seq l os (t ++ os) fs Hc) as H.
    now rewrite <- !app_assoc.
Qed.

(** *** The classes of the module *)

(** No method of the classes of the module assigns a [program] slot. *)
Lemma add_performance_program (e e' : env) (agent : ref) (k : Z) (o : ref) :
  add_performance e agent k = Ok e' ->
  program (get e' o) = program (get e o).
Proof.
  unfold add_performance. destruct (attr _) as [p|]; [|discriminate].
  intros [= <-]. now rewrite (get_upd_slot program).
Qed.

Lemma Environment_add_object_program
    (dl : env -> ref -> M pyval) (e e' : env) (object : ref)
    (location_ : option pyval) (g g' : RNG) (o : ref) :
  Environment.add_object dl e object location_ g = Ok (e', g') ->
  program (get e' o) = program (get e o).
Proof.
  unfold Environment.add_object.
  bind_cases (py_or (default VNone location_) (dl e object)) g Hl;
    [|discriminate].
  case_isinstance; unfold ret; intros [= <- _].
  - change (get (set_agents ?l ?x) o) with (get x o).
    rewrite (get_upd_slot program) by reflexivity.
    change (get (set_objects ?l ?x) o) with (get x o).
    now rewrite (get_upd_slot program).
  - change (get (set_objects ?l ?x) o) with (get x o).
    now rewrite (get_upd_slot program).
Qed.

Lemma XY_add_object_program (e e' : env) (object : ref)
    (location_ : option pyval) (g g' : RNG) (o : ref) :
  XYEnvironment.add_object e object location_ g = Ok (e', g') ->
  program (get e' o) = program (get e o).
Proof.
  unfold XYEnvironment.add_object.
  bind_cases (Environment.add_object XYEnvironment.default_location e object
                (Some (default (VTuple [VInt 1; VInt 1]) location_))) g H1;
    [|discriminate].
  unfold ret. intros [= <- _].
  change (get (set_objects ?l ?x) o) with (get x o).
  rewrite !(get_upd_slot program) by reflexivity.
  exact (Environment_add_object_program _ _ _ _ _ _ _ _ H1).
Qed.

Lemma Trivial_execute_program (e e' : env) (agent : ref) (action : pyval)
    (o : ref) :
  TrivialVacuumEnvironment.execute_action e agent action = Ok e' ->
  program (get e' o) = program (get e o).
Proof.
  unfold TrivialVacuumEnvironment.execute_action.
  repeat match goal with
  | |- (if ?b then _ else _) = _ -> _ => destruct b
  end.
  - intros H. rewrite (add_performance_program _ _ _ _ o H).
    now rewrite (get_upd_slot program).
  - intros H. rewrite (add_performance_program _ _ _ _ o H).
    now rewrite (get_upd_slot program).
  - destruct (attr (location (get e agent))) as [loc|]; [|discriminate].
    cbn [rbind].
    destruct (dict_get (status e) loc) as [st|]; [|discriminate].
    cbn [rbind].
    destruct (if py_eq st (VStr "Dirty") then add_performance e agent 10
              else Ok e) as [e1|] eqn:H1; [|discriminate].
    cbn [rbind].
    destruct (attr (location (get e1 agent))) as [loc1|]; [|discriminate].
    cbn [rbind].
    destruct (dict_set (status e1) loc1 (VStr "Clean")) as [d|];
      [|discriminate].
    cbn [rbind]. intros [= <-].
    change (get (set_status d e1) o) with (get e1 o).
    destruct (py_eq st (VStr "Dirty")).
    + exact (add_performance_program _ _ _ _ o H1).
    + now injection H1 as <-.
  - now intros [= <-].
Qed.

Lemma XY_execute_program (e e' : env) (agent : ref) (action : pyval)
    (o : ref) :
  XYEnvironment.execute_action e agent action = Ok e' ->
  program (get e' o) = program (get e o).
Proof.
  unfold XYEnvironment.execute_action.
  match goal with
  | |- rbind ?c _ = _ -> _ => destruct c as [e1|x] eqn:He1
  end; [|discriminate].
  cbn [rbind]. intros [= <-]. rewrite (get_upd_slot program) by reflexivity.
  revert He1. unfold XYEnvironment.move_to.
  repeat match goal with
  | |- (if ?b then _ else _) = _ -> _ => destruct b
  | |- rbind ?c _ = _ -> _ => destruct c; cbn [rbind]; [|discriminate]
  | |- match ?l with [] => _ | _ :: _ => _ end = _ -> _ => destruct l
  | |- Ok _ = Ok _ -> _ => intros [= <-]
  | |- Raise _ = Ok _ -> _ => discriminate
  end; rewrite ?(get_upd_slot program) by reflexivity; reflexivity.
Qed.

Lemma Vacuum_execute_program (e e' : env) (agent : ref) (action : pyval)
    (o : ref) :
  VacuumEnvironment.execute_action e agent action = Ok e' ->
  program (get e' o) = program (get e o).
Proof.
  unfold VacuumEnvironment.execute_action.
  match goal with
  | |- rbind ?c _ = _ -> _ => destruct c as [e1|x] eqn:He1
  end; [|discriminate].
  cbn [rbind].
  destruct (add_performance e1 agent (-1)) as [e2|x] eqn:He2; [|discriminate].
  cbn [rbind]. intros H.
  rewrite (XY_execute_program _ _ _ _ o H).
  rewrite (add_performance_program _ _ _ _ o He2).
  revert He1.
  repeat match goal with
  | |- (if ?b then _ else _) = _ -> _ => destruct b
  | |- rbind ?c _ = _ -> _ => destruct c; cbn [rbind]; [|discriminate]
  | |- Ok _ = Ok _ -> _ => intros [= <-]
  end; try reflexivity.
  intros H1. exact (add_performance_program _ _ _ _ o H1).
Qed.

Lemma lift_ok {A} (c : result A) (g g' : RNG) (a : A) :
  lift c g = Ok (a, g') -> c = Ok a.
Proof. unfold lift. destruct c; [now intros [= -> _]|discriminate]. Qed.

Lemma Trivial_keeps_programs :
  Fair.keeps_programs TrivialVacuumEnvironment.class.
Proof.
  split; [|split]; cbn [self_add_object self_execute_action
                        self_exogenous_change TrivialVacuumEnvironment.class].
  - intros e a loc g e' g' H o.
    exact (Environment_add_object_program _ _ _ _ _ _ _ o H).
  - intros e a action g e' g' H o.
    exact (Trivial_execute_program _ _ _ _ o (lift_ok _ _ _ _ H)).
  - now intros e g e' g' [= <- _] o.
Qed.

Lemma Vacuum_keeps_programs : Fair.keeps_programs VacuumEnvironment.class.
Proof.
  split; [|split]; cbn [self_add_object self_execute_action
                        self_exogenous_change VacuumEnvironment.class].
  - intros e a loc g e' g' H o. exact (XY_add_object_program _ _ _ _ _ _ o H).
  - intros e a action g e' g' H o.
    exact (Vacuum_execute_program _ _ _ _ o (lift_ok _ _ _ _ H)).
  - now intros e g e' g' [= <- _] o.
Qed.

Lemma XY_keeps_programs : Fair.keeps_programs XYEnvironment.class.
Proof.
  split; [|split]; cbn [self_add_object self_execute_action
                        self_exogenous_change XYEnvironment.class].
  - intros e a loc g e' g' H o. exact (XY_add_object_program _ _ _ _ _ _ o H).
  - intros e a action g e' g' H o.
    exact (XY_execute_program _ _ _ _ o (lift_ok _ _ _ _ H)).
  - now intros e g e' g' [= <- _] o.
Qed.

(** The programs of [ReflexVacuumAgent] and [RandomAgent] capture
    nothing that they change. *)
Lemma reflex_vacuum_stateless :
  Fair.stateless (mkProgram VNone reflex_vacuum_program).
Proof.
  intros pc g action st g'. cbn [pcode pstate].
  unfold reflex_vacuum_program.
  bind_cases (lift (unpack2 pc)) g H1; [|discriminate].
  destruct p as [l s].
  repeat match goal with
  | |- (if ?b then _ else _) _ = _ -> _ => destruct b
  end; unfold ret; now intros [= _ <- _].
Qed.

Lemma random_agent_stateless (actions : pyval) :
  forall p, program (new_RandomAgent actions) = Some p -> Fair.stateless p.
Proof.
  intros p [= <-] pc g action st g'. cbn [pcode pstate].
  bind_cases (random_choice actions) g H1; [|discriminate].
  unfold ret. now intros [= _ <- _].
Qed.

(** C5 (amended).  [compare_agents] constructs [n] environment instances
    [es] and scores every agent factory on deep copies of them.  When
    the methods of the class assign no program and the programs of the
    agents that the constructed instances already hold keep no state
    between calls (in particular when the instances hold no agent yet),
    its outcome is the outcome of scoring each factory, in input order,
    on the same list of initial states [es]: the result pairs each
    factory with the average of its [n] final performances, and when the
    call returns, the original instances are still [es].  An exception
    raised by a constructor, a program or the division for [n = 0] is
    raised by both sides. *)
Theorem compare_agents_fair (C : EnvClass) (EnvFactory : M env)
    (AgentFactories : list (M obj)) (n steps : Z) (s : Harness.store)
    (g : RNG) :
  Fair.keeps_programs C ->
  (forall g0 e g1, EnvFactory g0 = Ok (e, g1) -> Fair.quiet e) ->
  match (let* es := Fair.build_envs EnvFactory (Z.to_nat n) in
         let* res := Fair.scores_on C steps es AgentFactories in
         ret (es, res)) g with
  | Ok ((es, res), g') =>
      length es = Z.to_nat n /\
      map fst res = AgentFactories /\
      exists s',
        Harness.compare_agents C EnvFactory AgentFactories n steps s g
        = Ok ((res, s'), g') /\
        map (Harness.view s')
            (seq (length (Harness.instances s)) (length es)) = es
  | Raise x =>
      Harness.compare_agents C EnvFactory AgentFactories n steps s g
      = Raise x
  end.
Proof.
  intros Hkeep Hquiet. unfold Harness.compare_agents.
  pose proof (make_envs_fair EnvFactory (Z.to_nat n) s g) as Hm.
  bind_cases (Fair.build_envs EnvFactory (Z.to_nat n)) g Hb.
  - destruct Hm as (os & new & Hw & Hc & Hm). rewrite (bind_ok _ _ _ _ _ Hm).
    pose proof (build_envs_length _ _ _ _ _ Hb) as Hlen.
    pose proof (build_envs_all _ _ _ _ _ _ Hquiet Hb) as Hq.
    rewrite <- Hw in Hq. rewrite Forall_map in Hq.
    assert (Hn : length os = Z.to_nat n)
      by (now rewrite <- Hlen, <- Hw, length_map).
    pose proof (compare_loop_fair C Hkeep steps AgentFactories
                  (Harness.instances s) os [] (Harness.functions s ++ new)
                  r Hc Hq) as Hl.
    rewrite app_nil_r, Hn, Hw in Hl.
    bind_cases (Fair.scores_on C steps l AgentFactories) r Hs.
    + unfold ret. split; [exact Hlen|].
      split; [now apply (scores_on_factories C _ _ _ _ _ _ Hs)|].
      destruct Hl as (t' & new' & Hl). eexists. split; [exact Hl|].
      cbn [Harness.instances]. rewrite Hlen, <- Hn, <- Hw.
      apply map_view_seq.
      eapply Forall_impl; [exact Hc|]. intros x. apply coherent_app.
    + exact Hl.
  - now rewrite (bind_raise _ _ _ _ Hm).
Qed.

(** Two instances of the two-location world that hold a reflex agent
    each: the programs of these agents keep no state. *)
Lemma compare_agents_fair_witness :
  match (let* es := Fair.build_envs (ret Sample.dirty_agent_at_A)
                      (Z.to_nat 2) in
         let* res := Fair.scores_on TrivialVacuumEnvironment.class 3 es
                       [ret new_ReflexVacuumAgent; ret new_RandomVacuumAgent] in
         ret (es, res)) Sample.zeros with
  | Ok ((es, res), g') =>
      length es = Z.to_nat 2 /\
      map fst res = [ret new_ReflexVacuumAgent; ret new_RandomVacuumAgent] /\
      exists s',
        Harness.compare_agents TrivialVacuumEnvironment.class
          (ret Sample.dirty_agent_at_A)
          [ret new_ReflexVacuumAgent; ret new_RandomVacuumAgent] 2 3
          (Harness.mkStore [] []) Sample.zeros
        = Ok ((res, s'), g') /\
        map (Harness.view s')
            (seq (length (Harness.instances (Harness.mkStore [] [])))
                 (length es)) = es
  | Raise x =>
      Harness.compare_agents TrivialVacuumEnvironment.class
        (ret Sample.dirty_agent_at_A)
        [ret new_ReflexVacuumAgent; ret new_RandomVacuumAgent] 2 3
        (Harness.mkStore [] []) Sample.zeros
      = Raise x
  end.
Proof.
  apply (compare_agents_fair TrivialVacuumEnvironment.class
           (ret Sample.dirty_agent_at_A)
           [ret new_ReflexVacuumAgent; ret new_RandomVacuumAgent] 2 3
           (Harness.mkStore [] []) Sample.zeros Trivial_keeps_programs).
  intros g0 e g1 [= <- _]. repeat constructor.
  intros p [= <-]. apply reflex_vacuum_stateless.
Defined.

(** C5 (counterexample).  The constructor returns a two-location world,
    both locations Dirty, that already holds a table-driven agent at A
    whose table answers Suck, Right, Suck.  Two reflex agents are
    compared for three ticks with a generator that always draws zero, so
    both are placed at A.  Scored on the world as constructed each would
    get -1, the table-driven agent cleaning just ahead of it.  In
    [compare_agents] the second one gets 19: the list [percepts] that
    the program of the table-driven agent has captured is shared by the
    original and its copies, it holds three percepts after the first
    evaluation, and during the second the table answers [None].  The
    original instance ends with the six percepts of both evaluations. *)
Lemma compare_agents_shares_programs :
  option_map pstate (program (get (Sample.scripted_at loc_A) 0%nat))
  = Some (VList []) /\
  match Fair.scores_on TrivialVacuumEnvironment.class 3
          [Sample.scripted_at loc_A]
          [ret new_ReflexVacuumAgent; ret new_ReflexVacuumAgent]
          Sample.zeros with
  | Ok (res, _) => map snd res = [double_of_Z (-1); double_of_Z (-1)]
  | Raise _ => False
  end /\
  match Harness.compare_agents TrivialVacuumEnvironment.class
          (ret (Sample.scripted_at loc_A))
          [ret new_ReflexVacuumAgent; ret new_ReflexVacuumAgent] 1 3
          (Harness.mkStore [] []) Sample.zeros with
  | Ok ((res, s'), _) =>
      map snd res = [double_of_Z (-1); double_of_Z 19] /\
      Harness.view s' 0%nat <> Sample.scripted_at loc_A /\
      option_map pstate (program (get (Harness.view s' 0%nat) 0%nat))
      = Some (VList [VTuple [loc_A; VStr "Dirty"];
                     VTuple [loc_A; VStr "Clean"];
                     VTuple [loc_B; VStr "Dirty"];
                     VTuple [loc_A; VStr "Dirty"];
                     VTuple [loc_A; VStr "Clean"];
                     VTuple [loc_A; VStr "Clean"]])
  | Raise _ => False
  end.
Proof.
  split; [reflexivity|]. split; [vm_compute; reflexivity|].
  vm_compute. split; [reflexivity|]. split; [|reflexivity].
  intros H.
  apply (f_equal (fun e => option_map pstate (program (get e 0%nat)))) in H.
  vm_compute in H. discriminate.
Qed.

(** Two new instances of the two-location world and two factories: both
    factories meet the same two initial states, and the two original
    instances are as the constructor left them. *)
Example compare_agents_sample :
  match Harness.compare_agents TrivialVacuumEnvironment.class
          TrivialVacuumEnvironment.__init__
          [ret new_ReflexVacuumAgent; ret new_RandomVacuumAgent] 2 4
          (Harness.mkStore [] []) Sample.counting with
  | Ok ((res, s'), _) =>
      map snd res = [double_of_Z 7; double_of_Z (-2)] /\
      map (fun a => status (Harness.view s' a)) [0; 1]%nat
      = [ [(loc_A, VStr "Clean"); (loc_B, VStr "Dirty")];
          [(loc_A, VStr "Clean"); (loc_B, VStr "Dirty")] ] /\
      map (fun a => agents (Harness.view s' a)) [0; 1]%nat = [[]; []] /\
      length (Harness.instances s') = 6%nat
  | Raise _ => False
  end.
Proof. vm_compute. repeat split. Qed.

(** The mean is a double: 14 / 2 and 1 / 3 as Python returns them, and
    the two exceptions of [float(total)/len(envs)]. *)
Example mean_sample :
  Harness.mean 14 2 = Ok (double_of_Z 7) /\
  Harness.mean 1 3 = Ok (S754_finite false 6004799503160661 (-54)) /\
  Harness.mean 0 0 = Raise ZeroDivisionError /\
  Harness.mean (2 ^ 1024) 1 = Raise OverflowError.
Proof. vm_compute. repeat split. Qed.

(** ** Scoring in the two-location world (C6) *)

Lemma add_performance_ok (e : env) (agent : ref) (p k : Z) :
  performance (get e agent) = Some p ->
  add_performance e agent k
  = Ok (upd agent (set_performance (Some (p + k))) e).
Proof. intros H. unfold add_performance. now rewrite H. Qed.

Lemma trivial_move (e : env) (agent : ref) (p : Z) (name : string)
    (target : pyval) :
  performance (get e agent) = Some p ->
  TrivialVacuumEnvironment.execute_action e agent (VStr name)
  = add_performance (upd agent (set_location (Some target)) e) agent (-1) ->
  exists e',
    TrivialVacuumEnvironment.execute_action e agent (VStr name) = Ok e' /\
    location (get e' agent) = Some target /\
    performance (get e' agent) = Some (p - 1) /\
    status e' = status e.
Proof.
  intros Hp ->. pose proof (performance_valid _ _ _ Hp) as Hv.
  rewrite (add_performance_ok _ _ p).
  - eexists. split; [reflexivity|].
    rewrite upd_upd, get_upd_eq by assumption. repeat split.
  - now rewrite (get_upd_slot performance).
Qed.

Lemma trivial_right (e : env) (agent : ref) (p : Z) :
  performance (get e agent) = Some p ->
  exists e',
    TrivialVacuumEnvironment.execute_action e agent (VStr "Right") = Ok e' /\
    location (get e' agent) = Some loc_B /\
    performance (get e' agent) = Some (p - 1) /\
    status e' = status e.
Proof. intros Hp. now apply trivial_move. Qed.

Lemma trivial_left (e : env) (agent : ref) (p : Z) :
  performance (get e agent) = Some p ->
  exists e',
    TrivialVacuumEnvironment.execute_action e agent (VStr "Left") = Ok e' /\
    location (get e' agent) = Some loc_A /\
    performance (get e' agent) = Some (p - 1) /\
    status e' = status e.
Proof. intros Hp. now apply trivial_move. Qed.

Lemma dict_get_hashable (d : list (pyval * pyval)) (k v : pyval) :
  dict_get d k = Ok v -> hashable k = true.
Proof. unfold dict_get. now destruct (hashable k). Qed.

Lemma trivial_suck (e : env) (agent : ref) (p : Z) (loc st : pyval) :
  performance (get e agent) = Some p ->
  location (get e agent) = Some loc ->
  dict_get (status e) loc = Ok st ->
  exists e',
    TrivialVacuumEnvironment.execute_action e agent (VStr "Suck") = Ok e' /\
    location (get e' agent) = Some loc /\
    performance (get e' agent)
      = Some (if py_eq st (VStr "Dirty") then p + 10 else p) /\
    status e' = dict_store (status e) loc (VStr "Clean").
Proof.
  intros Hp Hl Hd. pose proof (performance_valid _ _ _ Hp) as Hv.
  pose proof (dict_get_hashable _ _ _ Hd) as Hh.
  unfold TrivialVacuumEnvironment.execute_action.
  change (py_eq (VStr "Suck") (VStr "Right")) with false.
  change (py_eq (VStr "Suck") (VStr "Left")) with false.
  change (py_eq (VStr "Suck") (VStr "Suck")) with true.
  cbv iota. rewrite Hl. cbn [attr rbind]. rewrite Hd. cbn [rbind].
  destruct (py_eq st (VStr "Dirty")).
  - rewrite (add_performance_ok _ _ p) by assumption. cbn [rbind].
    rewrite (get_upd_slot location), Hl by reflexivity. cbn [attr rbind].
    unfold dict_set. change (status (upd _ _ e)) with (status e).
    rewrite Hh. cbn [rbind]. eexists. split; [reflexivity|].
    change (get (set_status ?d ?x) agent) with (get x agent).
    rewrite get_upd_eq by assumption. repeat split. exact Hl.
  - cbn [rbind]. rewrite Hl. cbn [attr rbind]. unfold dict_set. rewrite Hh.
    cbn [rbind]. eexists. split; [reflexivity|].
    change (get (set_status ?d ?x) agent) with (get x agent).
    rewrite Hl, Hp. repeat split.
Qed.

(** C6 (as amended).  In the two-location world, for an agent with a
    performance slot: [Right] and [Left] put it at B and at A and cost
    one point; [Suck] leaves it where it is, marks that location Clean
    and earns ten points when the location was Dirty; and when both
    locations are Dirty and the agent starts at A with performance 0,
    the actions Suck, Right, Suck end with performance exactly 19. *)
Theorem two_location_scoring (e : env) (agent : ref) (p : Z) :
  performance (get e agent) = Some p ->
  (exists e',
     TrivialVacuumEnvironment.execute_action e agent (VStr "Right") = Ok e' /\
     location (get e' agent) = Some loc_B /\
     performance (get e' agent) = Some (p - 1) /\
     status e' = status e) /\
  (exists e',
     TrivialVacuumEnvironment.execute_action e agent (VStr "Left") = Ok e' /\
     location (get e' agent) = Some loc_A /\
     performance (get e' agent) = Some (p - 1) /\
     status e' = status e) /\
  (forall loc st,
     location (get e agent) = Some loc ->
     dict_get (status e) loc = Ok st ->
     exists e',
       TrivialVacuumEnvironment.execute_action e agent (VStr "Suck") = Ok e' /\
       location (get e' agent) = Some loc /\
       performance (get e' agent)
         = Some (if py_eq st (VStr "Dirty") then p + 10 else p) /\
       status e' = dict_store (status e) loc (VStr "Clean")) /\
  (status e = [(loc_A, VStr "Dirty"); (loc_B, VStr "Dirty")] ->
   location (get e agent) = Some loc_A ->
   p = 0 ->
   exists e',
     Reference.perform TrivialVacuumEnvironment.execute_action e agent
       [VStr "Suck"; VStr "Right"; VStr "Suck"] = Ok e' /\
     performance (get e' agent) = Some 19 /\
     location (get e' agent) = Some loc_B /\
     status e' = [(loc_A, VStr "Clean"); (loc_B, VStr "Clean")]).
Proof.
  intros Hp. split; [now apply trivial_right|].
  split; [now apply trivial_left|].
  split; [intros loc st; now apply trivial_suck|].
  intros Hs Hl ->.
  destruct (trivial_suck e agent 0 loc_A (VStr "Dirty") Hp Hl)
    as (e1 & H1 & Hl1 & Hp1 & Hs1); [now rewrite Hs|].
  destruct (trivial_right e1 agent _ Hp1) as (e2 & H2 & Hl2 & Hp2 & Hs2).
  destruct (trivial_suck e2 agent _ loc_B (VStr "Dirty") Hp2 Hl2)
    as (e3 & H3 & Hl3 & Hp3 & Hs3); [now rewrite Hs2, Hs1, Hs|].
  exists e3. cbn [Reference.perform]. rewrite H1. cbn [rbind].
  rewrite H2. cbn [rbind]. rewrite H3. cbn [rbind].
  split; [reflexivity|]. split; [exact Hp3|]. split; [exact Hl3|].
  now rewrite Hs3, Hs2, Hs1, Hs.
Qed.

Lemma two_location_scoring_witness :
  exists e',
    Reference.perform TrivialVacuumEnvironment.execute_action
      Sample.dirty_agent_at_A 0%nat
      [VStr "Suck"; VStr "Right"; VStr "Suck"] = Ok e' /\
    performance (get e' 0%nat) = Some 19 /\
    location (get e' 0%nat) = Some loc_B /\
    status e' = [(loc_A, VStr "Clean"); (loc_B, VStr "Clean")].
Proof.
  apply (two_location_scoring Sample.dirty_agent_at_A 0%nat 0);
    reflexivity.
Defined.

(** C6 (counterexample).  Both locations are Dirty and a newly
    registered agent stands at B: Suck earns 10, Right costs 1 and
    leaves it at B, and the second Suck finds B already Clean.  The
    performance ends at 9, not 19. *)
Lemma suck_right_suck_from_B :
  status Sample.dirty_agent_at_B
    = [(loc_A, VStr "Dirty"); (loc_B, VStr "Dirty")] /\
  performance (get Sample.dirty_agent_at_B 0%nat) = Some 0 /\
  exists e',
    Reference.perform TrivialVacuumEnvironment.execute_action
      Sample.dirty_agent_at_B 0%nat
      [VStr "Suck"; VStr "Right"; VStr "Suck"] = Ok e' /\
    performance (get e' 0%nat) = Some 9 /\
    performance (get e' 0%nat) <> Some 19.
Proof.
  split; [reflexivity|]. split; [reflexivity|].
  eexists. split; [reflexivity|]. split; [reflexivity|]. discriminate.
Qed.

(** The same two runs through [run]: a table-driven agent that answers
    Suck, Right, Suck in three ticks scores 19 from A and 9 from B. *)
Example scripted_runs :
  match Environment.run TrivialVacuumEnvironment.class 3
          (Sample.scripted_at loc_A) Sample.zeros,
        Environment.run TrivialVacuumEnvironment.class 3
          (Sample.scripted_at loc_B) Sample.zeros with
  | Ok (ea, _), Ok (eb, _) =>
      performance (get ea 0%nat) = Some 19 /\
      performance (get eb 0%nat) = Some 9
  | _, _ => False
  end.
Proof. vm_compute. split; reflexivity. Qed.

(** ** Termination (C7) *)

Lemma is_alive_true (o : obj) : is_alive o = true <-> alive o = Some true.
Proof.
  unfold is_alive. destruct (alive o) as [[|]|]; split; congruence.
Qed.

Lemma is_done_loop_spec (e : env) (l : list ref) :
  Environment.is_done_loop e l = true <->
  forall a, In a l -> alive (get e a) <> Some true.
Proof.
  induction l as [|x l IH]; cbn [Environment.is_done_loop].
  - split; [intros _ a []|reflexivity].
  - destruct (is_alive (get e x)) eqn:Hx.
    + split; [discriminate|]. intros H. exfalso.
      apply (H x); [now left|]. now apply is_alive_true.
    + rewrite IH. split.
      * intros H a [<-|Ha]; [|now apply H].
        intros Ht. apply is_alive_true in Ht. congruence.
      * intros H a Ha. apply H. now right.
Qed.

Section RunFacts.

Variable C : EnvClass.

Lemma run_trace_erase (n : nat) (e : env) (g : RNG) :
  Environment.run_loop C n e g
  = match Environment.run_trace C n e g with
    | Ok ((_, e'), g') => Ok (e', g')
    | Raise x => Raise x
    end.
Proof.
  revert e g. induction n as [|n IH]; intros e g; [reflexivity|].
  cbn [Environment.run_loop Environment.run_trace].
  destruct (Environment.is_done e); [reflexivity|].
  bind_cases (Environment.step C e) g Hs; [|reflexivity].
  rewrite IH.
  bind_cases (Environment.run_trace C n e0) r Hr; [|reflexivity].
  now destruct p.
Qed.

Lemma run_trace_bound (n : nat) (e : env) (g : RNG)
    (tr : list env) (e' : env) (g' : RNG) :
  Environment.run_trace C n e g = Ok ((tr, e'), g') ->
  (length tr <= n)%nat /\
  Forall (fun s => Environment.is_done s = false) tr /\
  ((length tr < n)%nat -> Environment.is_done e' = true).
Proof.
  revert e g tr e' g'. induction n as [|n IH]; intros e g tr e' g'.
  - intros [= <- <- <-]. split; [reflexivity|]. split; [constructor|]. cbn; lia.
  - cbn [Environment.run_trace]. destruct (Environment.is_done e) eqn:Hd.
    + intros [= <- <- <-]. split; [cbn; lia|]. split; [constructor|]. auto.
    + bind_cases (Environment.step C e) g Hs; [|discriminate].
      bind_cases (Environment.run_trace C n e0) r Hr; [|discriminate].
      destruct p as [tr1 e2].
      intros [= <- <- <-]. destruct (IH _ _ _ _ _ Hr) as (H1 & H2 & H3).
      split; [cbn; lia|]. split; [now constructor|].
      cbn. intros ?. apply H3. lia.
Qed.

Lemma run_trace_done (n : nat) (e : env) (g : RNG) :
  Environment.is_done e = true ->
  Environment.run_trace C n e g = Ok (([], e), g).
Proof.
  intros Hd. destruct n; [reflexivity|]. cbn [Environment.run_trace].
  now rewrite Hd.
Qed.

End RunFacts.

(** C7.  [is_done] answers true exactly when no registered agent has a
    true [alive] attribute, in particular when there is no agent.  On an
    environment whose only agent has [alive = False], [run] calls [step]
    not once and returns the environment as it is.  In general [run]
    calls [step] at most [steps] times, never on an environment that is
    done, and when it stops before [steps] calls the environment is
    done. *)
Theorem is_done_and_run (C : EnvClass) (e : env) :
  (Environment.is_done e = true <->
   forall a, In a (agents e) -> alive (get e a) <> Some true) /\
  (agents e = [] -> Environment.is_done e = true) /\
  (forall a steps g,
     agents e = [a] -> alive (get e a) = Some false ->
     Environment.run C steps e g = Ok (e, g) /\
     Environment.run_trace C (Z.to_nat steps) e g = Ok (([], e), g)) /\
  (forall steps g,
     Environment.run C steps e g
     = match Environment.run_trace C (Z.to_nat steps) e g with
       | Ok ((_, e'), g') => Ok (e', g')
       | Raise x => Raise x
       end) /\
  (forall steps g tr e' g',
     Environment.run_trace C (Z.to_nat steps) e g = Ok ((tr, e'), g') ->
     (Z.of_nat (length tr) <= Z.max 0 steps) /\
     Forall (fun s => Environment.is_done s = false) tr /\
     (Z.of_nat (length tr) < steps -> Environment.is_done e' = true)).
Proof.
  split; [apply is_done_loop_spec|].
  split; [intros H; unfold Environment.is_done; now rewrite H|].
  split.
  { intros a steps g Ha Hal.
    assert (Hd : Environment.is_done e = true).
    { apply is_done_loop_spec. rewrite Ha. intros x [<-|[]]. congruence. }
    unfold Environment.run. rewrite run_trace_erase.
    now rewrite (run_trace_done C _ e g Hd). }
  split; [intros; apply run_trace_erase|].
  intros steps g tr e' g' H.
  destruct (run_trace_bound C _ _ _ _ _ _ H) as (H1 & H2 & H3).
  split; [lia|]. split; [assumption|]. intros Hlt. apply H3. lia.
Qed.

Lemma is_done_and_run_witness :
  Environment.run TrivialVacuumEnvironment.class 1000
    Sample.dead_agent_at_A Sample.zeros
  = Ok (Sample.dead_agent_at_A, Sample.zeros) /\
  Environment.run_trace TrivialVacuumEnvironment.class (Z.to_nat 1000)
    Sample.dead_agent_at_A Sample.zeros
  = Ok (([], Sample.dead_agent_at_A), Sample.zeros).
Proof.
  apply (proj1 (proj2 (proj2 (is_done_and_run TrivialVacuumEnvironment.class
                                Sample.dead_agent_at_A)))
           0%nat 1000 Sample.zeros); reflexivity.
Defined.

(** ** Default placement (C8) *)

(** C8 (observed behaviour).  [XYEnvironment.default_location] applies
    [random.choice] to the integers [self.width] and [self.height]: on
    every grid, for every object and every state of the generator, the
    call raises [TypeError] and returns no coordinate. *)
Theorem default_location_raises (e : env) (object : ref) (g : RNG) :
  XYEnvironment.default_location e object g = Raise TypeError.
Proof. reflexivity. Qed.

(** Registration without a usable location reaches that call. *)
Lemma XY_add_object_no_location (e : env) (object : ref) (g : RNG) :
  XYEnvironment.add_object e object (Some VNone) g = Raise TypeError.
Proof. reflexivity. Qed.

(** ** Sucking in the grid vacuum world (C9) *)

Lemma upd_ext_at (e : env) (r : ref) (f g : obj -> obj) :
  f (get e r) = g (get e r) -> upd r f e = upd r g e.
Proof.
  intros H. unfold upd, set_heap. f_equal.
  apply list_alter_ext; [|reflexivity].
  intros x Hx. now rewrite (get_lookup _ _ _ Hx) in H.
Qed.

Lemma set_bump_same (o : obj) (b : option bool) :
  bump o = b -> set_bump b o = o.
Proof. intros <-. now destruct o. Qed.

(** One [Suck]: 100 points are added when the cell holds Dirt, one
    point is taken, the flag is cleared, and that is all. *)
Lemma vacuum_suck (e : env) (agent : ref) (loc : pyval) (p : Z)
    (dirty : bool) :
  location (get e agent) = Some loc ->
  performance (get e agent) = Some p ->
  XYEnvironment.find_at e Dirt loc = Ok dirty ->
  VacuumEnvironment.execute_action e agent (VStr "Suck")
  = Ok (upd agent (fun o => set_bump (Some false)
                     (set_performance (Some (p + Reference.suck_gain dirty)) o)) e).
Proof.
  intros Hl Hp Hf. pose proof (performance_valid _ _ _ Hp) as Hv.
  unfold VacuumEnvironment.execute_action.
  change (py_eq (VStr "Suck") (VStr "Suck")) with true. cbv iota.
  rewrite Hl. cbn [attr rbind]. rewrite Hf. cbn [rbind].
  assert (Hxy : forall e0,
    XYEnvironment.execute_action e0 agent (VStr "Suck")
    = Ok (upd agent (set_bump (Some false)) e0)) by reflexivity.
  destruct dirty; cbn [Reference.suck_gain].
  - rewrite (add_performance_ok _ _ p) by assumption. cbn [rbind].
    rewrite (add_performance_ok _ _ (p + 100))
      by (now rewrite get_upd_eq by assumption).
    cbn [rbind]. rewrite Hxy, !upd_upd. f_equal.
    apply upd_ext. intros o. unfold set_bump, set_performance. cbn.
    do 2 f_equal. lia.
  - cbn [rbind]. rewrite (add_performance_ok _ _ p) by assumption.
    cbn [rbind]. rewrite Hxy, !upd_upd. reflexivity.
Qed.

(** C9 (amended).  In the grid vacuum world an agent stands on a cell.
    Then any number [n] of successive [Suck] actions complete; the
    environment they leave differs from the initial one in two slots of
    that agent only: its performance, and its bump flag, which the first
    [Suck] puts down.  When the flag is down already, as the constructor
    of [Agent] and every completed action leave it, the performance is
    all that changes.  The Dirt of the cell, when there is some, is still
    found there.  On a cell that holds Dirt each [Suck] earns
    [100 - 1 = 99] points, without end, and the percept of the agent
    still reads Dirty. *)
Theorem suck_never_cleans
    (e : env) (agent : ref) (loc : pyval) (p : Z) (dirty : bool) (n : nat) :
  location (get e agent) = Some loc ->
  performance (get e agent) = Some p ->
  XYEnvironment.find_at e Dirt loc = Ok dirty ->
  let q := p + Reference.suck_gain dirty * Z.of_nat n in
  let e' := upd agent
              (fun o => set_bump (match n with
                                  | O => bump o
                                  | S _ => Some false
                                  end)
                          (set_performance (Some q) o)) e in
  Reference.perform VacuumEnvironment.execute_action e agent
    (repeat (VStr "Suck") n) = Ok e' /\
  objects e' = objects e /\
  XYEnvironment.find_at e' Dirt loc = Ok dirty /\
  ((0 < n)%nat ->
   VacuumEnvironment.percept e' agent
   = Ok (VTuple [VStr (if dirty then "Dirty" else "Clean"); VStr "None"])) /\
  (dirty = true ->
   performance (get e' agent) = Some (p + 99 * Z.of_nat n)) /\
  (bump (get e agent) = Some false ->
   e' = upd agent (set_performance (Some q)) e).
Proof.
  intros Hl Hp Hf q e'.
  pose proof (performance_valid _ _ _ Hp) as Hv.
  assert (Hfe' : XYEnvironment.find_at e' Dirt loc = Ok dirty)
    by (unfold e'; now rewrite find_at_upd).
  split; [|split; [reflexivity|split; [exact Hfe'|split; [|split]]]].
  - subst e' q. clear Hfe'. revert e p Hl Hp Hf Hv.
    induction n as [|n IH]; intros e p Hl Hp Hf Hv.
    + cbn [repeat Reference.perform]. f_equal. symmetry.
      apply upd_id; [|assumption].
      rewrite Z.mul_0_r, Z.add_0_r, <- Hp. now destruct (get e agent).
    + cbn [repeat Reference.perform].
      rewrite (vacuum_suck e agent loc p dirty) by assumption.
      cbn [rbind].
      rewrite (IH (upd agent (fun o => set_bump (Some false)
                     (set_performance (Some (p + Reference.suck_gain dirty)) o)) e)
                 (p + Reference.suck_gain dirty)).
      * rewrite upd_upd. f_equal. apply upd_ext. intros o.
        destruct n; unfold set_bump, set_performance; cbn;
          do 2 f_equal; lia.
      * now rewrite (get_upd_slot location).
      * now rewrite get_upd_eq.
      * now rewrite find_at_upd.
      * now apply upd_keeps.
  - intros Hn. unfold VacuumEnvironment.percept.
    unfold e' at 1. rewrite (get_upd_slot location), Hl by reflexivity.
    cbn [attr rbind]. rewrite Hfe'. cbn [rbind].
    unfold e'. rewrite get_upd_eq by assumption.
    destruct n; [lia|]. now destruct dirty.
  - intros ->. unfold e', q. now rewrite get_upd_eq.
  - intros Hb. unfold e'. apply upd_ext_at.
    destruct n; apply set_bump_same; [reflexivity|].
    unfold set_performance. cbn. exact Hb.
Qed.

Lemma suck_never_cleans_witness :
  let e := Sample.on_dirt_env in
  let a := Sample.on_dirt_agent in
  let q := 0 + Reference.suck_gain true * Z.of_nat 3 in
  let e' := upd a (fun o => set_bump (Some false)
                              (set_performance (Some q) o)) e in
  Reference.perform VacuumEnvironment.execute_action e a
    (repeat (VStr "Suck") 3) = Ok e' /\
  objects e' = objects e /\
  XYEnvironment.find_at e' Dirt (VTuple [VInt 1; VInt 1]) = Ok true /\
  ((0 < 3)%nat ->
   VacuumEnvironment.percept e' a
   = Ok (VTuple [VStr "Dirty"; VStr "None"])) /\
  (true = true -> performance (get e' a) = Some (0 + 99 * Z.of_nat 3)) /\
  (bump (get e a) = Some false ->
   e' = upd a (set_performance (Some q)) e).
Proof.
  apply (suck_never_cleans Sample.on_dirt_env Sample.on_dirt_agent
           (VTuple [VInt 1; VInt 1]) 0 true 3); reflexivity.
Defined.

(** C9 (counterexample).  The agent stands on the Dirt with its flag
    raised, as [move_to] leaves it against the wall at (0, 1).  One
    [Suck] earns the 99 points, leaves the Dirt, and puts the flag down:
    the percept turns from Bump to None, and the environment is not the
    initial one with another performance. *)
Lemma suck_lowers_raised_flag :
  bump (get Sample.bumped_on_dirt_env Sample.on_dirt_agent) = Some true /\
  VacuumEnvironment.percept Sample.bumped_on_dirt_env Sample.on_dirt_agent
  = Ok (VTuple [VStr "Dirty"; VStr "Bump"]) /\
  exists e',
    VacuumEnvironment.execute_action Sample.bumped_on_dirt_env
      Sample.on_dirt_agent (VStr "Suck") = Ok e' /\
    performance (get e' Sample.on_dirt_agent) = Some 99 /\
    bump (get e' Sample.on_dirt_agent) = Some false /\
    VacuumEnvironment.percept e' Sample.on_dirt_agent
    = Ok (VTuple [VStr "Dirty"; VStr "None"]) /\
    e' <> upd Sample.on_dirt_agent (set_performance (Some 99))
            Sample.bumped_on_dirt_env.
Proof.
  split; [vm_compute; reflexivity|]. split; [vm_compute; reflexivity|].
  exists (match VacuumEnvironment.execute_action Sample.bumped_on_dirt_env
                  Sample.on_dirt_agent (VStr "Suck") with
          | Ok e' => e'
          | Raise _ => Sample.bumped_on_dirt_env
          end).
  split; [vm_compute; reflexivity|]. split; [vm_compute; reflexivity|].
  split; [vm_compute; reflexivity|]. split; [vm_compute; reflexivity|].
  intros H.
  apply (f_equal (fun x => bump (get x Sample.on_dirt_agent))) in H.
  vm_compute in H. discriminate.
Qed.

(** The same through [run]: three ticks of an agent whose program always
    answers Suck leave it with 297 points on a cell still Dirty. *)
Example run_suck_three_ticks :
  match Environment.run VacuumEnvironment.class 3 Sample.on_dirt_env
          Sample.zeros with
  | Ok (e', _) =>
      performance (get e' Sample.on_dirt_agent) = Some 297 /\
      VacuumEnvironment.percept e' Sample.on_dirt_agent
      = Ok (VTuple [VStr "Dirty"; VStr "None"])
  | Raise _ => False
  end.
Proof. vm_compute. split; reflexivity. Qed.

(** ** The default spatial percept (C10) *)

Lemma XY_percept_raises (e : env) (agent : ref) :
  XYEnvironment.percept e agent = Raise TypeError.
Proof. reflexivity. Qed.

Lemma is_done_false_agents (e : env) :
  Environment.is_done e = false ->
  exists a l, agents e = a :: l.
Proof.
  unfold Environment.is_done. destruct (agents e) as [|a l]; [discriminate|].
  eauto.
Qed.

Lemma XY_call_program_raises (e : env) (agent : ref) (g : RNG) :
  exists x, Environment.call_program XYEnvironment.class e agent g = Raise x.
Proof.
  unfold Environment.call_program, bind, lift.
  destruct (attr (program (get e agent))) as [p|x]; eauto.
Qed.

(** A [step] that reaches the first program call raises: [TypeError]
    from the percept when the first agent has a program, as every
    instance of [Agent] has. *)
Lemma XY_step_raises (e : env) (g : RNG) :
  Environment.is_done e = false ->
  exists x, Environment.step XYEnvironment.class e g = Raise x.
Proof.
  intros Hd. destruct (is_done_false_agents e Hd) as (a & l & Hl).
  unfold Environment.step. rewrite Hd, Hl. cbn [negb Environment.collect_actions].
  destruct (XY_call_program_raises e a g) as [x Hx].
  exists x. unfold bind at 1 2. now rewrite Hx.
Qed.

Lemma XY_step_raises_TypeError (e : env) (g : RNG) (a : ref) (l : list ref)
    (p : Program) :
  Environment.is_done e = false ->
  agents e = a :: l ->
  program (get e a) = Some p ->
  Environment.step XYEnvironment.class e g = Raise TypeError.
Proof.
  intros Hd Hl Hp. unfold Environment.step.
  rewrite Hd, Hl. cbn [negb Environment.collect_actions].
  unfold Environment.call_program. rewrite Hp. reflexivity.
Qed.

(** [WumpusEnvironment] inherits the percept, and with it the failure. *)
Lemma Wumpus_step_raises (e : env) (g : RNG) :
  Environment.is_done e = false ->
  exists x, Environment.step WumpusEnvironment.class e g = Raise x.
Proof. apply XY_step_raises. Qed.

(** C10 (as amended).  The default percept of [XYEnvironment] raises
    [TypeError] for every agent in every state, and every [step] of a
    grid environment that keeps this percept and still has a live agent
    raises instead of completing; the exception is that [TypeError] when
    the first registered agent has its program. *)
Theorem default_percept_not_executable (e : env) (g : RNG) :
  (forall agent, XYEnvironment.percept e agent = Raise TypeError) /\
  (Environment.is_done e = false ->
   (exists x, Environment.step XYEnvironment.class e g = Raise x) /\
   (forall a l p,
      agents e = a :: l -> program (get e a) = Some p ->
      Environment.step XYEnvironment.class e g = Raise TypeError)).
Proof.
  split; [intros; apply XY_percept_raises|].
  intros Hd. split; [now apply XY_step_raises|].
  intros a l p. now apply XY_step_raises_TypeError.
Qed.

Lemma default_percept_not_executable_witness :
  Environment.is_done Sample.facing_wall_env = false /\
  Environment.step XYEnvironment.class Sample.facing_wall_env Sample.zeros
  = Raise TypeError.
Proof.
  split; [reflexivity|].
  apply (proj2 (proj2 (default_percept_not_executable
                         Sample.facing_wall_env Sample.zeros) eq_refl)
           Sample.facing_wall_agent [] Sample.forward_program);
    reflexivity.
Defined.

(** C10 (counterexample).  A grid environment without a live agent is
    done, so its [step] never calls [percept] and completes. *)
Lemma step_of_done_grid_completes :
  Environment.step XYEnvironment.class (XYEnvironment.__init__ 10 10)
    Sample.zeros
  = Ok (XYEnvironment.__init__ 10 10, Sample.zeros) /\
  ~ (exists x, Environment.step XYEnvironment.class
                 (XYEnvironment.__init__ 10 10) Sample.zeros = Raise x).
Proof. split; [reflexivity|]. intros [x Hx]. discriminate Hx. Qed.

(** * Further properties *)

(** ** The canvas arithmetic *)

(** X1.  With a cell width other than zero, the top-left corner of a
    cell lies in that cell: [xy_cell] undoes [cell_topleft_xy].  With a
    positive width, the cell that [xy_cell] finds for a point contains
    the point: its corner is at most the point, which is less than one
    width further, in both coordinates.  With width zero [xy_cell]
    raises [ZeroDivisionError]. *)
Theorem xy_cell_topleft (w : Z) :
  (w <> 0 -> forall cell,
     EnvGUI.xy_cell w (EnvGUI.cell_topleft_xy w cell) = Ok cell) /\
  (0 < w -> forall xy, exists cell,
     EnvGUI.xy_cell w xy = Ok cell /\
     fst (EnvGUI.cell_topleft_xy w cell) <= fst xy
       < fst (EnvGUI.cell_topleft_xy w cell) + w /\
     snd (EnvGUI.cell_topleft_xy w cell) <= snd xy
       < snd (EnvGUI.cell_topleft_xy w cell) + w) /\
  (w = 0 -> forall xy, EnvGUI.xy_cell w xy = Raise ZeroDivisionError).
Proof.
  split; [|split].
  - intros Hw [r c]. unfold EnvGUI.xy_cell, EnvGUI.cell_topleft_xy,
      EnvGUI.int_div. cbn [fst snd].
    destruct (Z.eqb_spec w 0) as [|_]; [contradiction|]. cbn [rbind].
    now rewrite !(Z.mul_comm w), !Z.div_mul by assumption.
  - intros Hw [x y]. unfold EnvGUI.xy_cell, EnvGUI.cell_topleft_xy,
      EnvGUI.int_div. cbn [fst snd].
    destruct (Z.eqb_spec w 0) as [|_]; [lia|]. cbn [rbind].
    eexists. split; [reflexivity|]. cbn [fst snd].
    pose proof (Z.mul_div_le x w Hw). pose proof (Z.mul_div_le y w Hw).
    pose proof (Z.mul_succ_div_gt x w Hw).
    pose proof (Z.mul_succ_div_gt y w Hw). lia.
  - intros -> xy. reflexivity.
Qed.

Lemma xy_cell_topleft_witness :
  EnvGUI.xy_cell 50 (EnvGUI.cell_topleft_xy 50 (3, 7)) = Ok (3, 7).
Proof.
  apply (proj1 (xy_cell_topleft 50)). discriminate.
Defined.

(** ** Running in two stages *)

Lemma bind_assoc {A B D} (c : M A) (k : A -> M B) (k' : B -> M D) (g : RNG) :
  bind (bind c k) k' g = bind c (fun a => bind (k a) k') g.
Proof. unfold bind. destruct (c g) as [[a g1]|x]; reflexivity. Qed.

Lemma run_loop_done (C : EnvClass) (n : nat) (e : env) (g : RNG) :
  Environment.is_done e = true -> Environment.run_loop C n e g = Ok (e, g).
Proof.
  intros Hd. destruct n; [reflexivity|]. cbn [Environment.run_loop].
  now rewrite Hd.
Qed.

Lemma run_loop_add (C : EnvClass) (m n : nat) (e : env) (g : RNG) :
  Environment.run_loop C (m + n) e g
  = bind (Environment.run_loop C m e) (Environment.run_loop C n) g.
Proof.
  revert e g. induction m as [|m IH]; intros e g; [reflexivity|].
  cbn [Nat.add Environment.run_loop].
  destruct (Environment.is_done e) eqn:Hd.
  - unfold bind, ret. now rewrite run_loop_done.
  - rewrite bind_assoc. unfold bind at 1 2.
    destruct (Environment.step C e g) as [[e1 g1]|x]; [|reflexivity].
    apply IH.
Qed.

(** X2.  Running an environment for [m] steps and then for [n] more is
    running it for [m + n] steps, in every class and from every state:
    same final environment, same generator state, same exception if one
    is raised. *)
Theorem run_in_two_stages (C : EnvClass) (m n : Z) (e : env) (g : RNG) :
  0 <= m -> 0 <= n ->
  Environment.run C (m + n) e g
  = bind (Environment.run C m e) (Environment.run C n) g.
Proof.
  intros Hm Hn. unfold Environment.run.
  rewrite Z2Nat.inj_add by assumption. apply run_loop_add.
Qed.

Lemma run_in_two_stages_witness :
  Environment.run TrivialVacuumEnvironment.class (1 + 2)
    (Sample.scripted_at loc_A) Sample.zeros
  = bind (Environment.run TrivialVacuumEnvironment.class 1
            (Sample.scripted_at loc_A))
         (Environment.run TrivialVacuumEnvironment.class 2) Sample.zeros.
Proof.
  apply (run_in_two_stages TrivialVacuumEnvironment.class 1 2); lia.
Defined.

(** ** Turning, with the parameters bound as intended *)

Lemma headings_lookup (r : Z) :
  0 <= r < 4 ->
  exists h, headings_default !! Z.to_nat r = Some h /\
            In h headings_default /\
            list_index headings_default h = Ok (Z.to_nat r).
Proof.
  intros Hr.
  assert (Hc : r = 0 \/ r = 1 \/ r = 2 \/ r = 3) by lia.
  destruct Hc as [Hc | [Hc | [Hc | Hc]]]; subst r; eexists;
    (split; [reflexivity|split; [cbn; tauto|reflexivity]]).
Qed.

Lemma turn_heading_at (s : pyval) (i : nat) (h : pyval) (k : Z) :
  list_index headings_default h = Ok i ->
  exists h', turn_heading [s; h; VInt k] = Ok h' /\
             headings_default !! Z.to_nat ((Z.of_nat i + k) mod 4) = Some h' /\
             In h' headings_default /\
             list_index headings_default h'
             = Ok (Z.to_nat ((Z.of_nat i + k) mod 4)).
Proof.
  intros Hi. cbn [turn_heading]. unfold turn_heading_body.
  rewrite Hi. cbn [rbind as_int].
  change (Z.of_nat (length headings_default)) with 4.
  destruct (headings_lookup ((Z.of_nat i + k) mod 4)) as (h' & H1 & H2 & H3);
    [apply Z.mod_pos_bound; lia|].
  exists h'. rewrite H1. auto.
Qed.

Lemma list_index_In (h : pyval) :
  In h headings_default ->
  exists i, list_index headings_default h = Ok i /\
            headings_default !! i = Some h /\ (i < 4)%nat.
Proof.
  cbn. intros [<-|[<-|[<-|[<-|[]]]]]; eexists;
    (split; [reflexivity|split; [reflexivity|lia]]).
Qed.

(** X3.  Called with its three parameters, [turn_heading] acts on the
    four headings as a rotation: the result is again one of the four,
    turning by [k1] and then by [k2] is turning by [k1 + k2], and turning
    by a multiple of four changes nothing (so a turn is undone by the
    opposite turn).  A heading that is none of the four raises
    [ValueError]. *)
Theorem turn_heading_rotation (s1 s2 h : pyval) (k1 k2 : Z) :
  (In h headings_default ->
   exists h1,
     turn_heading [s1; h; VInt k1] = Ok h1 /\
     In h1 headings_default /\
     turn_heading [s2; h1; VInt k2] = turn_heading [s1; h; VInt (k1 + k2)]) /\
  (In h headings_default -> k1 mod 4 = 0 ->
   turn_heading [s1; h; VInt k1] = Ok h) /\
  (list_index headings_default h = Raise ValueError ->
   turn_heading [s1; h; VInt k1] = Raise ValueError).
Proof.
  split; [|split].
  - intros Hin. destruct (list_index_In h Hin) as (i & Hi & _ & _).
    destruct (turn_heading_at s1 i h k1 Hi) as (h1 & H1 & _ & Hin1 & Hi1).
    exists h1. split; [exact H1|]. split; [exact Hin1|].
    destruct (turn_heading_at s2 _ h1 k2 Hi1) as (h2 & H2 & Hl2 & _ & _).
    destruct (turn_heading_at s1 i h (k1 + k2) Hi) as (h3 & H3 & Hl3 & _ & _).
    rewrite H2, H3. f_equal.
    rewrite Z2Nat.id in Hl2 by (apply Z.mod_pos_bound; lia).
    rewrite Z.add_mod_idemp_l, <- Z.add_assoc in Hl2 by lia.
    congruence.
  - intros Hin Hk. destruct (list_index_In h Hin) as (i & Hi & Hl & Hlt).
    destruct (turn_heading_at s1 i h k1 Hi) as (h1 & H1 & Hl1 & _ & _).
    rewrite H1. f_equal.
    replace ((Z.of_nat i + k1) mod 4) with (Z.of_nat i) in Hl1.
    + rewrite Nat2Z.id in Hl1. congruence.
    + rewrite Z.add_mod, Hk, Z.add_0_r, Z.mod_mod by lia.
      symmetry. apply Z.mod_small. lia.
  - intros Hv. cbn [turn_heading]. unfold turn_heading_body. now rewrite Hv.
Qed.

Lemma turn_heading_rotation_witness :
  exists h1,
    turn_heading [VNone; Sample.west; VInt 1] = Ok h1 /\
    In h1 headings_default /\
    turn_heading [VNone; h1; VInt (-1)]
    = turn_heading [VNone; Sample.west; VInt (1 + -1)].
Proof.
  apply (proj1 (turn_heading_rotation VNone VNone Sample.west 1 (-1))).
  cbn. tauto.
Defined.

(** ** Registration in the base class *)

Lemma add_object_result (dl : env -> ref -> M pyval) (e e' : env)
    (object : ref) (location_ : option pyval) (g g' : RNG) :
  Environment.add_object dl e object location_ g = Ok (e', g') ->
  exists l,
    py_or (default VNone location_) (dl e object) g = Ok (l, g') /\
    e' = (let e1 := set_objects (objects e ++ [object])
                      (upd object (set_location (Some l)) e) in
          if isinstance (get e object) Agent
          then set_agents (agents e ++ [object])
                 (upd object (set_performance (Some 0)) e1)
          else e1).
Proof.
  unfold Environment.add_object.
  bind_cases (py_or (default VNone location_) (dl e object)) g Hl;
    [|discriminate].
  assert (Hc : forall x, isinstance (get (set_objects (objects (upd object
                 (set_location (Some x)) e) ++ [object])
                 (upd object (set_location (Some x)) e)) object) Agent
               = isinstance (get e object) Agent).
  { intros x. change (get (set_objects ?l ?y) object) with (get y object).
    unfold isinstance. now rewrite (get_upd_slot cls). }
  rewrite Hc.
  destruct (isinstance (get e object) Agent); unfold ret;
    intros [= <- <-]; exists p; split; reflexivity.
Qed.

(** X4.  A registration through [Environment.add_object] that returns
    has appended the object to [objects] exactly once and, when it is an
    [Agent], once to [agents]; the object has a location, which is the
    explicit one whenever that counts as true; an agent restarts with
    performance 0 whatever it had earned; no other object is touched; and
    when [agents] was the sublist of [objects] made of the agents, it
    still is. *)
Theorem base_registration (dl : env -> ref -> M pyval) (e e' : env)
    (object : ref) (location_ : option pyval) (g g' : RNG) :
  heap e !! object = Some (get e object) ->
  Environment.add_object dl e object location_ g = Ok (e', g') ->
  objects e' = objects e ++ [object] /\
  agents e' = agents e ++
              (if isinstance (get e object) Agent then [object] else []) /\
  (exists l, location (get e' object) = Some l /\
             forall loc, location_ = Some loc -> truthy loc = true ->
                         l = loc /\ g' = g) /\
  (isinstance (get e object) Agent = true ->
   performance (get e' object) = Some 0) /\
  (forall o, o <> object -> get e' o = get e o) /\
  (agents e = Reference.agents_of_objects e ->
   agents e' = Reference.agents_of_objects e').
Proof.
  intros Hv H.
  destruct (Environment_add_object_objects _ _ _ _ _ _ _ H) as [Ho Ha].
  pose proof (fun Hi => Environment_add_object_invariant _ _ _ _ _ _ _ Hi H)
    as Hinv.
  destruct (add_object_result _ _ _ _ _ _ _ H) as (l & Hl & ->).
  split; [exact Ho|]. split; [exact Ha|].
  cbv zeta. split; [|split; [|split; [|exact Hinv]]].
  - exists l. split.
    + destruct (isinstance (get e object) Agent).
      * change (get (set_agents ?x ?y) object) with (get y object).
        rewrite (get_upd_slot location) by reflexivity.
        change (get (set_objects ?x ?y) object) with (get y object).
        now rewrite get_upd_eq.
      * change (get (set_objects ?x ?y) object) with (get y object).
        now rewrite get_upd_eq.
    + intros loc -> Ht. revert Hl. unfold py_or. cbn [default from_option id].
      rewrite Ht. unfold ret. now intros [= -> ->].
  - intros ->.
    change (get (set_agents ?x ?y) object) with (get y object).
    rewrite get_upd_eq; [reflexivity|].
    change (heap (set_objects ?x ?y)) with (heap y).
    change (get (set_objects ?x ?y) object) with (get y object).
    now apply upd_keeps.
  - intros o Hne. destruct (isinstance (get e object) Agent).
    + change (get (set_agents ?x ?y) o) with (get y o).
      rewrite get_upd, decide_False by congruence.
      change (get (set_objects ?x ?y) o) with (get y o).
      now rewrite get_upd, decide_False by congruence.
    + change (get (set_objects ?x ?y) o) with (get y o).
      now rewrite get_upd, decide_False by congruence.
Qed.

Lemma base_registration_witness :
  let e := Sample.both_dirty in
  let a := fst (alloc new_ReflexVacuumAgent e) in
  let e1 := snd (alloc new_ReflexVacuumAgent e) in
  let e' := Sample.dirty_agent_at_B in
  objects e' = objects e1 ++ [a] /\
  agents e' = agents e1 ++
              (if isinstance (get e1 a) Agent then [a] else []) /\
  (exists l, location (get e' a) = Some l /\
             forall loc, Some loc_B = Some loc -> truthy loc = true ->
                         l = loc /\ Sample.zeros = Sample.zeros) /\
  (isinstance (get e1 a) Agent = true ->
   performance (get e' a) = Some 0) /\
  (forall o, o <> a -> get e' o = get e1 o) /\
  (agents e1 = Reference.agents_of_objects e1 ->
   agents e' = Reference.agents_of_objects e').
Proof.
  apply (base_registration TrivialVacuumEnvironment.default_location
           (snd (alloc new_ReflexVacuumAgent Sample.both_dirty))
           Sample.dirty_agent_at_B 0%nat (Some loc_B)
           Sample.zeros Sample.zeros); reflexivity.
Defined.

(** ** The two-location world: what the constructor draws *)

Lemma random_choice_member (l : list pyval) (g : RNG) :
  l <> [] ->
  exists v, In v l /\
            random_choice (VList l) g = Ok (v, fun n => g (S n)).
Proof.
  intros Hl. unfold random_choice, bind, random.
  assert (Hlt : (g 0%nat mod length l < length l)%nat).
  { apply Nat.mod_upper_bound. destruct l; [congruence|discriminate]. }
  destruct (lookup_lt_is_Some_2 _ _ Hlt) as [v Hv].
  exists v. rewrite Hv. split; [|reflexivity].
  apply list_elem_of_In. eapply list_elem_of_lookup_2. exact Hv.
Qed.

Lemma random_choice_reaches (l : list pyval) (i : nat) (v : pyval)
    (g : RNG) :
  l !! i = Some v ->
  random_choice (VList l) (next_draw i g) = Ok (v, g).
Proof.
  intros Hv. unfold random_choice, bind, random, next_draw.
  rewrite Nat.mod_small by (eapply lookup_lt_Some; exact Hv).
  now rewrite Hv.
Qed.

Lemma default_location_member (e : env) (o : ref) (g : RNG) :
  exists l,
    TrivialVacuumEnvironment.default_location e o g
    = Ok (l, fun n => g (S n)) /\
    TwoLocations.is_location l.
Proof.
  unfold TrivialVacuumEnvironment.default_location.
  destruct (random_choice_member [loc_A; loc_B] g) as (l & Hl & H1);
    [discriminate|].
  exists l. split; [exact H1|]. unfold TwoLocations.is_location.
  cbn in Hl. intuition.
Qed.

(** X5.  Whatever the state of the generator, the constructor of the
    two-location world returns: no object, no agent, and a dictionary
    with the two keys A and B, each Clean or Dirty; the default location
    of an object is A or B.  Every one of the four worlds and each of the
    two locations is drawn for some state of the generator. *)
Theorem two_location_draws (g : RNG) :
  (exists sa sb,
     TrivialVacuumEnvironment.__init__ g
     = Ok (TwoLocations.world sa sb, fun n => g (S (S n))) /\
     TwoLocations.is_status sa /\ TwoLocations.is_status sb) /\
  (forall e o, exists l,
     TrivialVacuumEnvironment.default_location e o g
     = Ok (l, fun n => g (S n)) /\
     TwoLocations.is_location l) /\
  (forall sa sb, TwoLocations.is_status sa -> TwoLocations.is_status sb ->
     exists g0, TrivialVacuumEnvironment.__init__ g0
                = Ok (TwoLocations.world sa sb, g)) /\
  (forall e o l, TwoLocations.is_location l ->
     exists g0, TrivialVacuumEnvironment.default_location e o g0 = Ok (l, g)).
Proof.
  split; [|split; [|split]].
  - unfold TrivialVacuumEnvironment.__init__.
    destruct (random_choice_member [VStr "Clean"; VStr "Dirty"] g)
      as (sa & Ha & H1); [discriminate|].
    destruct (random_choice_member [VStr "Clean"; VStr "Dirty"]
                (fun n => g (S n))) as (sb & Hb & H2); [discriminate|].
    exists sa, sb. rewrite (bind_ok _ _ _ _ _ H1), (bind_ok _ _ _ _ _ H2).
    split; [reflexivity|]. unfold TwoLocations.is_status.
    cbn in Ha, Hb. intuition.
  - intros e o. apply default_location_member.
  - intros sa sb Ha Hb.
    assert (Hi : forall s, TwoLocations.is_status s ->
              exists i, [VStr "Clean"; VStr "Dirty"] !! i = Some s).
    { intros s [->| ->]; [now exists 0%nat|now exists 1%nat]. }
    destruct (Hi sa Ha) as [i Hia]. destruct (Hi sb Hb) as [j Hjb].
    exists (next_draw i (next_draw j g)).
    unfold TrivialVacuumEnvironment.__init__.
    rewrite (bind_ok _ _ _ _ _ (random_choice_reaches _ i sa _ Hia)).
    rewrite (bind_ok _ _ _ _ _ (random_choice_reaches _ j sb g Hjb)).
    reflexivity.
  - intros e o l Hl.
    assert (Hi : exists i, [loc_A; loc_B] !! i = Some l).
    { destruct Hl as [->| ->]; [now exists 0%nat|now exists 1%nat]. }
    destruct Hi as [i Hi]. exists (next_draw i g).
    unfold TrivialVacuumEnvironment.default_location.
    apply (random_choice_reaches _ i l g Hi).
Qed.

Lemma two_location_draws_witness :
  exists g0, TrivialVacuumEnvironment.__init__ g0
             = Ok (TwoLocations.world (VStr "Dirty") (VStr "Dirty"),
                   Sample.zeros).
Proof.
  apply (proj1 (proj2 (proj2 (two_location_draws Sample.zeros)))
           (VStr "Dirty") (VStr "Dirty")); right; reflexivity.
Defined.

(** ** The two-location world never raises *)

Lemma well_formed_agent_ok (e : env) :
  TwoLocations.well_formed e <->
  (exists sa sb, status e = [(loc_A, sa); (loc_B, sb)]) /\
  forall a, In a (agents e) -> agent_ok (get e a).
Proof. reflexivity. Qed.

Lemma well_formed_upd (e : env) (a : ref) (f : obj -> obj) :
  TwoLocations.well_formed e ->
  (forall x, agent_ok x -> agent_ok (f x)) ->
  TwoLocations.well_formed (upd a f e).
Proof.
  intros [Hs Ha] Hf. split; [exact Hs|].
  change (agents (upd a f e)) with (agents e).
  intros b Hb. specialize (Ha b Hb). fold (agent_ok (get e b)) in Ha.
  fold (agent_ok (get (upd a f e) b)).
  rewrite get_upd. destruct (decide (a = b)) as [->|]; [|exact Ha].
  unfold get in Ha. destruct (heap e !! b); [now apply Hf|exact Ha].
Qed.

Lemma agent_ok_valid (e : env) (a : ref) :
  agent_ok (get e a) -> heap e !! a = Some (get e a).
Proof. intros [_ [p Hp]]. now apply (performance_valid _ _ p). Qed.

Lemma status_lookup (sa sb l : pyval) :
  TwoLocations.is_location l ->
  exists st, dict_get [(loc_A, sa); (loc_B, sb)] l = Ok st /\
             (st = sa \/ st = sb) /\
             exists sa' sb',
               dict_set [(loc_A, sa); (loc_B, sb)] l (VStr "Clean")
               = Ok [(loc_A, sa'); (loc_B, sb')].
Proof.
  intros [->| ->]; eexists; (split; [reflexivity|]); (split; [tauto|]);
    do 2 eexists; reflexivity.
Qed.

Lemma trivial_action_safe (e : env) (a : ref) (action : pyval) :
  TwoLocations.well_formed e -> In a (agents e) ->
  exists e', TrivialVacuumEnvironment.execute_action e a action = Ok e' /\
             TwoLocations.well_formed e' /\ agents e' = agents e.
Proof.
  intros Hwf Ha. pose proof Hwf as [[sa [sb Hs]] Hag].
  destruct (Hag a Ha) as [[l [Hl Hloc]] [p Hp]].
  assert (Hmove : forall target, TwoLocations.is_location target ->
    exists e', add_performance (upd a (set_location (Some target)) e) a (-1)
               = Ok e' /\
               TwoLocations.well_formed e' /\ agents e' = agents e).
  { intros target Ht. rewrite (add_performance_ok _ _ p)
      by now rewrite (get_upd_slot performance).
    eexists. split; [reflexivity|]. split; [|reflexivity].
    rewrite upd_upd. apply well_formed_upd; [exact Hwf|].
    intros x [_ [q Hq]]. split; [exists target; now split|now exists (p + -1)]. }
  unfold TrivialVacuumEnvironment.execute_action.
  destruct (py_eq action (VStr "Right")); [apply Hmove; now right|].
  destruct (py_eq action (VStr "Left")); [apply Hmove; now left|].
  destruct (py_eq action (VStr "Suck")); [|now exists e].
  rewrite Hl. cbn [attr rbind]. rewrite Hs.
  destruct (status_lookup sa sb l Hloc) as (st & Hg & _ & sa' & sb' & Hset).
  rewrite Hg. cbn [rbind].
  assert (Hset' : forall e1, status e1 = status e ->
            location (get e1 a) = Some l ->
            TwoLocations.well_formed e1 -> agents e1 = agents e ->
            exists e', (let? loc1 := attr (location (get e1 a)) in
                        let? d := dict_set (status e1) loc1 (VStr "Clean") in
                        Ok (set_status d e1)) = Ok e' /\
                       TwoLocations.well_formed e' /\ agents e' = agents e).
  { intros e1 H1 H2 [_ H3] H4. rewrite H2. cbn [attr rbind].
    rewrite H1, Hs, Hset. cbn [rbind]. eexists. split; [reflexivity|].
    split; [|exact H4]. split; [now exists sa', sb'|exact H3]. }
  destruct (py_eq st (VStr "Dirty")).
  - rewrite (add_performance_ok _ _ p) by assumption. cbn [rbind].
    apply Hset'; [reflexivity| |
                  |reflexivity].
    + now rewrite (get_upd_slot location).
    + apply well_formed_upd; [exact Hwf|].
      intros x [Hx _]. split; [exact Hx|now exists (p + 10)].
  - cbn [rbind]. now apply Hset'.
Qed.

(** X6.  A two-location world as its constructor leaves it is
    well formed: the dictionary has the keys A and B, and every agent
    stands at A or B and has a performance.  Registering an object
    without a location keeps the world well formed, and so does every
    action of a registered agent, whatever value the action is; in a
    well-formed world neither [percept] nor [execute_action] raises. *)
Theorem two_location_safety :
  (forall sa sb, TwoLocations.well_formed (TwoLocations.world sa sb)) /\
  (forall e o g,
     TwoLocations.well_formed e ->
     exists e' g',
       self_add_object TrivialVacuumEnvironment.class e o None g
       = Ok (e', g') /\
       TwoLocations.well_formed e') /\
  (forall e a,
     TwoLocations.well_formed e -> In a (agents e) ->
     (exists l st,
        TrivialVacuumEnvironment.percept e a = Ok (VTuple [l; st])) /\
     forall action, exists e',
       TrivialVacuumEnvironment.execute_action e a action = Ok e' /\
       TwoLocations.well_formed e' /\ agents e' = agents e).
Proof.
  split; [|split].
  - intros sa sb. split; [now exists sa, sb|]. intros a [].
  - intros e o g Hwf. cbn [self_add_object TrivialVacuumEnvironment.class].
    destruct (default_location_member e o g) as (l & Hd & Hl).
    assert (Hor : py_or (default VNone None)
                    (TrivialVacuumEnvironment.default_location e o) g
                  = Ok (l, fun n => g (S n))) by exact Hd.
    unfold Environment.add_object. rewrite (bind_ok _ _ _ _ _ Hor).
    assert (Hwf1 : TwoLocations.well_formed
                     (set_objects (objects (upd o (set_location (Some l)) e)
                                   ++ [o])
                        (upd o (set_location (Some l)) e))).
    { apply (well_formed_upd e o (set_location (Some l)) Hwf).
      intros x [_ Hp]. split; [exists l; now split|exact Hp]. }
    destruct (isinstance _ Agent) eqn:Hi; unfold ret; do 2 eexists;
      (split; [reflexivity|]); [|exact Hwf1].
    set (e1 := set_objects _ _) in *.
    assert (Hv : heap e1 !! o = Some (get e1 o)).
    { unfold get. destruct (heap e1 !! o) eqn:Ho; [reflexivity|].
      unfold isinstance, get in Hi. rewrite Ho in Hi. discriminate. }
    assert (Hloc : location (get e1 o) = Some l).
    { unfold e1. change (get (set_objects ?x ?y) o) with (get y o).
      rewrite get_upd. rewrite decide_True by reflexivity.
      unfold e1 in Hv. change (heap (set_objects ?x ?y)) with (heap y) in Hv.
      unfold upd, set_heap in Hv. cbn [heap] in Hv.
      rewrite list_lookup_alter_eq in Hv.
      destruct (heap e !! o); [reflexivity|discriminate]. }
    destruct (well_formed_upd e1 o (set_performance (Some 0)) Hwf1)
      as [Hs Hag].
    { intros x [Hx _]. split; [exact Hx|now exists 0]. }
    split; [exact Hs|]. cbn [agents set_agents].
    change (agents (upd o (set_performance (Some 0)) e1)) with (agents e1).
    intros b Hb. apply in_app_or in Hb. destruct Hb as [Hb|[<-|[]]].
    + apply (Hag b Hb).
    + change (get (set_agents ?x ?y) o) with (get y o).
      rewrite get_upd_eq by exact Hv. split.
      * exists l. now split.
      * now exists 0.
  - intros e a Hwf Ha. split; [|intros action; now apply trivial_action_safe].
    destruct Hwf as [[sa [sb Hs]] Hag].
    destruct (Hag a Ha) as [[l [Hl Hloc]] _].
    unfold TrivialVacuumEnvironment.percept. rewrite Hl. cbn [attr rbind].
    rewrite Hs. destruct (status_lookup sa sb l Hloc) as (st & Hg & _).
    rewrite Hg. now exists l, st.
Qed.

Lemma two_location_safety_witness :
  exists e', TrivialVacuumEnvironment.execute_action Sample.dirty_agent_at_A
               0%nat (VStr "NoOp") = Ok e' /\
             TwoLocations.well_formed e' /\
             agents e' = agents Sample.dirty_agent_at_A.
Proof.
  refine (proj2 (proj2 (proj2 two_location_safety)
                   Sample.dirty_agent_at_A 0%nat _ _) (VStr "NoOp")).
  - split; [do 2 eexists; reflexivity|].
    intros a [<-|[]]. split.
    + exists loc_A. split; [reflexivity|now left].
    + now exists 0.
  - left. reflexivity.
Defined.

(** ** The status dictionary *)

Lemma dict_find_store (d : list (pyval * pyval)) (k v st : pyval) :
  dict_find d k = Some st -> dict_find (dict_store d k v) k = Some v.
Proof.
  induction d as [|[k' v'] d IH]; [discriminate|].
  cbn [dict_find dict_store]. destruct (py_eq k' k) eqn:Hk.
  - intros _. cbn [dict_find]. now rewrite Hk.
  - intros H. cbn [dict_find]. rewrite Hk. now apply IH.
Qed.

Lemma dict_store_twice (d : list (pyval * pyval)) (k v st : pyval) :
  dict_find d k = Some st ->
  dict_store (dict_store d k v) k v = dict_store d k v.
Proof.
  induction d as [|[k' v'] d IH]; [discriminate|].
  cbn [dict_find dict_store]. destruct (py_eq k' k) eqn:Hk.
  - intros _. cbn [dict_store]. now rewrite Hk.
  - intros H. cbn [dict_store]. rewrite Hk. f_equal. now apply IH.
Qed.

Lemma dict_get_found (d : list (pyval * pyval)) (k st : pyval) :
  dict_get d k = Ok st -> hashable k = true /\ dict_find d k = Some st.
Proof.
  unfold dict_get. destruct (hashable k); [|discriminate].
  destruct (dict_find d k); [|discriminate]. now intros [= ->].
Qed.

Lemma set_status_same (e : env) : set_status (status e) e = e.
Proof. now destruct e. Qed.

(** X7.  In the two-location world, after a [Suck] the percept of the
    agent reads Clean for the location it stands on, and a second [Suck]
    changes nothing at all: it returns the very same environment, so only
    the first one can earn the ten points. *)
Theorem suck_then_percept (e : env) (agent : ref) (p : Z) (loc st : pyval) :
  performance (get e agent) = Some p ->
  location (get e agent) = Some loc ->
  dict_get (status e) loc = Ok st ->
  exists e1,
    TrivialVacuumEnvironment.execute_action e agent (VStr "Suck") = Ok e1 /\
    TrivialVacuumEnvironment.percept e1 agent
    = Ok (VTuple [loc; VStr "Clean"]) /\
    TrivialVacuumEnvironment.execute_action e1 agent (VStr "Suck") = Ok e1.
Proof.
  intros Hp Hl Hd. destruct (dict_get_found _ _ _ Hd) as [Hh Hf].
  destruct (trivial_suck e agent p loc st Hp Hl Hd)
    as (e1 & H1 & Hl1 & Hp1 & Hs1).
  assert (Hd1 : dict_get (status e1) loc = Ok (VStr "Clean")).
  { unfold dict_get. rewrite Hh, Hs1. now rewrite (dict_find_store _ _ _ st). }
  exists e1. split; [exact H1|]. split.
  - unfold TrivialVacuumEnvironment.percept. rewrite Hl1. cbn [attr rbind].
    now rewrite Hd1.
  - unfold TrivialVacuumEnvironment.execute_action.
    change (py_eq (VStr "Suck") (VStr "Right")) with false.
    change (py_eq (VStr "Suck") (VStr "Left")) with false.
    change (py_eq (VStr "Suck") (VStr "Suck")) with true.
    cbv iota. rewrite Hl1. cbn [attr rbind]. rewrite Hd1. cbn [rbind].
    change (py_eq (VStr "Clean") (VStr "Dirty")) with false. cbv iota.
    cbn [rbind]. rewrite Hl1. cbn [attr rbind]. unfold dict_set.
    rewrite Hh. cbn [rbind]. rewrite Hs1.
    rewrite (dict_store_twice _ _ _ st) by exact Hf.
    rewrite <- Hs1. now rewrite set_status_same.
Qed.

Lemma suck_then_percept_witness :
  exists e1,
    TrivialVacuumEnvironment.execute_action Sample.dirty_agent_at_B 0%nat
      (VStr "Suck") = Ok e1 /\
    TrivialVacuumEnvironment.percept e1 0%nat
    = Ok (VTuple [loc_B; VStr "Clean"]) /\
    TrivialVacuumEnvironment.execute_action e1 0%nat (VStr "Suck") = Ok e1.
Proof.
  apply (suck_then_percept Sample.dirty_agent_at_B 0%nat 0 loc_B
           (VStr "Dirty")); reflexivity.
Defined.

(** ** An agent outside the two locations *)

(** X8.  When the first registered agent of a two-location world that is
    not done stands at a location that is no key of the status
    dictionary (an explicit location other than A and B was given at
    registration), its percept raises [KeyError], and so do its [Suck]
    and every [step] of the environment. *)
Theorem outside_two_locations (e : env) (a : ref) (rest : list ref)
    (p : Program) (loc : pyval) (g : RNG) :
  agents e = a :: rest ->
  Environment.is_done e = false ->
  program (get e a) = Some p ->
  location (get e a) = Some loc ->
  hashable loc = true ->
  dict_find (status e) loc = None ->
  TrivialVacuumEnvironment.percept e a = Raise KeyError /\
  TrivialVacuumEnvironment.execute_action e a (VStr "Suck") = Raise KeyError /\
  Environment.step TrivialVacuumEnvironment.class e g = Raise KeyError.
Proof.
  intros Ha Hd Hp Hl Hh Hf.
  assert (Hg : dict_get (status e) loc = Raise KeyError).
  { unfold dict_get. now rewrite Hh, Hf. }
  assert (Hpc : TrivialVacuumEnvironment.percept e a = Raise KeyError).
  { unfold TrivialVacuumEnvironment.percept. rewrite Hl. cbn [attr rbind].
    now rewrite Hg. }
  split; [exact Hpc|]. split.
  - unfold TrivialVacuumEnvironment.execute_action.
    change (py_eq (VStr "Suck") (VStr "Right")) with false.
    change (py_eq (VStr "Suck") (VStr "Left")) with false.
    change (py_eq (VStr "Suck") (VStr "Suck")) with true.
    cbv iota. rewrite Hl. cbn [attr rbind]. now rewrite Hg.
  - unfold Environment.step. rewrite Hd, Ha.
    cbn [negb Environment.collect_actions]. unfold Environment.call_program.
    rewrite Hp. cbn [self_percept TrivialVacuumEnvironment.class].
    now rewrite Hpc.
Qed.

Lemma outside_two_locations_witness :
  let e := fst (Sample.with_agent_at Sample.both_dirty
                  (VTuple [VInt 1; VInt 1])) in
  TrivialVacuumEnvironment.percept e 0%nat = Raise KeyError /\
  TrivialVacuumEnvironment.execute_action e 0%nat (VStr "Suck")
  = Raise KeyError /\
  Environment.step TrivialVacuumEnvironment.class e Sample.zeros
  = Raise KeyError.
Proof.
  apply (outside_two_locations
           (fst (Sample.with_agent_at Sample.both_dirty
                   (VTuple [VInt 1; VInt 1])))
           0%nat [] (mkProgram VNone reflex_vacuum_program)
           (VTuple [VInt 1; VInt 1]) Sample.zeros); reflexivity.
Defined.

(** ** What an action of the grid environment can change *)

Lemma upd_same (e : env) (a : ref) : upd a (fun o => o) e = e.
Proof.
  unfold upd, set_heap. destruct e as [hp ob ag w ht st].
  cbn [heap objects agents width height status]. f_equal.
  now apply list_alter_id.
Qed.

(** Every outcome of [XYEnvironment.execute_action] is an update of the
    acting agent that leaves its class, program, liveness, performance
    and [held] slot alone and puts the flag down. *)
Lemma XY_execute_shape (e e' : env) (a : ref) (action : pyval) :
  XYEnvironment.execute_action e a action = Ok e' ->
  exists f, e' = upd a f e /\
            forall x, cls (f x) = cls x /\ program (f x) = program x /\
                      alive (f x) = alive x /\
                      performance (f x) = performance x /\
                      held (f x) = held x /\ bump (f x) = Some false.
Proof.
  unfold XYEnvironment.execute_action.
  match goal with
  | |- rbind ?c _ = _ -> _ => destruct c as [e1|x] eqn:He1
  end; [|discriminate].
  cbn [rbind]. intros [= <-].
  assert (H1 : exists f1, e1 = upd a f1 e /\
            forall x, cls (f1 x) = cls x /\ program (f1 x) = program x /\
                      alive (f1 x) = alive x /\
                      performance (f1 x) = performance x /\
                      held (f1 x) = held x).
  { revert He1.
    repeat match goal with
    | |- (if ?b then _ else _) = _ -> _ => destruct b
    | |- rbind ?c _ = _ -> _ => destruct c; cbn [rbind]; [|discriminate]
    | |- match ?l with [] => _ | _ :: _ => _ end = _ -> _ => destruct l
    | |- Raise _ = Ok _ -> _ => discriminate
    | |- Ok _ = Ok _ -> _ => intros [= <-]
    | |- XYEnvironment.move_to _ _ _ = _ -> _ => unfold XYEnvironment.move_to
    end; rewrite ?upd_upd;
    try (eexists; split; [reflexivity|]; intros x; repeat split).
    all: exists (fun o => o); split; [now rewrite upd_same|];
      intros x; repeat split. }
  destruct H1 as (f1 & -> & Hf1). rewrite upd_upd.
  eexists. split; [reflexivity|]. intros x.
  destruct (Hf1 x) as (? & ? & ? & ? & ?). repeat split; assumption.
Qed.

(** X9.  An action of the grid environment that completes changes the
    acting agent only: the lists [objects] and [agents], the size of the
    grid and every other object are as before; of the agent itself, the
    class, the program, the liveness and the performance are as before,
    and the bump flag is down.  In particular no action adds, removes or
    moves another object. *)
Theorem grid_action_frame (e e' : env) (a : ref) (action : pyval) :
  XYEnvironment.execute_action e a action = Ok e' ->
  objects e' = objects e /\ agents e' = agents e /\
  width e' = width e /\ height e' = height e /\
  length (heap e') = length (heap e) /\
  (forall o, o <> a -> get e' o = get e o) /\
  cls (get e' a) = cls (get e a) /\
  program (get e' a) = program (get e a) /\
  alive (get e' a) = alive (get e a) /\
  performance (get e' a) = performance (get e a) /\
  (is_Some (heap e !! a) -> bump (get e' a) = Some false).
Proof.
  intros H. destruct (XY_execute_shape _ _ _ _ H) as (f & -> & Hf).
  repeat split; try reflexivity.
  - unfold upd, set_heap. cbn [heap]. apply length_alter.
  - intros o Hne. now rewrite get_upd, decide_False by congruence.
  - apply (get_upd_slot cls). intros x. apply Hf.
  - apply (get_upd_slot program). intros x. apply Hf.
  - apply (get_upd_slot alive). intros x. apply Hf.
  - apply (get_upd_slot performance). intros x. apply Hf.
  - intros [o Ho]. rewrite get_upd, decide_True, Ho by reflexivity. apply Hf.
Qed.

Lemma grid_action_frame_witness :
  let e := Sample.facing_wall_env in
  let a := Sample.facing_wall_agent in
  let e' := upd a (set_bump (Some false)) e in
  objects e' = objects e /\ agents e' = agents e /\
  width e' = width e /\ height e' = height e /\
  length (heap e') = length (heap e) /\
  (forall o, o <> a -> get e' o = get e o) /\
  cls (get e' a) = cls (get e a) /\
  program (get e' a) = program (get e a) /\
  alive (get e' a) = alive (get e a) /\
  performance (get e' a) = performance (get e a) /\
  (is_Some (heap e !! a) -> bump (get e' a) = Some false).
Proof.
  apply (grid_action_frame Sample.facing_wall_env _
           Sample.facing_wall_agent (VStr "Forward")).
  reflexivity.
Defined.

(** ** Scoring and perceiving in the grid vacuum world *)

Lemma vacuum_execute_stages (e e' : env) (a : ref) (action : pyval) :
  VacuumEnvironment.execute_action e a action = Ok e' ->
  exists gain p f,
    performance (get e a) = Some p /\
    e' = upd a f (upd a (set_performance (Some (p + gain))) e) /\
    (gain = -1 \/
     gain = 99 /\ py_eq action (VStr "Suck") = true /\
     exists loc, location (get e a) = Some loc /\
                 XYEnvironment.find_at e Dirt loc = Ok true) /\
    forall x, performance (f x) = performance x /\ bump (f x) = Some false.
Proof.
  unfold VacuumEnvironment.execute_action.
  assert (Hplain : forall e0,
    (let? e2 := add_performance e0 a (-1) in
     XYEnvironment.execute_action e2 a action) = Ok e' ->
    exists p f, performance (get e0 a) = Some p /\
                e' = upd a f (upd a (set_performance (Some (p + -1))) e0) /\
                forall x, performance (f x) = performance x /\
                          bump (f x) = Some false).
  { intros e0. unfold add_performance.
    destruct (performance (get e0 a)) as [p|]; [|discriminate].
    cbn [attr rbind]. intros H.
    destruct (XY_execute_shape _ _ _ _ H) as (f & -> & Hf).
    exists p, f. split; [reflexivity|]. split; [reflexivity|].
    intros x. destruct (Hf x) as (_ & _ & _ & ? & _ & ?). now split. }
  destruct (py_eq action (VStr "Suck")) eqn:Hs.
  - destruct (attr (location (get e a))) as [loc|] eqn:Hl; [|discriminate].
    cbn [rbind].
    destruct (XYEnvironment.find_at e Dirt loc) as [[|]|] eqn:Hf;
      [| |discriminate]; cbn [rbind].
    + unfold add_performance at 1.
      destruct (performance (get e a)) as [p|] eqn:Hp; [|discriminate].
      cbn [attr rbind]. intros H.
      destruct (Hplain _ H) as (q & f & Hq & -> & Hf').
      pose proof (performance_valid _ _ _ Hp) as Hv.
      rewrite get_upd_eq in Hq by exact Hv. injection Hq as <-.
      exists 99, p, f. split; [reflexivity|]. split.
      * f_equal. rewrite upd_upd. apply upd_ext. intros o.
        unfold set_performance. cbn. do 2 f_equal. lia.
      * split; [|exact Hf']. right. split; [reflexivity|].
        split; [reflexivity|]. exists loc. split; [|exact Hf].
        unfold attr in Hl. destruct (location (get e a)); congruence.
    + intros H. destruct (Hplain _ H) as (p & f & Hp & -> & Hf').
      exists (-1), p, f. auto.
  - cbn [rbind]. intros H. destruct (Hplain _ H) as (p & f & Hp & -> & Hf').
    exists (-1), p, f. auto.
Qed.

(** X10.  In the grid vacuum world every action that completes costs the
    agent exactly one point, whatever the action is, a blocked [Forward]
    and an unknown action included; the only gain is the 100 points of a
    [Suck] on a cell that holds Dirt, which makes 99. *)
Theorem vacuum_action_cost (e e' : env) (a : ref) (action : pyval) (p : Z) :
  performance (get e a) = Some p ->
  VacuumEnvironment.execute_action e a action = Ok e' ->
  exists gain,
    performance (get e' a) = Some (p + gain) /\
    (gain = -1 \/
     gain = 99 /\ py_eq action (VStr "Suck") = true /\
     exists loc, location (get e a) = Some loc /\
                 XYEnvironment.find_at e Dirt loc = Ok true) /\
    (py_eq action (VStr "Suck") = false -> gain = -1).
Proof.
  intros Hp H.
  destruct (vacuum_execute_stages _ _ _ _ H) as (gain & q & f & Hq & -> & Hg & Hf).
  assert (q = p) as -> by congruence.
  pose proof (performance_valid _ _ _ Hp) as Hv.
  exists gain. split; [|split; [exact Hg|]].
  - rewrite upd_upd, get_upd_eq by exact Hv.
    destruct (Hf (set_performance (Some (p + gain)) (get e a))) as [-> _].
    reflexivity.
  - intros Hs. destruct Hg as [Hg|(_ & Hg & _)]; [exact Hg|congruence].
Qed.

Lemma vacuum_action_cost_witness :
  exists gain,
    performance (get (upd Sample.on_dirt_agent
                        (fun o => set_bump (Some false)
                                    (set_performance (Some (0 + -1)) o))
                        Sample.on_dirt_env) Sample.on_dirt_agent)
    = Some (0 + gain) /\
    (gain = -1 \/
     gain = 99 /\ py_eq (VStr "NoOp") (VStr "Suck") = true /\
     exists loc, location (get Sample.on_dirt_env Sample.on_dirt_agent)
                 = Some loc /\
                 XYEnvironment.find_at Sample.on_dirt_env Dirt loc = Ok true) /\
    (py_eq (VStr "NoOp") (VStr "Suck") = false -> gain = -1).
Proof.
  refine (vacuum_action_cost Sample.on_dirt_env
            (upd Sample.on_dirt_agent
               (fun o => set_bump (Some false)
                           (set_performance (Some (0 + -1)) o))
               Sample.on_dirt_env)
            Sample.on_dirt_agent (VStr "NoOp") 0 _ _);
    vm_compute; reflexivity.
Defined.

(** X11.  In the grid vacuum world the percept that follows a completed
    action of an agent never reads Bump: its second component is the
    string None, also after a [Forward] that an obstacle has blocked. *)
Theorem bump_is_never_perceived (e e' : env) (a : ref) (action pc : pyval) :
  VacuumEnvironment.execute_action e a action = Ok e' ->
  VacuumEnvironment.percept e' a = Ok pc ->
  pc = VTuple [VStr "Dirty"; VStr "None"] \/
  pc = VTuple [VStr "Clean"; VStr "None"].
Proof.
  intros H Hpc.
  destruct (vacuum_execute_stages _ _ _ _ H) as (gain & p & f & Hp & -> & _ & Hf).
  pose proof (performance_valid _ _ _ Hp) as Hv.
  revert Hpc. unfold VacuumEnvironment.percept.
  destruct (attr (location _)) as [loc|]; [|discriminate]. cbn [rbind].
  destruct (XYEnvironment.find_at _ Dirt loc) as [dirty|]; [|discriminate].
  cbn [rbind]. rewrite upd_upd, get_upd_eq by exact Hv.
  destruct (Hf (set_performance (Some (p + gain)) (get e a))) as [_ ->].
  cbn [attr rbind utils.if_]. intros [= <-]. destruct dirty; auto.
Qed.

Lemma bump_is_never_perceived_witness :
  VTuple [VStr "Clean"; VStr "None"] = VTuple [VStr "Dirty"; VStr "None"] \/
  VTuple [VStr "Clean"; VStr "None"] = VTuple [VStr "Clean"; VStr "None"].
Proof.
  refine (bump_is_never_perceived Sample.facing_wall_env
            (match VacuumEnvironment.execute_action Sample.facing_wall_env
                     Sample.facing_wall_agent (VStr "Forward") with
             | Ok e' => e'
             | Raise _ => Sample.facing_wall_env
             end)
            Sample.facing_wall_agent (VStr "Forward")
            (VTuple [VStr "Clean"; VStr "None"]) _ _);
    vm_compute; reflexivity.
Defined.

(** ** Finding objects on the grid *)

Lemma py_eq_refl (v : pyval) : py_eq v v = true.
Proof.
  revert v. fix IH 1. intros [| b | z | s | l | l | r]; cbn [py_eq].
  - reflexivity.
  - now destruct b.
  - apply Z.eqb_refl.
  - apply String.eqb_refl.
  - induction l as [|x l IHl]; [reflexivity|]. now rewrite IH, IHl.
  - induction l as [|x l IHl]; [reflexivity|]. now rewrite IH, IHl.
  - apply Nat.eqb_refl.
Qed.

Lemma objects_at_loop_filter (e : env) (loc : pyval) (l : list ref) :
  Forall (Grid.located e) l ->
  XYEnvironment.objects_at_loop e loc l
  = Ok (List.filter (Grid.stands_at e loc) l).
Proof.
  induction 1 as [|o l [v Hv] _ IH]; [reflexivity|].
  cbn [XYEnvironment.objects_at_loop List.filter]. rewrite Hv, IH.
  cbn [attr rbind].
  assert (Hs : Grid.stands_at e loc o = py_eq v loc)
    by (unfold Grid.stands_at; now rewrite Hv).
  now rewrite Hs.
Qed.

Lemma objects_at_loop_unlocated (e : env) (loc : pyval) (l : list ref) :
  Exists (fun o => location (get e o) = None) l ->
  XYEnvironment.objects_at_loop e loc l = Raise AttributeError.
Proof.
  induction 1 as [o l Ho|o l _ IH]; cbn [XYEnvironment.objects_at_loop].
  - now rewrite Ho.
  - destruct (attr (location (get e o))) as [v|x] eqn:Hv.
    + cbn [rbind]. now rewrite IH.
    + unfold attr in Hv. destruct (location (get e o)); [discriminate|].
      now injection Hv as <-.
Qed.

Lemma some_true {A} (f : A -> bool) (l : list A) :
  utils.some f l = true <-> exists x, In x l /\ f x = true.
Proof.
  induction l as [|y l IH]; cbn [utils.some].
  - split; [discriminate|intros (x & [] & _)].
  - destruct (f y) eqn:Hy.
    + split; [intros _; exists y; split; [now left|exact Hy]|reflexivity].
    + rewrite IH. split.
      * intros (x & Hx & Hfx). exists x. split; [now right|exact Hfx].
      * intros (x & [<-|Hx] & Hfx); [congruence|]. now exists x.
Qed.

Lemma find_at_located (e : env) (oclass : pyclass) (loc : pyval) :
  Forall (Grid.located e) (objects e) ->
  exists b,
    XYEnvironment.find_at e oclass loc = Ok b /\
    (b = true <->
     exists o l, In o (objects e) /\ location (get e o) = Some l /\
                 py_eq l loc = true /\
                 issubclass (cls (get e o)) oclass = true).
Proof.
  unfold XYEnvironment.find_at, XYEnvironment.objects_at.
  intros Hall. rewrite objects_at_loop_filter by exact Hall. cbn [rbind].
  eexists. split; [reflexivity|]. rewrite some_true. split.
  - intros (o & Ho & Hi). apply List.filter_In in Ho. destruct Ho as [Ho Hs].
    unfold Grid.stands_at in Hs.
    destruct (location (get e o)) as [l|] eqn:Hl; [|discriminate].
    now exists o, l.
  - intros (o & l & Ho & Hl & Heq & Hi). exists o. split; [|exact Hi].
    apply List.filter_In. split; [exact Ho|].
    unfold Grid.stands_at. now rewrite Hl.
Qed.

(** X12.  In a grid environment whose registered objects all have a
    location, [find_at(oclass, location)] answers, and answers true
    exactly when some registered object stands at a location equal to the
    given one and is an instance of the class, a subclass included (a
    [Wall] is found as an [Obstacle]).  When a registered object has no
    location, [find_at] raises [AttributeError]. *)
Theorem find_at_exactly (e : env) (oclass : pyclass) (loc : pyval) :
  (Forall (Grid.located e) (objects e) ->
   exists b,
     XYEnvironment.find_at e oclass loc = Ok b /\
     (b = true <->
      exists o l, In o (objects e) /\ location (get e o) = Some l /\
                  py_eq l loc = true /\
                  issubclass (cls (get e o)) oclass = true)) /\
  (Exists (fun o => location (get e o) = None) (objects e) ->
   XYEnvironment.find_at e oclass loc = Raise AttributeError).
Proof.
  split; [apply find_at_located|].
  unfold XYEnvironment.find_at, XYEnvironment.objects_at.
  intros Hex. now rewrite objects_at_loop_unlocated.
Qed.

Lemma find_at_exactly_witness :
  exists b,
    XYEnvironment.find_at Sample.facing_wall_env Obstacle
      (VTuple [VInt 0; VInt 1]) = Ok b /\
    (b = true <->
     exists o l, In o (objects Sample.facing_wall_env) /\
                 location (get Sample.facing_wall_env o) = Some l /\
                 py_eq l (VTuple [VInt 0; VInt 1]) = true /\
                 issubclass (cls (get Sample.facing_wall_env o)) Obstacle
                 = true).
Proof.
  apply (proj1 (find_at_exactly Sample.facing_wall_env Obstacle
                  (VTuple [VInt 0; VInt 1]))).
  repeat constructor; eexists; reflexivity.
Defined.

(** ** Grabbing *)



(** ** Registration on the grid *)

(** The environment that [XYEnvironment.add_object] leaves: one update of
    the object, two new entries in [objects]. *)
Lemma XY_add_object_shape (e : env) (o : ref) (loc : pyval) (g : RNG) :
  truthy loc = true ->
  XYEnvironment.add_object e o (Some loc) g
  = Ok (mkEnv
          (alter (fun x =>
                    set_held (Some VNone)
                      (set_holding (Some [])
                         ((if isinstance (get e o) Agent
                           then set_performance (Some 0) else id)
                            (set_location (Some loc) x))))
                 o (heap e))
          (objects e ++ [o; o])
          (agents e ++ (if isinstance (get e o) Agent then [o] else []))
          (width e) (height e) (status e), g).
Proof.
  intros Ht. unfold XYEnvironment.add_object.
  cbn [default from_option id].
  destruct (Environment_add_object_located XYEnvironment.default_location
              e o loc g Ht) as [e1 H1].
  rewrite (bind_ok _ _ _ _ _ H1). unfold ret.
  destruct (add_object_result _ _ _ _ _ _ _ H1) as (l & Hl & He1).
  assert (l = loc) as ->.
  { revert Hl. unfold py_or. cbn [default from_option id]. rewrite Ht.
    unfold ret. now intros [= ->]. }
  cbv zeta in He1. subst e1.
  destruct (isinstance (get e o) Agent);
    unfold upd, set_objects, set_agents, set_heap;
    cbn [heap objects agents width height status];
    rewrite ?list_alter_alter_eq, <- ?app_assoc, ?app_nil_r; reflexivity.
Qed.

Lemma XY_add_object_result (e : env) (o : ref) (loc : pyval) (g : RNG) :
  truthy loc = true ->
  exists e',
    XYEnvironment.add_object e o (Some loc) g = Ok (e', g) /\
    objects e' = objects e ++ [o; o] /\
    agents e' = agents e ++
                (if isinstance (get e o) Agent then [o] else []) /\
    width e' = width e /\ height e' = height e /\
    length (heap e') = length (heap e) /\
    (forall x, x <> o -> get e' x = get e x) /\
    (heap e !! o = Some (get e o) ->
     location (get e' o) = Some loc /\ holding (get e' o) = Some [] /\
     cls (get e' o) = cls (get e o)).
Proof.
  intros Ht. eexists. split; [apply (XY_add_object_shape e o loc g Ht)|].
  cbn [objects agents width height heap].
  repeat (split; [reflexivity|]). split; [apply length_alter|]. split.
  - intros x Hx. unfold get. cbn [heap].
    now rewrite list_lookup_alter_ne by congruence.
  - intros Hv.
    match goal with
    | |- context [get ?e' o] =>
        lazymatch e' with
        | e => fail
        | _ => set (o' := get e' o)
        end
    end.
    assert (Ho' : o' = set_held (Some VNone)
                         (set_holding (Some [])
                            ((if isinstance (get e o) Agent
                              then set_performance (Some 0) else id)
                               (set_location (Some loc) (get e o))))).
    { unfold o', get at 1. cbn [heap].
      now rewrite list_lookup_alter_eq, Hv. }
    rewrite Ho'. destruct (isinstance (get e o) Agent); repeat split.
Qed.

Lemma some_ext {A} (f f' : A -> bool) (l : list A) :
  (forall x, In x l -> f x = f' x) -> utils.some f l = utils.some f' l.
Proof.
  induction l as [|y l IH]; [reflexivity|]. intros H. cbn [utils.some].
  rewrite (H y) by now left. destruct (f' y); [reflexivity|].
  apply IH. intros x Hx. apply H. now right.
Qed.

Lemma XY_add_object_found (e : env) (o : ref) (loc : pyval) (g : RNG) :
  truthy loc = true ->
  heap e !! o = Some (get e o) ->
  Forall (Grid.located e) (objects e) ->
  exists e',
    XYEnvironment.add_object e o (Some loc) g = Ok (e', g) /\
    Forall (Grid.located e') (objects e') /\
    (forall c, issubclass (cls (get e o)) c = true ->
               XYEnvironment.find_at e' c loc = Ok true) /\
    (~ In o (objects e) ->
     forall c loc', py_eq loc loc' = false ->
       XYEnvironment.find_at e' c loc' = XYEnvironment.find_at e c loc').
Proof.
  intros Ht Hv Hall.
  destruct (XY_add_object_result e o loc g Ht)
    as (e' & H & Ho & _ & _ & _ & _ & Hother & Hnew).
  destruct (Hnew Hv) as (Hloc & _ & Hcls).
  assert (Hall' : Forall (Grid.located e') (objects e')).
  { rewrite Ho. apply Forall_app. split.
    - eapply Forall_impl; [exact Hall|]. intros x [l Hl].
      destruct (decide (x = o)) as [->|Hne]; [now exists loc|].
      exists l. now rewrite Hother.
    - repeat constructor; now exists loc. }
  exists e'. split; [exact H|]. split; [exact Hall'|]. split.
  - intros c Hc. destruct (find_at_located e' c loc Hall') as (b & Hb & Hiff).
    rewrite Hb. f_equal. apply Hiff. exists o, loc.
    split; [rewrite Ho; apply in_or_app; right; now left|].
    split; [exact Hloc|]. split; [apply py_eq_refl|]. now rewrite Hcls.
  - intros Hnin c loc' Hne.
    unfold XYEnvironment.find_at, XYEnvironment.objects_at.
    rewrite (objects_at_loop_filter e') by exact Hall'.
    rewrite (objects_at_loop_filter e) by exact Hall. cbn [rbind]. f_equal.
    rewrite Ho, List.filter_app. cbn [List.filter].
    assert (Hso : Grid.stands_at e' loc' o = false).
    { unfold Grid.stands_at. now rewrite Hloc. }
    rewrite Hso, app_nil_r.
    assert (Hsame : forall x, In x (objects e) -> get e' x = get e x).
    { intros x Hx. apply Hother. intros ->. contradiction. }
    rewrite (List.filter_ext_in (Grid.stands_at e' loc') (Grid.stands_at e loc')).
    + apply some_ext. intros x Hx. apply List.filter_In in Hx.
      unfold isinstance. now rewrite Hsame.
    + intros x Hx. unfold Grid.stands_at. now rewrite Hsame.
Qed.


(** X14.  Registering an existing object at an explicit location of a
    grid environment whose objects all have a location completes without
    consulting the generator, and the objects still all have a location.
    The object is then found at that location as an instance of its
    class and of each class above it; and when it was not registered
    before, what is found at the other locations is what was found there
    before. *)
Theorem grid_registration (e : env) (o : ref) (loc : pyval) (g : RNG) :
  truthy loc = true ->
  heap e !! o = Some (get e o) ->
  Forall (Grid.located e) (objects e) ->
  exists e',
    XYEnvironment.add_object e o (Some loc) g = Ok (e', g) /\
    Forall (Grid.located e') (objects e') /\
    (forall c, issubclass (cls (get e o)) c = true ->
               XYEnvironment.find_at e' c loc = Ok true) /\
    (~ In o (objects e) ->
     forall c loc', py_eq loc loc' = false ->
       XYEnvironment.find_at e' c loc' = XYEnvironment.find_at e c loc').
Proof. apply XY_add_object_found. Qed.

Lemma grid_registration_witness :
  let e := snd (alloc (bare Wall) (XYEnvironment.__init__ 10 10)) in
  exists e',
    XYEnvironment.add_object e 0%nat (Some (VTuple [VInt 0; VInt 1]))
      Sample.zeros = Ok (e', Sample.zeros) /\
    Forall (Grid.located e') (objects e') /\
    (forall c, issubclass (cls (get e 0%nat)) c = true ->
               XYEnvironment.find_at e' c (VTuple [VInt 0; VInt 1]) = Ok true) /\
    (~ In 0%nat (objects e) ->
     forall c loc', py_eq (VTuple [VInt 0; VInt 1]) loc' = false ->
       XYEnvironment.find_at e' c loc' = XYEnvironment.find_at e c loc').
Proof.
  apply (grid_registration
           (snd (alloc (bare Wall) (XYEnvironment.__init__ 10 10)))
           0%nat (VTuple [VInt 0; VInt 1]) Sample.zeros);
    [reflexivity|reflexivity|constructor].
Defined.

(** ** The walls around the grid *)

Lemma get_alloc_new (e : env) (o : obj) :
  heap (snd (alloc o e)) !! length (heap e) = Some o /\
  get (snd (alloc o e)) (length (heap e)) = o.
Proof.
  unfold get, alloc, set_heap. cbn [snd heap].
  now rewrite list_lookup_middle.
Qed.

Lemma add_wall_walled (e : env) (L : list pyval) (loc : pyval) (g : RNG) :
  walled e L -> truthy loc = true ->
  exists e',
    XYEnvironment.add_wall e loc g = Ok (e', g) /\
    walled e' (L ++ [loc]) /\
    width e' = width e /\ height e' = height e /\
    length (heap e') = S (length (heap e)) /\
    length (objects e') = S (S (length (objects e))).
Proof.
  intros (Hag & Hval & Hobj & Hcov) Ht. unfold XYEnvironment.add_wall.
  change (alloc (bare Wall) e)
    with (length (heap e), snd (alloc (bare Wall) e)).
  set (w := length (heap e)). set (e1 := snd (alloc (bare Wall) e)).
  destruct (get_alloc_new e (bare Wall)) as [Hnew Hgetnew].
  fold w e1 in Hnew, Hgetnew.
  destruct (XY_add_object_result e1 w loc g Ht)
    as (e' & H & Ho & Ha & Hw & Hh & Hlen & Hother & Hself).
  destruct Hself as (Hloc & _ & Hcls); [now rewrite Hgetnew|].
  assert (Hold : forall x, In x (objects e) -> get e' x = get e x).
  { intros x Hx. rewrite Forall_forall in Hval.
    assert (x < w)%nat by (apply Hval; now apply list_elem_of_In).
    rewrite Hother by lia. now apply get_alloc_old. }
  exists e'. split; [exact H|]. split; [|split; [exact Hw|split; [exact Hh|]]].
  - split; [|split; [|split]].
    + rewrite Ha. unfold e1 at 1. cbn [alloc snd agents set_heap].
      rewrite Hag, Hgetnew. reflexivity.
    + rewrite Ho, Hlen. unfold e1. cbn [alloc snd heap objects set_heap].
      rewrite length_app. cbn [length]. apply Forall_app. split.
      * eapply Forall_impl; [exact Hval|]. cbn. intros; lia.
      * repeat constructor; fold w; lia.
    + intros x Hx. rewrite Ho in Hx. apply in_app_or in Hx.
      destruct Hx as [Hx|Hx].
      * rewrite (Hold x Hx). destruct (Hobj x Hx) as [Hc (l & Hl & Hxl)].
        split; [exact Hc|]. exists l. split; [|exact Hxl].
        apply in_or_app. now left.
      * assert (x = w) as -> by (cbn in Hx; intuition).
        rewrite Hcls, Hgetnew. split; [reflexivity|]. exists loc.
        split; [|exact Hloc]. apply in_or_app. right. now left.
    + intros l Hl. apply in_app_or in Hl. destruct Hl as [Hl|[<-|[]]].
      * destruct (Hcov l Hl) as (x & Hx & Hxl). exists x.
        split; [rewrite Ho; apply in_or_app; now left|].
        now rewrite (Hold x Hx).
      * exists w. split; [|exact Hloc].
        rewrite Ho. apply in_or_app. right. now left.
  - split.
    + rewrite Hlen. unfold e1. cbn [alloc snd heap set_heap].
      rewrite length_app. cbn [length]. lia.
    + rewrite Ho, length_app. cbn [length]. unfold e1.
      cbn [alloc snd objects set_heap]. lia.
Qed.

Lemma add_walls_x_walled (xs : list nat) (e : env) (L : list pyval) (g : RNG) :
  walled e L ->
  exists e',
    XYEnvironment.add_walls_x e xs g = Ok (e', g) /\
    walled e'
      (L ++ flat_map (fun x => [Grid.cell (Z.of_nat x) 0;
                                Grid.cell (Z.of_nat x) (height e - 1)]) xs) /\
    width e' = width e /\ height e' = height e /\
    length (heap e') = (length (heap e) + 2 * length xs)%nat /\
    length (objects e') = (length (objects e) + 4 * length xs)%nat.
Proof.
  revert e L. induction xs as [|x xs IH]; intros e L Hw.
  - exists e. cbn [flat_map length]. rewrite app_nil_r.
    split; [reflexivity|]. split; [exact Hw|]. repeat split; lia.
  - cbn [XYEnvironment.add_walls_x].
    destruct (add_wall_walled e L (Grid.cell (Z.of_nat x) 0) g Hw eq_refl)
      as (e1 & H1 & Hw1 & Hwd1 & Hh1 & Hl1 & Ho1).
    rewrite (bind_ok _ _ _ _ _ H1).
    destruct (add_wall_walled e1 _ (Grid.cell (Z.of_nat x) (height e1 - 1))
                g Hw1 eq_refl)
      as (e2 & H2 & Hw2 & Hwd2 & Hh2 & Hl2 & Ho2).
    change (VTuple [VInt (Z.of_nat x); VInt (height e1 - 1)])
      with (Grid.cell (Z.of_nat x) (height e1 - 1)).
    rewrite (bind_ok _ _ _ _ _ H2).
    destruct (IH e2 _ Hw2) as (e' & H & Hw' & Hwd & Hh & Hl & Ho).
    exists e'. split; [exact H|]. split.
    + cbn [flat_map]. rewrite Hh2, Hh1 in Hw'.
      now rewrite <- !app_assoc in Hw'.
    + cbn [length]. repeat split; lia || congruence.
Qed.

Lemma add_walls_y_walled (ys : list nat) (e : env) (L : list pyval) (g : RNG) :
  walled e L ->
  exists e',
    XYEnvironment.add_walls_y e ys g = Ok (e', g) /\
    walled e'
      (L ++ flat_map (fun y => [Grid.cell 0 (Z.of_nat y);
                                Grid.cell (width e - 1) (Z.of_nat y)]) ys) /\
    width e' = width e /\ height e' = height e /\
    length (heap e') = (length (heap e) + 2 * length ys)%nat /\
    length (objects e') = (length (objects e) + 4 * length ys)%nat.
Proof.
  revert e L. induction ys as [|y ys IH]; intros e L Hw.
  - exists e. cbn [flat_map length]. rewrite app_nil_r.
    split; [reflexivity|]. split; [exact Hw|]. repeat split; lia.
  - cbn [XYEnvironment.add_walls_y].
    destruct (add_wall_walled e L (Grid.cell 0 (Z.of_nat y)) g Hw eq_refl)
      as (e1 & H1 & Hw1 & Hwd1 & Hh1 & Hl1 & Ho1).
    rewrite (bind_ok _ _ _ _ _ H1).
    destruct (add_wall_walled e1 _ (Grid.cell (width e1 - 1) (Z.of_nat y))
                g Hw1 eq_refl)
      as (e2 & H2 & Hw2 & Hwd2 & Hh2 & Hl2 & Ho2).
    change (VTuple [VInt (width e1 - 1); VInt (Z.of_nat y)])
      with (Grid.cell (width e1 - 1) (Z.of_nat y)).
    rewrite (bind_ok _ _ _ _ _ H2).
    destruct (IH e2 _ Hw2) as (e' & H & Hw' & Hwd & Hh & Hl & Ho).
    exists e'. split; [exact H|]. split.
    + cbn [flat_map]. rewrite Hwd2, Hwd1 in Hw'.
      now rewrite <- !app_assoc in Hw'.
    + cbn [length]. repeat split; lia || congruence.
Qed.

Lemma cell_eq (x y x' y' : Z) :
  py_eq (Grid.cell x' y') (Grid.cell x y) = true <-> x' = x /\ y' = y.
Proof.
  unfold Grid.cell. cbn [py_eq]. rewrite andb_true_r, andb_true_iff.
  now rewrite !Z.eqb_eq.
Qed.

Lemma on_border_spec (w h x y : Z) :
  Grid.on_border w h x y = true <->
  (0 <= x < w /\ (y = 0 \/ y = h - 1)) \/
  (0 <= y < h /\ (x = 0 \/ x = w - 1)).
Proof.
  unfold Grid.on_border.
  rewrite orb_true_iff, !andb_true_iff, !orb_true_iff, !Z.leb_le, !Z.ltb_lt,
    !Z.eqb_eq.
  tauto.
Qed.

Lemma border_cells (w h : Z) (l : pyval) :
  In l (flat_map (fun x => [Grid.cell (Z.of_nat x) 0;
                            Grid.cell (Z.of_nat x) (h - 1)])
          (seq 0 (Z.to_nat w)) ++
        flat_map (fun y => [Grid.cell 0 (Z.of_nat y);
                            Grid.cell (w - 1) (Z.of_nat y)])
          (seq 0 (Z.to_nat h))) <->
  exists x y, l = Grid.cell x y /\ Grid.on_border w h x y = true.
Proof.
  rewrite in_app_iff, !in_flat_map. split.
  - intros [(n & Hn & Hl)|(n & Hn & Hl)]; apply in_seq in Hn;
      destruct Hl as [<-|[<-|[]]]; do 2 eexists; (split; [reflexivity|]);
      apply on_border_spec; lia.
  - intros (x & y & -> & Hb). apply on_border_spec in Hb.
    destruct Hb as [[Hr Hc]|[Hr Hc]].
    + left. exists (Z.to_nat x). split; [apply in_seq; lia|].
      rewrite Z2Nat.id by lia.
      destruct Hc as [->| ->]; cbn; tauto.
    + right. exists (Z.to_nat y). split; [apply in_seq; lia|].
      rewrite Z2Nat.id by lia.
      destruct Hc as [->| ->]; cbn; tauto.
Qed.

(** The constructor of a walled grid, for both classes that use it. *)
Lemma add_walls_arena (w h : Z) (g : RNG) :
  exists e,
    XYEnvironment.add_walls (XYEnvironment.__init__ w h) g = Ok (e, g) /\
    agents e = [] /\ width e = w /\ height e = h /\
    length (heap e) = (2 * (Z.to_nat w + Z.to_nat h))%nat /\
    length (objects e) = (2 * length (heap e))%nat /\
    Forall (Grid.located e) (objects e) /\
    forall x y,
      XYEnvironment.find_at e Obstacle (Grid.cell x y)
      = Ok (Grid.on_border w h x y).
Proof.
  unfold XYEnvironment.add_walls.
  assert (H0 : walled (XYEnvironment.__init__ w h) []).
  { split; [reflexivity|]. split; [constructor|].
    split; [intros o []|intros l []]. }
  destruct (add_walls_x_walled (seq 0 (Z.to_nat w)) _ [] g H0)
    as (e1 & H1 & Hw1 & Hwd1 & Hh1 & Hl1 & Ho1).
  cbn [width height XYEnvironment.__init__] in *.
  rewrite (bind_ok _ _ _ _ _ H1). rewrite Hh1.
  destruct (add_walls_y_walled (seq 0 (Z.to_nat h)) e1 _ g Hw1)
    as (e & H & Hw & Hwd & Hh & Hl & Ho).
  rewrite Hwd1 in Hw. cbn [app] in Hw.
  exists e. split; [exact H|]. destruct Hw as (Hag & Hval & Hobj & Hcov).
  rewrite !length_seq in *.
  cbn [length heap objects XYEnvironment.__init__] in *.
  split; [exact Hag|]. split; [congruence|]. split; [congruence|].
  split; [lia|]. split; [lia|].
  assert (Hall : Forall (Grid.located e) (objects e)).
  { apply Forall_forall. intros o Hin. apply list_elem_of_In in Hin.
    destruct (Hobj o Hin) as [_ (l & _ & Hloc)]. now exists l. }
  split; [exact Hall|]. intros x y.
  destruct (find_at_located e Obstacle (Grid.cell x y) Hall) as (b & Hb & Hiff).
  rewrite Hb. f_equal.
  destruct (Grid.on_border w h x y) eqn:Hbd.
  - apply Hiff.
    destruct (Hcov (Grid.cell x y)) as (o & Hin & Hloc).
    { apply border_cells. now exists x, y. }
    exists o, (Grid.cell x y). split; [exact Hin|]. split; [exact Hloc|].
    split; [apply py_eq_refl|]. destruct (Hobj o Hin) as [-> _]. reflexivity.
  - destruct b; [|reflexivity]. exfalso.
    destruct (proj1 Hiff eq_refl) as (o & l & Hin & Hloc & Heq & _).
    destruct (Hobj o Hin) as [_ (l' & Hl' & Hloc')].
    assert (l' = l) as -> by congruence.
    apply border_cells in Hl'. destruct Hl' as (x' & y' & -> & Hb').
    apply cell_eq in Heq. destruct Heq as [-> ->]. congruence.
Qed.

(** X15.  For every width and height, the constructor of the grid vacuum
    world completes without touching the generator and leaves a closed
    arena: no agent, [2 * (width + height)] walls (a negative dimension
    counting as zero, as [range] has it), each registered twice, all
    with a location, and an [Obstacle] is found at a cell exactly when
    the cell lies on the border of the grid (first or last row, first or
    last column). *)
Theorem vacuum_arena (w h : Z) (g : RNG) :
  exists e,
    VacuumEnvironment.__init__ w h g = Ok (e, g) /\
    agents e = [] /\ width e = w /\ height e = h /\
    length (heap e) = (2 * (Z.to_nat w + Z.to_nat h))%nat /\
    length (objects e) = (2 * length (heap e))%nat /\
    Forall (Grid.located e) (objects e) /\
    forall x y,
      XYEnvironment.find_at e Obstacle (Grid.cell x y)
      = Ok (Grid.on_border w h x y).
Proof. apply add_walls_arena. Qed.
(** ** The reflex agent in the two-location world *)

Lemma reflex_registered (sa sb l : pyval) (g : RNG) :
  TwoLocations.is_location l ->
  self_add_object TrivialVacuumEnvironment.class
    (snd (alloc new_ReflexVacuumAgent (TwoLocations.world sa sb)))
    0%nat (Some l) g
  = Ok (reflex_at l 0 sa sb, g).
Proof. intros [-> | ->]; reflexivity. Qed.

(** Once both locations are Clean the agent walks to and fro, one point
    a tick. *)
Lemma reflex_idle (k : nat) :
  forall (l : pyval) (p : Z) (g : RNG),
    TwoLocations.is_location l ->
    exists l',
      TwoLocations.is_location l' /\
      Environment.run_loop TrivialVacuumEnvironment.class k
        (reflex_at l p (VStr "Clean") (VStr "Clean")) g
      = Ok (reflex_at l' (p - Z.of_nat k) (VStr "Clean") (VStr "Clean"), g).
Proof.
  induction k as [|k IH]; intros l p g Hl.
  - exists l. split; [exact Hl|]. cbn [Environment.run_loop]. unfold ret.
    now rewrite Z.sub_0_r.
  - assert (Hstep : exists l1, TwoLocations.is_location l1 /\
              Environment.step TrivialVacuumEnvironment.class
                (reflex_at l p (VStr "Clean") (VStr "Clean")) g
              = Ok (reflex_at l1 (p + -1) (VStr "Clean") (VStr "Clean"), g)).
    { destruct Hl as [-> | ->]; [exists loc_B|exists loc_A];
        (split; [unfold TwoLocations.is_location; auto|reflexivity]). }
    destruct Hstep as (l1 & Hl1 & Hstep).
    destruct (IH l1 (p + -1) g Hl1) as (l' & Hl' & Hrun).
    exists l'. split; [exact Hl'|].
    cbn [Environment.run_loop].
    change (Environment.is_done (reflex_at l p (VStr "Clean") (VStr "Clean")))
      with false.
    cbv iota. rewrite (bind_ok _ _ _ _ _ Hstep). rewrite Hrun.
    replace (p + -1 - Z.of_nat k) with (p - Z.of_nat (S k)) by lia.
    reflexivity.
Qed.

(** The first three ticks, from each of the eight starts. *)
Lemma reflex_three_ticks (sa sb l : pyval) (g : RNG) :
  TwoLocations.is_status sa -> TwoLocations.is_status sb ->
  TwoLocations.is_location l ->
  exists l',
    TwoLocations.is_location l' /\
    Environment.run_loop TrivialVacuumEnvironment.class 3
      (reflex_at l 0 sa sb) g
    = Ok (reflex_at l' (11 * (dirt sa + dirt sb) - 3)
            (VStr "Clean") (VStr "Clean"), g).
Proof.
  unfold TwoLocations.is_location.
  intros [-> | ->] [-> | ->] [-> | ->];
    ((exists loc_A; split; [auto|reflexivity])
     || (exists loc_B; split; [auto|reflexivity])).
Qed.

(** X16.  A [ReflexVacuumAgent] alone in a two-location world, whatever
    the two statuses and wherever it is put: the registration completes,
    and a run of three ticks or more completes with both locations
    Clean.  The agent never rests: it ends with 11 points for each
    location that was Dirty, less one point for each tick of the run. *)
Theorem reflex_agent_run (sa sb l : pyval) (k : nat) (g : RNG) :
  TwoLocations.is_status sa -> TwoLocations.is_status sb ->
  TwoLocations.is_location l ->
  exists e1 e',
    self_add_object TrivialVacuumEnvironment.class
      (snd (alloc new_ReflexVacuumAgent (TwoLocations.world sa sb)))
      0%nat (Some l) g = Ok (e1, g) /\
    Environment.run TrivialVacuumEnvironment.class (3 + Z.of_nat k) e1 g
    = Ok (e', g) /\
    status e' = [(loc_A, VStr "Clean"); (loc_B, VStr "Clean")] /\
    performance (get e' 0%nat)
    = Some (11 * (dirt sa + dirt sb) - (3 + Z.of_nat k)).
Proof.
  intros Hsa Hsb Hl.
  destruct (reflex_three_ticks sa sb l g Hsa Hsb Hl) as (l1 & Hl1 & H3).
  destruct (reflex_idle k l1 (11 * (dirt sa + dirt sb) - 3) g Hl1)
    as (l2 & Hl2 & Hk).
  exists (reflex_at l 0 sa sb). eexists.
  split; [now apply reflex_registered|]. split.
  - unfold Environment.run.
    replace (Z.to_nat (3 + Z.of_nat k)) with (3 + k)%nat by lia.
    rewrite run_loop_add. rewrite (bind_ok _ _ _ _ _ H3). exact Hk.
  - split; [reflexivity|]. cbn. f_equal. lia.
Qed.

Lemma reflex_agent_run_witness :
  exists e1 e',
    self_add_object TrivialVacuumEnvironment.class
      (snd (alloc new_ReflexVacuumAgent
              (TwoLocations.world (VStr "Dirty") (VStr "Dirty"))))
      0%nat (Some loc_A) Sample.zeros = Ok (e1, Sample.zeros) /\
    Environment.run TrivialVacuumEnvironment.class (3 + Z.of_nat 1) e1
      Sample.zeros = Ok (e', Sample.zeros) /\
    status e' = [(loc_A, VStr "Clean"); (loc_B, VStr "Clean")] /\
    performance (get e' 0%nat)
    = Some (11 * (dirt (VStr "Dirty") + dirt (VStr "Dirty"))
            - (3 + Z.of_nat 1)).
Proof.
  apply (reflex_agent_run (VStr "Dirty") (VStr "Dirty") loc_A 1 Sample.zeros);
    unfold TwoLocations.is_status, TwoLocations.is_location; auto.
Defined.

(** ** The table-driven vacuum agent *)

(** Tuples of different lengths are not equal. *)
Lemma py_eq_tuple_length (l1 l2 : list pyval) :
  py_eq (VTuple l1) (VTuple l2) = true -> length l1 = length l2.
Proof.
  revert l2. induction l1 as [|x l1 IH]; intros [|y l2]; cbn [py_eq];
    try discriminate; [reflexivity|].
  intros H. apply andb_true_iff in H. destruct H as [_ H].
  cbn [length]. f_equal. apply IH. exact H.
Qed.

Lemma dict_find_long (d : list (pyval * pyval)) (n : nat) (l : list pyval) :
  Forall (fun kv => exists l', fst kv = VTuple l' /\ (length l' < n)%nat) d ->
  (n <= length l)%nat ->
  dict_find d (VTuple l) = None.
Proof.
  intros Hd Hl. induction Hd as [|[k v] d (l' & Hk & Hlen) _ IH];
    [reflexivity|].
  cbn [dict_find]. cbn [fst] in Hk. subst k.
  destruct (py_eq (VTuple l') (VTuple l)) eqn:He; [|exact IH].
  apply py_eq_tuple_length in He. lia.
Qed.

(** X17.  The table of [TableDrivenVacuumAgent] has no entry for a
    sequence of more than three percepts, and the program never forgets
    a percept: once it has been called three times it answers [None] to
    every percept, for ever, and an agent that answers [None] is left
    where it is by the two-location world, its performance and the two
    statuses unchanged.  (A percept that cannot be hashed raises
    [TypeError].) *)
Theorem table_driven_vacuum_agent_gives_up
    (percepts : list pyval) (percept_ : pyval) (g : RNG) :
  (3 <= length percepts)%nat ->
  (hashable (VTuple (percepts ++ [percept_])) = true ->
   table_driven_program vacuum_table (VList percepts) percept_ g
   = Ok ((VNone, VList (percepts ++ [percept_])), g)) /\
  (hashable (VTuple (percepts ++ [percept_])) = false ->
   table_driven_program vacuum_table (VList percepts) percept_ g
   = Raise TypeError) /\
  (forall e a, TrivialVacuumEnvironment.execute_action e a VNone = Ok e).
Proof.
  intros Hlen. unfold table_driven_program. split; [|split].
  - intros ->. rewrite (dict_find_long vacuum_table 4).
    + reflexivity.
    + unfold vacuum_table. repeat constructor;
        eexists; (split; [reflexivity|cbn; lia]).
    + rewrite length_app. cbn. lia.
  - now intros ->.
  - reflexivity.
Qed.

Lemma table_driven_vacuum_agent_gives_up_witness :
  (hashable (VTuple (repeat (VTuple [loc_A; VStr "Clean"]) 3
                     ++ [VTuple [loc_A; VStr "Clean"]])) = true ->
   table_driven_program vacuum_table
     (VList (repeat (VTuple [loc_A; VStr "Clean"]) 3))
     (VTuple [loc_A; VStr "Clean"]) Sample.zeros
   = Ok ((VNone, VList (repeat (VTuple [loc_A; VStr "Clean"]) 3
                        ++ [VTuple [loc_A; VStr "Clean"]])), Sample.zeros)) /\
  (hashable (VTuple (repeat (VTuple [loc_A; VStr "Clean"]) 3
                     ++ [VTuple [loc_A; VStr "Clean"]])) = false ->
   table_driven_program vacuum_table
     (VList (repeat (VTuple [loc_A; VStr "Clean"]) 3))
     (VTuple [loc_A; VStr "Clean"]) Sample.zeros
   = Raise TypeError) /\
  (forall e a, TrivialVacuumEnvironment.execute_action e a VNone = Ok e).
Proof.
  apply (table_driven_vacuum_agent_gives_up
           (repeat (VTuple [loc_A; VStr "Clean"]) 3)
           (VTuple [loc_A; VStr "Clean"]) Sample.zeros).
  cbn. lia.
Defined.

(** The first three calls on the percepts of a world that stays Clean at
    A, and the fourth. *)
Example table_driven_vacuum_agent_sample :
  let ac := VTuple [loc_A; VStr "Clean"] in
  exists g,
    table_driven_program vacuum_table (VList []) ac Sample.zeros
    = Ok ((VStr "Right", VList [ac]), g) /\
    table_driven_program vacuum_table (VList [ac]) ac Sample.zeros
    = Ok ((VStr "Right", VList [ac; ac]), g) /\
    table_driven_program vacuum_table (VList [ac; ac]) ac Sample.zeros
    = Ok ((VStr "Right", VList [ac; ac; ac]), g) /\
    table_driven_program vacuum_table (VList [ac; ac; ac]) ac Sample.zeros
    = Ok ((VNone, VList [ac; ac; ac; ac]), g).
Proof. exists Sample.zeros. repeat split. Qed.

(** ** The harness without instances *)

(** X18.  With [n <= 0] the harness constructs no environment, and every
    agent factory is then scored on an empty list: [test_agent] divides
    by [len(envs) = 0].  So [compare_agents] raises [ZeroDivisionError]
    as soon as there is one agent factory, before any agent is
    constructed, whatever the factories and the class are; with no
    factory it returns the empty list.  In both cases neither the store
    nor the generator is touched. *)
Theorem compare_agents_without_instances (C : EnvClass) (EnvFactory : M env)
    (AgentFactories : list (M obj)) (n steps : Z) (s : Harness.store)
    (g : RNG) :
  n <= 0 ->
  Harness.compare_agents C EnvFactory AgentFactories n steps s g
  = match AgentFactories with
    | [] => Ok (([], s), g)
    | _ :: _ => Raise ZeroDivisionError
    end.
Proof.
  intros Hn. unfold Harness.compare_agents.
  replace (Z.to_nat n) with 0%nat by lia.
  destruct AgentFactories as [|A rest]; reflexivity.
Qed.

Lemma compare_agents_without_instances_witness :
  Harness.compare_agents TrivialVacuumEnvironment.class
    TrivialVacuumEnvironment.__init__
    [ret new_ReflexVacuumAgent; ret new_RandomVacuumAgent] 0 1000
    (Harness.mkStore [] []) Sample.counting
  = Raise ZeroDivisionError.
Proof.
  apply (compare_agents_without_instances TrivialVacuumEnvironment.class
           TrivialVacuumEnvironment.__init__
           [ret new_ReflexVacuumAgent; ret new_RandomVacuumAgent] 0 1000
           (Harness.mkStore [] []) Sample.counting).
  lia.
Defined.
